(** * PolicyExpert: a shallow embedding of the customer-information API

    The development follows [src/main.py] (the FastAPI handlers) and
    [src/database.py] (the SQLAlchemy tables).  Python values are modelled as
    the interpreter has them: a [str] is a list of Unicode code points, an
    [int] is a [Z], a [float] is a binary64 number of the Standard Library's
    [SpecFloat], [None] is [None].  The database session is an explicit state
    threaded through a small state-and-exception monad. *)

From Stdlib Require Import ZArith NArith List Ascii String Permutation Sorted Lia.
From Stdlib Require Import SpecFloat DecimalN DecimalPos.
From stdpp Require Import gmap list.

Local Open Scope N_scope.

(** ** Python strings *)

(** A Python [str]: a sequence of code points. *)
Abbreviation pystr := (list N).

(** String literals of the source that are plain ASCII. *)
Definition py (s : string) : pystr :=
  List.map N_of_ascii (list_ascii_of_string s).

(** U+20B9, the rupee sign of [main.py] line 203. *)
Definition RUPEE : pystr := [8377].

(** What the interpreter and the database take from tables that are not part
    of the repository: the Unicode character database above Latin-1, [repr]
    of a string (it depends on Unicode printability), and the case folding
    and the order of the store's collation. *)
Record Platform := {
  ucd_decimal : N -> option Z;   (* Decimal digit value, code points above U+00FF *)
  ucd_digit : N -> bool;         (* Numeric_Type=Digit, code points above U+00FF *)
  py_repr : pystr -> pystr;      (* repr(s) *)
  sql_lower : N -> N;            (* LOWER() of the store, code points above ASCII *)
  sql_between : N -> N -> N -> bool
                                 (* lo <= c <= hi in the collation of the store *)
}.

(** [Py_UNICODE_ISSPACE]: the code points [str.strip()] and [int()] treat as
    white space. *)
Definition Py_UNICODE_ISSPACE (c : N) : bool :=
  ((9 <=? c) && (c <=? 13)) || ((28 <=? c) && (c <=? 32)) ||
  (c =? 133) || (c =? 160) || (c =? 5760) ||
  ((8192 <=? c) && (c <=? 8202)) ||
  (c =? 8232) || (c =? 8233) || (c =? 8239) || (c =? 8287) || (c =? 12288).

(** [Py_UNICODE_TODECIMAL]: the decimal value of a code point, if it has one.
    In Latin-1 only the ASCII digits do. *)
Definition Py_UNICODE_TODECIMAL (pf : Platform) (c : N) : option Z :=
  if c <? 256 then
    if (48 <=? c) && (c <=? 57) then Some (Z.of_N (c - 48)) else None
  else ucd_decimal pf c.

(** [Py_UNICODE_ISDIGIT]: decimal digits and the characters of
    Numeric_Type=Digit; in Latin-1 these are the superscripts U+00B2, U+00B3
    and U+00B9. *)
Definition Py_UNICODE_ISDIGIT (pf : Platform) (c : N) : bool :=
  match Py_UNICODE_TODECIMAL pf c with
  | Some _ => true
  | None =>
      if c <? 256 then (c =? 178) || (c =? 179) || (c =? 185)
      else ucd_digit pf c
  end.

(** [str.lstrip()], [str.rstrip()], [str.strip()] without argument. *)
Fixpoint lstrip (s : pystr) : pystr :=
  match s with
  | [] => []
  | c :: s' => if Py_UNICODE_ISSPACE c then lstrip s' else s
  end.

Definition rstrip (s : pystr) : pystr := rev (lstrip (rev s)).

Definition strip (s : pystr) : pystr := rstrip (lstrip s).

(** [s.startswith(p)]. *)
Fixpoint startswith (p s : pystr) : bool :=
  match p, s with
  | [], _ => true
  | _ :: _, [] => false
  | a :: p', b :: s' => (a =? b) && startswith p' s'
  end.

(** [str.replace(old, new)]: the occurrences of [old], left to right and
    without overlap, become [new].  [skip] counts the characters of a
    matched occurrence still to be passed over. *)
Fixpoint replace_from (old new : pystr) (skip : nat) (s : pystr) : pystr :=
  match s with
  | [] => []
  | c :: s' =>
      match skip with
      | S k => replace_from old new k s'
      | O =>
          if startswith old s
          then new ++ replace_from old new (length old - 1) s'
          else c :: replace_from old new 0 s'
      end
  end.

Definition replace (old new : pystr) (s : pystr) : pystr :=
  match old with
  | [] => new ++ flat_map (fun c => c :: new) s
  | _ :: _ => replace_from old new 0 s
  end.

(** [str.isdigit()]: non-empty and every character a digit. *)
Definition isdigit (pf : Platform) (s : pystr) : bool :=
  match s with
  | [] => false
  | _ :: _ => forallb (Py_UNICODE_ISDIGIT pf) s
  end.

(** Truthiness of an [Optional[str]]: [None] and the empty string are falsy. *)
Definition truthy (o : option pystr) : bool :=
  match o with
  | Some (_ :: _) => true
  | _ => false
  end.

(** ** Exceptions and results *)

Inductive exn :=
| HTTPException (status_code : Z) (detail : pystr)
| ValueError (msg : pystr)
| AttributeError (msg : pystr)
| ZeroDivisionError (msg : pystr)
| DBAPIError (msg : pystr).

(** [str(e)] as interpolated into the detail of a 500 response. *)
Definition str_exn (e : exn) : pystr :=
  match e with
  | HTTPException _ d => d
  | ValueError m | AttributeError m | ZeroDivisionError m | DBAPIError m => m
  end.

Inductive Result (A : Type) :=
| Ok (a : A)
| Raise (e : exn).
Arguments Ok {A} a.
Arguments Raise {A} e.

(** ** [int(str)] in base 10 *)

(** The digits of a literal, with single underscores allowed between digits;
    [acc] is the value read so far and [after_digit] tells whether the
    previous character was a digit. *)
Fixpoint int_digits (pf : Platform) (acc : Z) (after_digit : bool)
    (s : pystr) : option Z :=
  match s with
  | [] => if after_digit then Some acc else None
  | c :: s' =>
      if c =? 95 then
        if after_digit then int_digits pf acc false s' else None
      else
        match Py_UNICODE_TODECIMAL pf c with
        | Some d => int_digits pf (acc * 10 + d)%Z true s'
        | None => None
        end
  end.

Definition int_literal (pf : Platform) (s : pystr) : option Z :=
  match strip s with
  | 43 :: t => int_digits pf 0 false t
  | 45 :: t => option_map Z.opp (int_digits pf 0 false t)
  | t => int_digits pf 0 false t
  end.

(** [int(s)].  The limit on the length of the literal (4300 digits unless
    configured otherwise) is far above what the [String(20)] column [amount]
    holds and is left out. *)
Definition int (pf : Platform) (s : pystr) : Result Z :=
  match int_literal pf s with
  | Some z => Ok z
  | None =>
      Raise (ValueError
               (py "invalid literal for int() with base 10: " ++ py_repr pf s))
  end.

(** ** Rendering numbers *)

Fixpoint uint_chars (d : Decimal.uint) : pystr :=
  match d with
  | Decimal.Nil => []
  | Decimal.D0 d' => 48 :: uint_chars d'
  | Decimal.D1 d' => 49 :: uint_chars d'
  | Decimal.D2 d' => 50 :: uint_chars d'
  | Decimal.D3 d' => 51 :: uint_chars d'
  | Decimal.D4 d' => 52 :: uint_chars d'
  | Decimal.D5 d' => 53 :: uint_chars d'
  | Decimal.D6 d' => 54 :: uint_chars d'
  | Decimal.D7 d' => 55 :: uint_chars d'
  | Decimal.D8 d' => 56 :: uint_chars d'
  | Decimal.D9 d' => 57 :: uint_chars d'
  end.

(** [str(n)] of a non-negative [int]. *)
Definition str_N (n : N) : pystr := uint_chars (N.to_uint n).

(** [s.zfill(w)] on a string of digits: the padding of [%0wd]. *)
Definition zfill (w : nat) (s : pystr) : pystr :=
  repeat 48 (w - length s) ++ s.

(** The digits of a number, least significant first, with a comma after
    every third digit that has a digit following it. *)
Fixpoint commas_rev (r : pystr) (n : nat) : pystr :=
  match r with
  | [] => []
  | c :: r' =>
      match r', n with
      | _ :: _, 2%nat => c :: 44 :: commas_rev r' 0
      | _, _ => c :: commas_rev r' (S n)
      end
  end.

(** The format specification [{n:,}] of an [int]. *)
Definition format_comma (z : Z) : pystr :=
  (if (z <? 0)%Z then [45] else []) ++
  rev (commas_rev (rev (str_N (Z.abs_N z))) 0).

(** ** [datetime.date] and [datetime.datetime] (naive, as [utcnow] gives) *)

Record date := mkdate { d_year : N; d_month : N; d_day : N }.

Record datetime := mkdatetime {
  year : N; month : N; day : N;
  hour : N; minute : N; second : N; microsecond : N
}.

(** [t.date()]. *)
Definition datetime_date (t : datetime) : date :=
  mkdate (year t) (month t) (day t).

(** [d.isoformat()]: YYYY-MM-DD. *)
Definition date_isoformat (d : date) : pystr :=
  zfill 4 (str_N (d_year d)) ++ [45] ++ zfill 2 (str_N (d_month d)) ++
  [45] ++ zfill 2 (str_N (d_day d)).

(** [t.isoformat()]: YYYY-MM-DDTHH:MM:SS, with .ffffff when the microsecond
    is not zero. *)
Definition datetime_isoformat (t : datetime) : pystr :=
  date_isoformat (datetime_date t) ++ [84] ++
  zfill 2 (str_N (hour t)) ++ [58] ++ zfill 2 (str_N (minute t)) ++ [58] ++
  zfill 2 (str_N (second t)) ++
  (if microsecond t =? 0 then [] else 46 :: zfill 6 (str_N (microsecond t))).

(** Chronological order, field by field. *)
Fixpoint lex_ltb (a b : list N) : bool :=
  match a, b with
  | x :: a', y :: b' => (x <? y) || ((x =? y) && lex_ltb a' b')
  | [], _ :: _ => true
  | _, [] => false
  end.

Definition datetime_fields (t : datetime) : list N :=
  [year t; month t; day t; hour t; minute t; second t; microsecond t].

Definition datetime_ltb (a b : datetime) : bool :=
  lex_ltb (datetime_fields a) (datetime_fields b).

(** ** Python floats: binary64 *)

Definition prec : Z := 53.
Definition emax : Z := 1024.

(** An [int] as an exact (unrounded) number, the operand of a true division. *)
Definition int_to_SF (z : Z) : spec_float :=
  match z with
  | Z0 => S754_zero false
  | Zpos p => S754_finite false p 0
  | Zneg p => S754_finite true p 0
  end.

(** [float(z)]: the nearest binary64 number. *)
Definition float_of_int (z : Z) : spec_float :=
  binary_normalize prec emax z 0 false.

(** [a / b] on two [int]s: the correctly rounded quotient, or
    [ZeroDivisionError]. *)
Definition long_true_divide (a b : Z) : Result spec_float :=
  if (b =? 0)%Z then Raise (ZeroDivisionError (py "division by zero"))
  else Ok (SFdiv prec emax (int_to_SF a) (int_to_SF b)).

(** [x * n] for a float [x] and an [int] [n]. *)
Definition float_mul_int (x : spec_float) (n : Z) : spec_float :=
  SFmul prec emax x (float_of_int n).

(** The integer nearest to [n / d] for [d > 0], ties to the even one. *)
Definition round_half_even_div (n d : Z) : Z :=
  let q := (n / d)%Z in
  match (2 * (n mod d) ?= d)%Z with
  | Lt => q
  | Gt => (q + 1)%Z
  | Eq => if Z.even q then q else (q + 1)%Z
  end.

(** [round(x, ndigits)] for a float and [ndigits >= 0]: the exact value of
    [x] is rounded to a multiple [k / 10^ndigits], ties to even, and the
    result is the binary64 number nearest to that decimal. *)
Definition float_round (x : spec_float) (ndigits : N) : spec_float :=
  match x with
  | S754_finite s m e =>
      let scale := (10 ^ Z.of_N ndigits)%Z in
      let k :=
        if (0 <=? e)%Z then (Zpos m * 2 ^ e * scale)%Z
        else round_half_even_div (Zpos m * scale) (2 ^ (- e)) in
      if (k =? 0)%Z then S754_zero s
      else SFdiv prec emax (int_to_SF (if s then (- k)%Z else k))
                           (int_to_SF scale)
  | _ => x
  end.

(** A JSON number of the response: an [int] or a [float]. *)
Inductive pynum :=
| PyInt (z : Z)
| PyFloat (f : spec_float).

(** ** The tables of [database.py] *)

Module InsuranceClaims.
(** Class [InsuranceClaims], table [insurance_claims]. *)
Record t := mk {
  claim_id : pystr;
  policy_number : pystr;
  customer_name : pystr;
  claim_type : pystr;
  amount : pystr;
  date_submitted : option datetime;
  description : pystr;
  status : pystr;
  rejection_reason : option pystr;
  created_at : option datetime;
  updated_at : option datetime
}.
End InsuranceClaims.

Module CustomerInfo.
(** Class [CustomerInfo], table [customer_info]. *)
Record t := mk {
  customer_name : pystr;
  final_premium_amount : option pystr;
  addons_with_amount : option pystr
}.

Definition set_final_premium_amount (v : option pystr) (r : t) : t :=
  mk (customer_name r) v (addons_with_amount r).

Definition set_addons_with_amount (v : option pystr) (r : t) : t :=
  mk (customer_name r) (final_premium_amount r) v.
End CustomerInfo.

Module CustomerPolicies.
(** Class [CustomerPolicies], table [customer_policies]. *)
Record t := mk {
  customer_name : pystr;
  vehicle_insurance : option pystr;
  medical_insurance : option pystr;
  life_insurance : option pystr;
  travel_insurance : option pystr;
  home_insurance : option pystr;
  vehicle_policy_numbers : option pystr;
  medical_policy_numbers : option pystr;
  life_policy_numbers : option pystr;
  travel_policy_numbers : option pystr;
  home_policy_numbers : option pystr;
  last_policy_renewal : option date;
  customer_since : date;
  age : option pystr;
  location : option pystr;
  vehicle_addons : option pystr;
  medical_addons : option pystr;
  home_addons : option pystr;
  travel_addons : option pystr;
  life_addons : option pystr;
  created_at : option datetime;
  updated_at : option datetime
}.

(** Assignment to one attribute of a loaded object. *)
Definition set_customer_name (v : pystr) (r : t) : t :=
  mk v (vehicle_insurance r) (medical_insurance r) (life_insurance r)
    (travel_insurance r) (home_insurance r) (vehicle_policy_numbers r)
    (medical_policy_numbers r) (life_policy_numbers r)
    (travel_policy_numbers r) (home_policy_numbers r)
    (last_policy_renewal r) (customer_since r) (age r) (location r)
    (vehicle_addons r) (medical_addons r) (home_addons r) (travel_addons r)
    (life_addons r) (created_at r) (updated_at r).

Definition set_vehicle_insurance (v : option pystr) (r : t) : t :=
  mk (customer_name r) v (medical_insurance r) (life_insurance r)
    (travel_insurance r) (home_insurance r) (vehicle_policy_numbers r)
    (medical_policy_numbers r) (life_policy_numbers r)
    (travel_policy_numbers r) (home_policy_numbers r)
    (last_policy_renewal r) (customer_since r) (age r) (location r)
    (vehicle_addons r) (medical_addons r) (home_addons r) (travel_addons r)
    (life_addons r) (created_at r) (updated_at r).

Definition set_medical_insurance (v : option pystr) (r : t) : t :=
  mk (customer_name r) (vehicle_insurance r) v (life_insurance r)
    (travel_insurance r) (home_insurance r) (vehicle_policy_numbers r)
    (medical_policy_numbers r) (life_policy_numbers r)
    (travel_policy_numbers r) (home_policy_numbers r)
    (last_policy_renewal r) (customer_since r) (age r) (location r)
    (vehicle_addons r) (medical_addons r) (home_addons r) (travel_addons r)
    (life_addons r) (created_at r) (updated_at r).

Definition set_life_insurance (v : option pystr) (r : t) : t :=
  mk (customer_name r) (vehicle_insurance r) (medical_insurance r) v
    (travel_insurance r) (home_insurance r) (vehicle_policy_numbers r)
    (medical_policy_numbers r) (life_policy_numbers r)
    (travel_policy_numbers r) (home_policy_numbers r)
    (last_policy_renewal r) (customer_since r) (age r) (location r)
    (vehicle_addons r) (medical_addons r) (home_addons r) (travel_addons r)
    (life_addons r) (created_at r) (updated_at r).

Definition set_travel_insurance (v : option pystr) (r : t) : t :=
  mk (customer_name r) (vehicle_insurance r) (medical_insurance r)
    (life_insurance r) v (home_insurance r) (vehicle_policy_numbers r)
    (medical_policy_numbers r) (life_policy_numbers r)
    (travel_policy_numbers r) (home_policy_numbers r)
    (last_policy_renewal r) (customer_since r) (age r) (location r)
    (vehicle_addons r) (medical_addons r) (home_addons r) (travel_addons r)
    (life_addons r) (created_at r) (updated_at r).

Definition set_home_insurance (v : option pystr) (r : t) : t :=
  mk (customer_name r) (vehicle_insurance r) (medical_insurance r)
    (life_insurance r) (travel_insurance r) v (vehicle_policy_numbers r)
    (medical_policy_numbers r) (life_policy_numbers r)
    (travel_policy_numbers r) (home_policy_numbers r)
    (last_policy_renewal r) (customer_since r) (age r) (location r)
    (vehicle_addons r) (medical_addons r) (home_addons r) (travel_addons r)
    (life_addons r) (created_at r) (updated_at r).

Definition set_vehicle_policy_numbers (v : option pystr) (r : t) : t :=
  mk (customer_name r) (vehicle_insurance r) (medical_insurance r)
    (life_insurance r) (travel_insurance r) (home_insurance r) v
    (medical_policy_numbers r) (life_policy_numbers r)
    (travel_policy_numbers r) (home_policy_numbers r)
    (last_policy_renewal r) (customer_since r) (age r) (location r)
    (vehicle_addons r) (medical_addons r) (home_addons r) (travel_addons r)
    (life_addons r) (created_at r) (updated_at r).

Definition set_medical_policy_numbers (v : option pystr) (r : t) : t :=
  mk (customer_name r) (vehicle_insurance r) (medical_insurance r)
    (life_insurance r) (travel_insurance r) (home_insurance r)
    (vehicle_policy_numbers r) v (life_policy_numbers r)
    (travel_policy_numbers r) (home_policy_numbers r)
    (last_policy_renewal r) (customer_since r) (age r) (location r)
    (vehicle_addons r) (medical_addons r) (home_addons r) (travel_addons r)
    (life_addons r) (created_at r) (updated_at r).

Definition set_life_policy_numbers (v : option pystr) (r : t) : t :=
  mk (customer_name r) (vehicle_insurance r) (medical_insurance r)
    (life_insurance r) (travel_insurance r) (home_insurance r)
    (vehicle_policy_numbers r) (medical_policy_numbers r) v
    (travel_policy_numbers r) (home_policy_numbers r)
    (last_policy_renewal r) (customer_since r) (age r) (location r)
    (vehicle_addons r) (medical_addons r) (home_addons r) (travel_addons r)
    (life_addons r) (created_at r) (updated_at r).

Definition set_travel_policy_numbers (v : option pystr) (r : t) : t :=
  mk (customer_name r) (vehicle_insurance r) (medical_insurance r)
    (life_insurance r) (travel_insurance r) (home_insurance r)
    (vehicle_policy_numbers r) (medical_policy_numbers r)
    (life_policy_numbers r) v (home_policy_numbers r)
    (last_policy_renewal r) (customer_since r) (age r) (location r)
    (vehicle_addons r) (medical_addons r) (home_addons r) (travel_addons r)
    (life_addons r) (created_at r) (updated_at r).

Definition set_home_policy_numbers (v : option pystr) (r : t) : t :=
  mk (customer_name r) (vehicle_insurance r) (medical_insurance r)
    (life_insurance r) (travel_insurance r) (home_insurance r)
    (vehicle_policy_numbers r) (medical_policy_numbers r)
    (life_policy_numbers r) (travel_policy_numbers r) v
    (last_policy_renewal r) (customer_since r) (age r) (location r)
    (vehicle_addons r) (medical_addons r) (home_addons r) (travel_addons r)
    (life_addons r) (created_at r) (updated_at r).

Definition set_age (v : option pystr) (r : t) : t :=
  mk (customer_name r) (vehicle_insurance r) (medical_insurance r)
    (life_insurance r) (travel_insurance r) (home_insurance r)
    (vehicle_policy_numbers r) (medical_policy_numbers r)
    (life_policy_numbers r) (travel_policy_numbers r)
    (home_policy_numbers r) (last_policy_renewal r) (customer_since r) v
    (location r) (vehicle_addons r) (medical_addons r) (home_addons r)
    (travel_addons r) (life_addons r) (created_at r) (updated_at r).

Definition set_location (v : option pystr) (r : t) : t :=
  mk (customer_name r) (vehicle_insurance r) (medical_insurance r)
    (life_insurance r) (travel_insurance r) (home_insurance r)
    (vehicle_policy_numbers r) (medical_policy_numbers r)
    (life_policy_numbers r) (travel_policy_numbers r)
    (home_policy_numbers r) (last_policy_renewal r) (customer_since r)
    (age r) v (vehicle_addons r) (medical_addons r) (home_addons r)
    (travel_addons r) (life_addons r) (created_at r) (updated_at r).

Definition set_vehicle_addons (v : option pystr) (r : t) : t :=
  mk (customer_name r) (vehicle_insurance r) (medical_insurance r)
    (life_insurance r) (travel_insurance r) (home_insurance r)
    (vehicle_policy_numbers r) (medical_policy_numbers r)
    (life_policy_numbers r) (travel_policy_numbers r)
    (home_policy_numbers r) (last_policy_renewal r) (customer_since r)
    (age r) (location r) v (medical_addons r) (home_addons r)
    (travel_addons r) (life_addons r) (created_at r) (updated_at r).

Definition set_medical_addons (v : option pystr) (r : t) : t :=
  mk (customer_name r) (vehicle_insurance r) (medical_insurance r)
    (life_insurance r) (travel_insurance r) (home_insurance r)
    (vehicle_policy_numbers r) (medical_policy_numbers r)
    (life_policy_numbers r) (travel_policy_numbers r)
    (home_policy_numbers r) (last_policy_renewal r) (customer_since r)
    (age r) (location r) (vehicle_addons r) v (home_addons r)
    (travel_addons r) (life_addons r) (created_at r) (updated_at r).

Definition set_home_addons (v : option pystr) (r : t) : t :=
  mk (customer_name r) (vehicle_insurance r) (medical_insurance r)
    (life_insurance r) (travel_insurance r) (home_insurance r)
    (vehicle_policy_numbers r) (medical_policy_numbers r)
    (life_policy_numbers r) (travel_policy_numbers r)
    (home_policy_numbers r) (last_policy_renewal r) (customer_since r)
    (age r) (location r) (vehicle_addons r) (medical_addons r) v
    (travel_addons r) (life_addons r) (created_at r) (updated_at r).

Definition set_travel_addons (v : option pystr) (r : t) : t :=
  mk (customer_name r) (vehicle_insurance r) (medical_insurance r)
    (life_insurance r) (travel_insurance r) (home_insurance r)
    (vehicle_policy_numbers r) (medical_policy_numbers r)
    (life_policy_numbers r) (travel_policy_numbers r)
    (home_policy_numbers r) (last_policy_renewal r) (customer_since r)
    (age r) (location r) (vehicle_addons r) (medical_addons r)
    (home_addons r) v (life_addons r) (created_at r) (updated_at r).

Definition set_life_addons (v : option pystr) (r : t) : t :=
  mk (customer_name r) (vehicle_insurance r) (medical_insurance r)
    (life_insurance r) (travel_insurance r) (home_insurance r)
    (vehicle_policy_numbers r) (medical_policy_numbers r)
    (life_policy_numbers r) (travel_policy_numbers r)
    (home_policy_numbers r) (last_policy_renewal r) (customer_since r)
    (age r) (location r) (vehicle_addons r) (medical_addons r)
    (home_addons r) (travel_addons r) v (created_at r) (updated_at r).

Definition set_created_at (v : option datetime) (r : t) : t :=
  mk (customer_name r) (vehicle_insurance r) (medical_insurance r)
    (life_insurance r) (travel_insurance r) (home_insurance r)
    (vehicle_policy_numbers r) (medical_policy_numbers r)
    (life_policy_numbers r) (travel_policy_numbers r)
    (home_policy_numbers r) (last_policy_renewal r) (customer_since r)
    (age r) (location r) (vehicle_addons r) (medical_addons r)
    (home_addons r) (travel_addons r) (life_addons r) v (updated_at r).

Definition set_updated_at (v : option datetime) (r : t) : t :=
  mk (customer_name r) (vehicle_insurance r) (medical_insurance r)
    (life_insurance r) (travel_insurance r) (home_insurance r)
    (vehicle_policy_numbers r) (medical_policy_numbers r)
    (life_policy_numbers r) (travel_policy_numbers r)
    (home_policy_numbers r) (last_policy_renewal r) (customer_since r)
    (age r) (location r) (vehicle_addons r) (medical_addons r)
    (home_addons r) (travel_addons r) (life_addons r) (created_at r) v.

(** The columns an update request can name, each with its attribute
    reader and writer. *)
Definition text_columns
    : list (pystr * ((t -> option pystr) * (option pystr -> t -> t))) :=
  [(py "vehicle_insurance", (vehicle_insurance, set_vehicle_insurance));
   (py "medical_insurance", (medical_insurance, set_medical_insurance));
   (py "life_insurance", (life_insurance, set_life_insurance));
   (py "travel_insurance", (travel_insurance, set_travel_insurance));
   (py "home_insurance", (home_insurance, set_home_insurance));
   (py "vehicle_policy_numbers", (vehicle_policy_numbers, set_vehicle_policy_numbers));
   (py "medical_policy_numbers", (medical_policy_numbers, set_medical_policy_numbers));
   (py "life_policy_numbers", (life_policy_numbers, set_life_policy_numbers));
   (py "travel_policy_numbers", (travel_policy_numbers, set_travel_policy_numbers));
   (py "home_policy_numbers", (home_policy_numbers, set_home_policy_numbers));
   (py "age", (age, set_age));
   (py "location", (location, set_location));
   (py "vehicle_addons", (vehicle_addons, set_vehicle_addons));
   (py "medical_addons", (medical_addons, set_medical_addons));
   (py "home_addons", (home_addons, set_home_addons));
   (py "travel_addons", (travel_addons, set_travel_addons));
   (py "life_addons", (life_addons, set_life_addons))].

Definition column (field : pystr)
    : option ((t -> option pystr) * (option pystr -> t -> t)) :=
  snd <$> List.find (fun c => bool_decide (fst c = field)) text_columns.

(** [setattr(obj, field, value)] for a [field] and a [value] taken from the
    dictionary of a [CustomerPolicyUpdateRequest]: a string or [None] under
    the name of one of its fields. *)
Definition setattr (r : t) (field : pystr) (value : option pystr) : t :=
  match column field with
  | Some (_, set) => set value r
  | None =>
      match value with
      | Some v =>
          if bool_decide (field = py "customer_name")
          then set_customer_name v r else r
      | None => r
      end
  end.
End CustomerPolicies.

Record Database := {
  insurance_claims : gmap pystr InsuranceClaims.t;    (* by claim_id *)
  customer_policies : gmap pystr CustomerPolicies.t;  (* by customer_name *)
  customer_info : gmap pystr CustomerInfo.t           (* by customer_name *)
}.

(** ** The request and response models of [main.py] *)

Module CustomerPolicyResponse.
Record t := mk {
  customer_name : pystr;
  vehicle_insurance : option pystr;
  medical_insurance : option pystr;
  life_insurance : option pystr;
  travel_insurance : option pystr;
  home_insurance : option pystr;
  vehicle_policy_numbers : option pystr;
  medical_policy_numbers : option pystr;
  life_policy_numbers : option pystr;
  travel_policy_numbers : option pystr;
  home_policy_numbers : option pystr;
  last_policy_renewal : option pystr;
  customer_since : pystr;
  age : option pystr;
  location : option pystr;
  vehicle_addons : option pystr;
  medical_addons : option pystr;
  home_addons : option pystr;
  travel_addons : option pystr;
  life_addons : option pystr
}.
End CustomerPolicyResponse.

Module ClaimResponse.
Record t := mk {
  claim_id : pystr;
  policy_number : pystr;
  claim_type : pystr;
  amount : pystr;
  date_submitted : pystr;
  description : pystr;
  status : pystr;
  rejection_reason : option pystr
}.
End ClaimResponse.

Module CustomerInfoUpdateRequest.
Record t := mk {
  customer_name : pystr;
  final_premium_amount : option pystr;
  addons_with_amount : option pystr
}.
End CustomerInfoUpdateRequest.

(** A field of a request model with default [None]: left unset by the
    client, or set to a value that may be [null]. *)
Inductive supplied :=
| Unset
| Given (v : option pystr).

(** Attribute access on the model: an unset field reads as its default. *)
Definition value_of (f : supplied) : option pystr :=
  match f with
  | Unset => None
  | Given v => v
  end.

Module CustomerPolicyUpdateRequest.
Record t := mk {
  customer_name : pystr;
  vehicle_insurance : supplied;
  medical_insurance : supplied;
  life_insurance : supplied;
  travel_insurance : supplied;
  home_insurance : supplied;
  vehicle_policy_numbers : supplied;
  medical_policy_numbers : supplied;
  life_policy_numbers : supplied;
  travel_policy_numbers : supplied;
  home_policy_numbers : supplied;
  age : supplied;
  location : supplied;
  vehicle_addons : supplied;
  medical_addons : supplied;
  home_addons : supplied;
  travel_addons : supplied;
  life_addons : supplied
}.

(** The optional fields in declaration order. *)
Definition optional_fields : list (pystr * (t -> supplied)) :=
  [(py "vehicle_insurance", vehicle_insurance);
   (py "medical_insurance", medical_insurance);
   (py "life_insurance", life_insurance);
   (py "travel_insurance", travel_insurance);
   (py "home_insurance", home_insurance);
   (py "vehicle_policy_numbers", vehicle_policy_numbers);
   (py "medical_policy_numbers", medical_policy_numbers);
   (py "life_policy_numbers", life_policy_numbers);
   (py "travel_policy_numbers", travel_policy_numbers);
   (py "home_policy_numbers", home_policy_numbers);
   (py "age", age);
   (py "location", location);
   (py "vehicle_addons", vehicle_addons);
   (py "medical_addons", medical_addons);
   (py "home_addons", home_addons);
   (py "travel_addons", travel_addons);
   (py "life_addons", life_addons)].

Definition entry (r : t) (f : pystr * (t -> supplied))
    : list (pystr * option pystr) :=
  match snd f r with
  | Unset => []
  | Given v => [(fst f, v)]
  end.

(** [r.dict(exclude_unset=True).items()]: the fields the client set, in
    declaration order; [customer_name] is required, hence always set. *)
Definition dict_exclude_unset (r : t) : list (pystr * option pystr) :=
  (py "customer_name", Some (customer_name r))
    :: flat_map (entry r) optional_fields.
End CustomerPolicyUpdateRequest.

Module UpdateCustomerInfoRequest.
Record t := mk {
  customer_info : option CustomerInfoUpdateRequest.t;
  customer_policy : option CustomerPolicyUpdateRequest.t
}.
End UpdateCustomerInfoRequest.

Module ClaimsSummary.
(** The dictionary [claims_summary] of [get_customer_info]. *)
Record t := mk {
  total_claims : Z;
  approved_claims : Z;
  rejected_claims : Z;
  under_review_claims : Z;
  approval_rate : pynum;
  total_approved_amount : pystr;
  total_rejected_amount : pystr;
  last_claim_date : option pystr
}.
End ClaimsSummary.

Module CustomerInfoResponse.
Record t := mk {
  customer_policy : CustomerPolicyResponse.t;
  claims : list ClaimResponse.t;
  claims_summary : ClaimsSummary.t
}.
End CustomerInfoResponse.

Module CustomerSummary.
(** One entry of the list [results] of [search_customers]. *)
Record t := mk {
  customer_name : pystr;
  age : option pystr;
  location : option pystr;
  customer_since : pystr;
  last_policy_renewal : option pystr;
  active_policies : list pystr
}.
End CustomerSummary.

Module SearchResponse.
(** The dictionary [search_customers] returns; the key [search_term] is
    absent from the empty listing of line 290. *)
Record t := mk {
  search_term : option (option pystr);
  total : Z;
  customers : list CustomerSummary.t
}.
End SearchResponse.

Module UpdatedPolicy.
(** The dictionary [updated_info["customer_policy"]]: the keys of a
    [CustomerPolicyResponse] and [updated_at]. *)
Record t := mk {
  fields : CustomerPolicyResponse.t;
  updated_at : pystr
}.
End UpdatedPolicy.

Module UpdateResponse.
(** The dictionary [update_customer_info] returns; [updated_data] holds a
    key per sub-payload that was processed. *)
Record t := mk {
  message : pystr;
  updated_customer_info : option CustomerInfo.t;
  updated_customer_policy : option UpdatedPolicy.t;
  timestamp : pystr
}.
End UpdateResponse.

(** ** The environment of a request and the session *)

(** The store is the keyed-record store the handlers talk to through
    SQLAlchemy: a table is a finite map from primary key to row, a row comes
    back as it was written, names compare code point by code point, and
    every query, commit and refresh is one round trip that either answers or
    raises (a value the store refuses, one too long for its column say, is
    a commit that raises). *)

(** What a request takes from outside: the platform tables, the failures of
    the store (the [n]-th round trip of the request raises with the driver's
    message), the successive readings of [datetime.utcnow()] and the reading
    of [datetime.now()]. *)
Record Env := {
  platform : Platform;
  db_fault : nat -> option pystr;
  utcnow : nat -> datetime;
  now : datetime
}.

(** A [Session] of [SessionLocal] ([autocommit=False], [autoflush=False]):
    [store] holds the committed rows, [work] the session's objects (the
    committed rows with the changes not yet committed), [added] the primary
    keys of the [CustomerPolicies] objects added and not yet flushed. *)
Record Session := {
  store : Database;
  work : Database;
  added : list pystr;
  round_trips : nat;
  clock_reads : nat
}.

Definition with_customer_policies (t : gmap pystr CustomerPolicies.t)
    (db : Database) : Database :=
  {| insurance_claims := insurance_claims db;
     customer_policies := t;
     customer_info := customer_info db |}.

Definition with_customer_info (t : gmap pystr CustomerInfo.t)
    (db : Database) : Database :=
  {| insurance_claims := insurance_claims db;
     customer_policies := customer_policies db;
     customer_info := t |}.

(** ** The monad of handler code: state and exceptions *)

Definition M (A : Type) : Type := Env -> Session -> Result A * Session.

Definition ret {A} (a : A) : M A := fun _ s => (Ok a, s).

Definition bind {A B} (m : M A) (k : A -> M B) : M B :=
  fun env s =>
    match m env s with
    | (Ok a, s') => k a env s'
    | (Raise e, s') => (Raise e, s')
    end.

Definition raise {A} (e : exn) : M A := fun _ s => (Raise e, s).

(** [try: m  except Exception as e: h e]. *)
Definition try_except {A} (m : M A) (h : exn -> M A) : M A :=
  fun env s =>
    match m env s with
    | (Ok a, s') => (Ok a, s')
    | (Raise e, s') => h e env s'
    end.

Definition lift {A} (r : Result A) : M A := fun _ s => (r, s).

Definition ask : M Env := fun env s => (Ok env, s).

Definition get : M Session := fun _ s => (Ok s, s).

Definition put (s : Session) : M unit := fun _ _ => (Ok tt, s).

Declare Scope py_scope.
Delimit Scope py_scope with py.
Notation "x <- m ;; k" := (bind m (fun x => k))
  (at level 100, m at next level, right associativity) : py_scope.
Notation "m ;;; k" := (bind m (fun _ => k))
  (at level 100, right associativity) : py_scope.
Local Open Scope py_scope.

(** [for x in l: f x]. *)
Fixpoint for_each {A} (l : list A) (f : A -> M unit) : M unit :=
  match l with
  | [] => ret tt
  | x :: l' => f x ;;; for_each l' f
  end.

(** One round trip to the store: it counts, and raises when the store fails. *)
Definition round_trip : M unit :=
  env <- ask ;;
  s <- get ;;
  put {| store := store s; work := work s; added := added s;
         round_trips := S (round_trips s); clock_reads := clock_reads s |} ;;;
  match db_fault env (round_trips s) with
  | Some msg => raise (DBAPIError msg)
  | None => ret tt
  end.

(** [datetime.utcnow()]. *)
Definition datetime_utcnow : M datetime :=
  env <- ask ;;
  s <- get ;;
  put {| store := store s; work := work s; added := added s;
         round_trips := round_trips s; clock_reads := S (clock_reads s) |} ;;;
  ret (utcnow env (clock_reads s)).

(** A change to the objects of the session (not yet a change of the store). *)
Definition modify_work (f : Database -> Database) : M unit :=
  s <- get ;;
  put {| store := store s; work := f (work s); added := added s;
         round_trips := round_trips s; clock_reads := clock_reads s |}.

(** Assignments to the object loaded under a primary key. *)
Definition assign_CustomerInfo (name : pystr)
    (f : CustomerInfo.t -> CustomerInfo.t) : M unit :=
  modify_work (fun db => with_customer_info (alter f name (customer_info db)) db).

Definition assign_CustomerPolicies (name : pystr)
    (f : CustomerPolicies.t -> CustomerPolicies.t) : M unit :=
  modify_work
    (fun db => with_customer_policies (alter f name (customer_policies db)) db).

(** [db.add(obj)]. *)
Definition add_CustomerInfo (obj : CustomerInfo.t) : M unit :=
  modify_work
    (fun db =>
       with_customer_info
         (<[CustomerInfo.customer_name obj := obj]> (customer_info db)) db).

Definition add_CustomerPolicies (obj : CustomerPolicies.t) : M unit :=
  modify_work
    (fun db =>
       with_customer_policies
         (<[CustomerPolicies.customer_name obj := obj]> (customer_policies db))
         db) ;;;
  s <- get ;;
  put {| store := store s; work := work s;
         added := CustomerPolicies.customer_name obj :: added s;
         round_trips := round_trips s; clock_reads := clock_reads s |}.

(** The column defaults [default=datetime.utcnow] of [created_at] and
    [updated_at], evaluated when an added [CustomerPolicies] object is
    flushed (the constructor call of the handler passes neither column). *)
Definition insert_defaults (name : pystr) : M unit :=
  created <- datetime_utcnow ;;
  updated <- datetime_utcnow ;;
  assign_CustomerPolicies name
    (fun r =>
       CustomerPolicies.set_updated_at (Some updated)
         (CustomerPolicies.set_created_at (Some created) r)).

(** [db.commit()]: the added objects are flushed and the session's changes
    become the store's rows, unless the store fails, which raises and
    persists nothing. *)
Definition commit : M unit :=
  s <- get ;;
  for_each (rev (added s)) insert_defaults ;;;
  round_trip ;;;
  s <- get ;;
  put {| store := work s; work := work s; added := [];
         round_trips := round_trips s; clock_reads := clock_reads s |}.

(** [db.rollback()]: the session's uncommitted changes are dropped. *)
Definition rollback : M unit :=
  s <- get ;;
  put {| store := store s; work := store s; added := [];
         round_trips := round_trips s; clock_reads := clock_reads s |}.

(** [db.query(C).filter(C.customer_name == name).first()]. *)
Definition first_CustomerPolicies (name : pystr)
    : M (option CustomerPolicies.t) :=
  round_trip ;;;
  s <- get ;;
  ret (customer_policies (work s) !! name).

Definition first_CustomerInfo (name : pystr) : M (option CustomerInfo.t) :=
  round_trip ;;;
  s <- get ;;
  ret (customer_info (work s) !! name).

(** [db.refresh(obj)]: the row is read again from the store. *)
Definition refresh_CustomerPolicies (name : pystr) : M CustomerPolicies.t :=
  round_trip ;;;
  s <- get ;;
  match customer_policies (store s) !! name with
  | Some r => ret r
  | None => raise (DBAPIError (py "Could not refresh instance"))
  end.

Definition refresh_CustomerInfo (name : pystr) : M CustomerInfo.t :=
  round_trip ;;;
  s <- get ;;
  match customer_info (store s) !! name with
  | Some r => ret r
  | None => raise (DBAPIError (py "Could not refresh instance"))
  end.

(** The dependency [get_db] of [database.py]: a handler runs in a session of
    its own, closed when the request ends; what remains is the store. *)
Definition open_session (db : Database) : Session :=
  {| store := db; work := db; added := []; round_trips := 0; clock_reads := 0 |}.

Definition get_db {A} (handler : M A) (env : Env) (db : Database)
    : Result A * Database :=
  let '(r, s) := handler env (open_session db) in
  (r, store s).

(** ** [get_customer_info] (main.py, lines 144-256) *)

(** [ORDER BY date_submitted DESC]; the store sorts [NULL] as the lowest
    value. *)
Definition submitted_before (a b : InsuranceClaims.t) : bool :=
  match InsuranceClaims.date_submitted a, InsuranceClaims.date_submitted b with
  | None, Some _ => true
  | Some x, Some y => datetime_ltb x y
  | _, None => false
  end.

Fixpoint insert_desc (c : InsuranceClaims.t) (l : list InsuranceClaims.t)
    : list InsuranceClaims.t :=
  match l with
  | [] => [c]
  | d :: l' => if submitted_before d c then c :: l else d :: insert_desc c l'
  end.

Definition order_by_date_submitted_desc (l : list InsuranceClaims.t)
    : list InsuranceClaims.t :=
  foldr insert_desc [] l.

(** The rows of a table, as a query without [ORDER BY] returns them. *)
Definition rows {A} (t : gmap pystr A) : list A := (map_to_list t).*2.

(** Lines 174-176: the claims of a customer, most recent first. *)
Definition claims_of (customer_name : pystr) : M (list InsuranceClaims.t) :=
  round_trip ;;;
  s <- get ;;
  ret (order_by_date_submitted_desc
         (filter (fun c => InsuranceClaims.customer_name c = customer_name)
                 (rows (insurance_claims (work s))))).

(** Lines 181-190. *)
Definition claim_response (claim : InsuranceClaims.t) : ClaimResponse.t :=
  ClaimResponse.mk
    (InsuranceClaims.claim_id claim)
    (InsuranceClaims.policy_number claim)
    (InsuranceClaims.claim_type claim)
    (InsuranceClaims.amount claim)
    (match InsuranceClaims.date_submitted claim with
     | Some d => datetime_isoformat d
     | None => []
     end)
    (InsuranceClaims.description claim)
    (InsuranceClaims.status claim)
    (InsuranceClaims.rejection_reason claim).

(** Lines 203 and 208: the amount without rupee signs, question marks and
    commas, stripped. *)
Definition amount_str (claim : InsuranceClaims.t) : pystr :=
  strip (replace (py ",") []
           (replace (py "?") []
              (replace RUPEE [] (InsuranceClaims.amount claim)))).

(** The loops of lines 202-205 and 207-210, from the running total. *)
Fixpoint sum_amounts (pf : Platform) (claims : list InsuranceClaims.t)
    (total : Z) : Result Z :=
  match claims with
  | [] => Ok total
  | claim :: rest =>
      if isdigit pf (amount_str claim) then
        match int pf (amount_str claim) with
        | Ok n => sum_amounts pf rest (total + n)
        | Raise e => Raise e
        end
      else sum_amounts pf rest total
  end.

(** Lines 224-245, and the same keys of lines 490-509. *)
Definition policy_response (p : CustomerPolicies.t) : CustomerPolicyResponse.t :=
  CustomerPolicyResponse.mk
    (CustomerPolicies.customer_name p)
    (CustomerPolicies.vehicle_insurance p)
    (CustomerPolicies.medical_insurance p)
    (CustomerPolicies.life_insurance p)
    (CustomerPolicies.travel_insurance p)
    (CustomerPolicies.home_insurance p)
    (CustomerPolicies.vehicle_policy_numbers p)
    (CustomerPolicies.medical_policy_numbers p)
    (CustomerPolicies.life_policy_numbers p)
    (CustomerPolicies.travel_policy_numbers p)
    (CustomerPolicies.home_policy_numbers p)
    (date_isoformat <$> CustomerPolicies.last_policy_renewal p)
    (date_isoformat (CustomerPolicies.customer_since p))
    (CustomerPolicies.age p)
    (CustomerPolicies.location p)
    (CustomerPolicies.vehicle_addons p)
    (CustomerPolicies.medical_addons p)
    (CustomerPolicies.home_addons p)
    (CustomerPolicies.travel_addons p)
    (CustomerPolicies.life_addons p).

Definition none_has_no_isoformat : exn :=
  AttributeError (py "'NoneType' object has no attribute 'isoformat'").

(** Line 217. *)
Definition approval_rate_of (approved total_claims : Z) : Result pynum :=
  if (0 <? total_claims)%Z then
    match long_true_divide approved total_claims with
    | Ok q => Ok (PyFloat (float_round (float_mul_int q 100) 2))
    | Raise e => Raise e
    end
  else Ok (PyInt 0).

(** The body of the [try] block, lines 162-251. *)
Definition get_customer_info_body (customer_name : pystr)
    : M CustomerInfoResponse.t :=
  customer_policy <- first_CustomerPolicies customer_name ;;
  match customer_policy with
  | None =>
      raise (HTTPException 404
               (py "Customer '" ++ customer_name ++
                py "' not found in customer policies"))
  | Some customer_policy =>
      claims <- claims_of customer_name ;;
      let claims_list := claim_response <$> claims in
      let total_claims := Z.of_nat (length claims) in
      let approved_claims :=
        filter (fun c => InsuranceClaims.status c = py "APPROVED") claims in
      let rejected_claims :=
        filter (fun c => InsuranceClaims.status c = py "REJECTED") claims in
      let under_review_claims :=
        filter (fun c => InsuranceClaims.status c = py "UNDER_REVIEW") claims in
      env <- ask ;;
      total_approved_amount <-
        lift (sum_amounts (platform env) approved_claims 0) ;;
      total_rejected_amount <-
        lift (sum_amounts (platform env) rejected_claims 0) ;;
      approval_rate <-
        lift (approval_rate_of (Z.of_nat (length approved_claims)) total_claims) ;;
      last_claim_date <-
        match claims with
        | [] => ret None
        | claim :: _ =>
            match InsuranceClaims.date_submitted claim with
            | Some d => ret (Some (datetime_isoformat d))
            | None => raise none_has_no_isoformat
            end
        end ;;
      ret (CustomerInfoResponse.mk
             (policy_response customer_policy)
             claims_list
             (ClaimsSummary.mk
                total_claims
                (Z.of_nat (length approved_claims))
                (Z.of_nat (length rejected_claims))
                (Z.of_nat (length under_review_claims))
                approval_rate
                (format_comma total_approved_amount)
                (format_comma total_rejected_amount)
                last_claim_date))
  end.

(** [except HTTPException: raise], [except Exception as e: raise
    HTTPException(500, ...)]. *)
Definition reraise (e : exn) : exn :=
  match e with
  | HTTPException _ _ => e
  | _ => HTTPException 500 (py "Internal server error: " ++ str_exn e)
  end.

Definition get_customer_info (customer_name : pystr)
    : M CustomerInfoResponse.t :=
  try_except (get_customer_info_body customer_name)
             (fun e => raise (reraise e)).

(** ** [search_customers] (main.py, lines 258-321) *)

(** The [LIKE] operator of the store, a SQL Server (database.py, line 20),
    without [ESCAPE].  In a pattern [%] (37) stands for any run of
    characters, [_] (95) for any one character, a set in brackets for one
    character of the set, and any other character for itself. *)
Inductive like_token :=
| any_string
| any_char
| one_of (set : pystr)
| literal (c : N).

(** The pattern as a list of tokens; [set] holds, last first, the characters
    read since a [[] (91) that is still open.  A set ends at the first []]
    (93), and a pattern whose last [[] is never closed is no pattern: it
    matches nothing. *)
Fixpoint like_tokens (pattern : pystr) (set : option pystr)
    : option (list like_token) :=
  match pattern, set with
  | [], None => Some []
  | [], Some _ => None
  | c :: pattern', Some body =>
      if c =? 93 then cons (one_of (rev body)) <$> like_tokens pattern' None
      else like_tokens pattern' (Some (c :: body))
  | c :: pattern', None =>
      if c =? 91 then like_tokens pattern' (Some [])
      else
        cons (if c =? 37 then any_string
              else if c =? 95 then any_char
              else literal c)
          <$> like_tokens pattern' None
  end.

(** Membership in a set: [lo-hi] (45 is the hyphen) is a range, in the order
    of the collation; a hyphen that is first or last stands for itself. *)
Fixpoint in_set (pf : Platform) (set : pystr) (c : N) : bool :=
  match set with
  | [] => false
  | lo :: rest =>
      match rest with
      | dash :: hi :: rest' =>
          if dash =? 45 then sql_between pf lo c hi || in_set pf rest' c
          else (lo =? c) || in_set pf rest c
      | _ => (lo =? c) || in_set pf rest c
      end
  end.

(** A set that begins with [^] (94) matches the characters outside it. *)
Definition matches_set (pf : Platform) (set : pystr) (c : N) : bool :=
  match set with
  | caret :: set' =>
      if caret =? 94 then negb (in_set pf set' c) else in_set pf set c
  | [] => false
  end.

Fixpoint like_match (pf : Platform) (tokens : list like_token)
    : pystr -> bool :=
  match tokens with
  | [] => fun s => match s with [] => true | _ :: _ => false end
  | any_string :: tokens' =>
      fix any (s : pystr) : bool :=
        like_match pf tokens' s ||
        match s with
        | [] => false
        | _ :: s' => any s'
        end
  | token :: tokens' =>
      fun s =>
        match s with
        | [] => false
        | d :: s' =>
            match token with
            | any_string | any_char => true
            | one_of set => matches_set pf set d
            | literal c => c =? d
            end && like_match pf tokens' s'
        end
  end.

Definition like (pf : Platform) (pattern s : pystr) : bool :=
  match like_tokens pattern None with
  | Some tokens => like_match pf tokens s
  | None => false
  end.

(** [LOWER] of the store on one code point: the ASCII capitals become small
    letters, the other ASCII characters stay, the rest is the collation's. *)
Definition LOWER (pf : Platform) (c : N) : N :=
  if c <? 128 then
    if (65 <=? c) && (c <=? 90) then c + 32 else c
  else sql_lower pf c.

(** [column.ilike(pattern)]: [lower(column) LIKE lower(pattern)]. *)
Definition ilike (pf : Platform) (pattern s : pystr) : bool :=
  like pf (LOWER pf <$> pattern) (LOWER pf <$> s).

(** Lines 275-281: [name_filter] is [Some name] when line 279 was run. *)
Definition all_CustomerPolicies (name_filter : option pystr)
    : M (list CustomerPolicies.t) :=
  round_trip ;;;
  env <- ask ;;
  s <- get ;;
  let all := rows (customer_policies (work s)) in
  ret (match name_filter with
       | Some name =>
           List.filter
             (fun c => ilike (platform env) (py "%" ++ name ++ py "%")
                             (CustomerPolicies.customer_name c))
             all
       | None => all
       end).

(** Lines 301-309. *)
Definition active_policies (customer : CustomerPolicies.t) : list pystr :=
  fst <$>
    List.filter (fun pv => bool_decide (snd pv <> None))
      [(py "vehicle", CustomerPolicies.vehicle_insurance customer);
       (py "medical", CustomerPolicies.medical_insurance customer);
       (py "life", CustomerPolicies.life_insurance customer);
       (py "travel", CustomerPolicies.travel_insurance customer);
       (py "home", CustomerPolicies.home_insurance customer)].

(** Lines 295-310. *)
Definition customer_summary (customer : CustomerPolicies.t) : CustomerSummary.t :=
  CustomerSummary.mk
    (CustomerPolicies.customer_name customer)
    (CustomerPolicies.age customer)
    (CustomerPolicies.location customer)
    (date_isoformat (CustomerPolicies.customer_since customer))
    (date_isoformat <$> CustomerPolicies.last_policy_renewal customer)
    (active_policies customer).

Definition search_customers_body (name : option pystr) : M SearchResponse.t :=
  customers <- all_CustomerPolicies (if truthy name then name else None) ;;
  match customers with
  | [] =>
      if truthy name then
        raise (HTTPException 404
                 (py "No customers found with name containing '" ++
                  default [] name ++ py "'"))
      else ret (SearchResponse.mk None 0 [])
  | _ :: _ =>
      let results := customer_summary <$> customers in
      ret (SearchResponse.mk (Some name) (Z.of_nat (length results)) results)
  end.

Definition search_customers (name : option pystr) : M SearchResponse.t :=
  try_except (search_customers_body name) (fun e => raise (reraise e)).

(** ** [update_customer_info] (main.py, lines 389-530) *)

(** Lines 411-442: the [customer_info] sub-payload. *)
Definition update_customer_info_part
    (customer_info_data : CustomerInfoUpdateRequest.t) : M CustomerInfo.t :=
  let name := CustomerInfoUpdateRequest.customer_name customer_info_data in
  customer_info <- first_CustomerInfo name ;;
  match customer_info with
  | Some _ =>
      match CustomerInfoUpdateRequest.final_premium_amount customer_info_data with
      | Some v =>
          assign_CustomerInfo name
            (CustomerInfo.set_final_premium_amount (Some (strip v)))
      | None => ret tt
      end ;;;
      assign_CustomerInfo name
        (CustomerInfo.set_addons_with_amount
           (CustomerInfoUpdateRequest.addons_with_amount customer_info_data))
  | None =>
      add_CustomerInfo
        (CustomerInfo.mk name
           (if truthy (CustomerInfoUpdateRequest.final_premium_amount
                         customer_info_data)
            then strip <$> CustomerInfoUpdateRequest.final_premium_amount
                             customer_info_data
            else None)
           (CustomerInfoUpdateRequest.addons_with_amount customer_info_data))
  end ;;;
  commit ;;;
  refresh_CustomerInfo name.

(** Lines 455-457: one turn of the loop over the dictionary's items. *)
Definition update_field (name : pystr) (item : pystr * option pystr) : M unit :=
  if negb (bool_decide (fst item = py "customer_name")) &&
     bool_decide (snd item <> None)
  then assign_CustomerPolicies name
         (fun r => CustomerPolicies.setattr r (fst item) (snd item))
  else ret tt.

(** Lines 463-483: the constructor call of the create path. *)
Definition new_CustomerPolicies (d : CustomerPolicyUpdateRequest.t)
    (today : date) : CustomerPolicies.t :=
  CustomerPolicies.mk
    (CustomerPolicyUpdateRequest.customer_name d)
    (value_of (CustomerPolicyUpdateRequest.vehicle_insurance d))
    (value_of (CustomerPolicyUpdateRequest.medical_insurance d))
    (value_of (CustomerPolicyUpdateRequest.life_insurance d))
    (value_of (CustomerPolicyUpdateRequest.travel_insurance d))
    (value_of (CustomerPolicyUpdateRequest.home_insurance d))
    (value_of (CustomerPolicyUpdateRequest.vehicle_policy_numbers d))
    (value_of (CustomerPolicyUpdateRequest.medical_policy_numbers d))
    (value_of (CustomerPolicyUpdateRequest.life_policy_numbers d))
    (value_of (CustomerPolicyUpdateRequest.travel_policy_numbers d))
    (value_of (CustomerPolicyUpdateRequest.home_policy_numbers d))
    None
    today
    (value_of (CustomerPolicyUpdateRequest.age d))
    (value_of (CustomerPolicyUpdateRequest.location d))
    (value_of (CustomerPolicyUpdateRequest.vehicle_addons d))
    (value_of (CustomerPolicyUpdateRequest.medical_addons d))
    (value_of (CustomerPolicyUpdateRequest.home_addons d))
    (value_of (CustomerPolicyUpdateRequest.travel_addons d))
    (value_of (CustomerPolicyUpdateRequest.life_addons d))
    None
    None.

(** Lines 446-511: the [customer_policy] sub-payload. *)
Definition update_customer_policy_part
    (customer_policy_data : CustomerPolicyUpdateRequest.t) : M UpdatedPolicy.t :=
  let name := CustomerPolicyUpdateRequest.customer_name customer_policy_data in
  customer_policy <- first_CustomerPolicies name ;;
  match customer_policy with
  | Some _ =>
      for_each
        (CustomerPolicyUpdateRequest.dict_exclude_unset customer_policy_data)
        (update_field name) ;;;
      t <- datetime_utcnow ;;
      assign_CustomerPolicies name (CustomerPolicies.set_updated_at (Some t))
  | None =>
      t <- datetime_utcnow ;;
      add_CustomerPolicies
        (new_CustomerPolicies customer_policy_data (datetime_date t))
  end ;;;
  commit ;;;
  customer_policy <- refresh_CustomerPolicies name ;;
  match CustomerPolicies.updated_at customer_policy with
  | Some u =>
      ret (UpdatedPolicy.mk (policy_response customer_policy)
                            (datetime_isoformat u))
  | None => raise none_has_no_isoformat
  end.

(** A sub-payload that may be absent: lines 410 and 445. *)
Definition if_present {A B} (o : option A) (f : A -> M B) : M (option B) :=
  match o with
  | Some a => b <- f a ;; ret (Some b)
  | None => ret None
  end.

(** The body of the [try] block, lines 407-523. *)
Definition update_customer_info_body (update_request : UpdateCustomerInfoRequest.t)
    : M UpdateResponse.t :=
  info <- if_present (UpdateCustomerInfoRequest.customer_info update_request)
                     update_customer_info_part ;;
  policy <- if_present (UpdateCustomerInfoRequest.customer_policy update_request)
                       update_customer_policy_part ;;
  match info, policy with
  | None, None =>
      raise (HTTPException 400
               (py "No update data provided. Please provide either customer_info or customer_policy data."))
  | _, _ =>
      env <- ask ;;
      ret (UpdateResponse.mk
             (py "Customer information updated successfully")
             info policy
             (datetime_isoformat (now env)))
  end.

(** Lines 525-530: both handlers roll back, then raise. *)
Definition update_customer_info (update_request : UpdateCustomerInfoRequest.t)
    : M UpdateResponse.t :=
  try_except (update_customer_info_body update_request)
             (fun e => rollback ;;; raise (reraise e)).

(** ** [get_simple_customer_info] (main.py, lines 532-570) *)

Module SimpleCustomerInfoResponse.
Record t := mk {
  customer_name : pystr;
  final_premium_amount : option pystr;
  addons_with_amount : option pystr
}.
End SimpleCustomerInfoResponse.

(** Lines 561-565. *)
Definition simple_response (customer_info : CustomerInfo.t)
    : SimpleCustomerInfoResponse.t :=
  SimpleCustomerInfoResponse.mk
    (CustomerInfo.customer_name customer_info)
    (CustomerInfo.final_premium_amount customer_info)
    (CustomerInfo.addons_with_amount customer_info).

(** The body of the [try] block, lines 551-565. *)
Definition get_simple_customer_info_body (customer_name : pystr)
    : M SimpleCustomerInfoResponse.t :=
  customer_info <- first_CustomerInfo customer_name ;;
  match customer_info with
  | None =>
      raise (HTTPException 404
               (py "Customer '" ++ customer_name ++
                py "' not found in customer info"))
  | Some customer_info => ret (simple_response customer_info)
  end.

Definition get_simple_customer_info (customer_name : pystr)
    : M SimpleCustomerInfoResponse.t :=
  try_except (get_simple_customer_info_body customer_name)
             (fun e => raise (reraise e)).

(** ** [health_check] (main.py, lines 346-387) *)

Module HealthStats.
Record t := mk {
  total_customers : Z;
  total_claims : Z
}.
End HealthStats.

Module HealthDetails.
(** The dictionary [details]; the key [port] is absent from the unhealthy
    answer. *)
Record t := mk {
  api_version : pystr;
  environment : pystr;
  port : option pystr
}.
End HealthDetails.

Module HealthResponse.
(** The dictionary [health_check] returns: [stats] is a key of the healthy
    answer, [error] one of the unhealthy answer. *)
Record t := mk {
  status : pystr;
  timestamp : pystr;
  database : pystr;
  stats : option HealthStats.t;
  error : option pystr;
  details : HealthDetails.t
}.
End HealthResponse.

(** [os.getenv(key, default)] on the environment of the process. *)
Definition os_getenv (environ : gmap pystr pystr) (key fallback : pystr)
    : pystr :=
  default fallback (environ !! key).

(** [db.execute(text("SELECT 1"))]: a round trip whose answer is dropped. *)
Definition execute_select_1 : M unit := round_trip.

(** [db.query(C).count()]. *)
Definition count_CustomerPolicies : M Z :=
  round_trip ;;;
  s <- get ;;
  ret (Z.of_nat (size (customer_policies (work s)))).

Definition count_InsuranceClaims : M Z :=
  round_trip ;;;
  s <- get ;;
  ret (Z.of_nat (size (insurance_claims (work s)))).

(** [logger.error(msg)]: the record goes to the handlers of the logging
    module, outside the store and the response. *)
Definition logger_error (msg : pystr) : M unit := ret tt.

Definition health_check (environ : gmap pystr pystr) : M HealthResponse.t :=
  try_except
    (execute_select_1 ;;;
     customer_count <- count_CustomerPolicies ;;
     claims_count <- count_InsuranceClaims ;;
     env <- ask ;;
     ret (HealthResponse.mk
            (py "healthy")
            (datetime_isoformat (now env))
            (py "connected")
            (Some (HealthStats.mk customer_count claims_count))
            None
            (HealthDetails.mk
               (py "1.0.0")
               (os_getenv environ (py "ENVIRONMENT") (py "development"))
               (Some (os_getenv environ (py "PORT") (py "8000"))))))
    (fun e =>
       logger_error (py "Health check failed: " ++ str_exn e) ;;;
       env <- ask ;;
       ret (HealthResponse.mk
              (py "unhealthy")
              (datetime_isoformat (now env))
              (py "disconnected")
              None
              (Some (str_exn e))
              (HealthDetails.mk
                 (py "1.0.0")
                 (os_getenv environ (py "ENVIRONMENT") (py "development"))
                 None))).

(** ** [insert_sample_customer_info] (database.py, lines 122-153) *)

(** The three characters U+201A, U+00C7 and U+03C0 that the literals of
    [database.py] hold where a rupee sign was meant. *)
Definition RUPEE_MISREAD : pystr := [8218; 199; 960].

(** Lines 127-138, each dictionary as the [CustomerInfo] object that line
    141 builds from it. *)
Definition customer_info_data : list CustomerInfo.t :=
  [CustomerInfo.mk (py "Diya")
     (Some (RUPEE_MISREAD ++ py "15,000"))
     (Some (py "Consumables Coverage: " ++ RUPEE_MISREAD ++
            py "1,500, Extra Car Protect: " ++ RUPEE_MISREAD ++ py "2,000"));
   CustomerInfo.mk (py "Lakshmi Srinivas")
     (Some (RUPEE_MISREAD ++ py "8,500"))
     (Some (py "Dental Coverage: " ++ RUPEE_MISREAD ++ py "1,200"))].

(** [db.commit()] after [db.add] of objects built by the constructor, not
    loaded from the store: each is flushed as an INSERT, which the store
    refuses for a primary key it holds ([IntegrityError], one of SQLAlchemy's
    [DBAPIError]s). *)
Definition commit_inserts (objs : list CustomerInfo.t) : M unit :=
  s <- get ;;
  if forallb
       (fun obj =>
          bool_decide
            (customer_info (store s) !! CustomerInfo.customer_name obj = None))
       objs
  then commit
  else round_trip ;;;
       raise (DBAPIError (py "Violation of PRIMARY KEY constraint")).

(** Lines 125-151, in the session of line 124; the texts that lines 145-147
    and 151 print go to the standard output and are left out. *)
Definition insert_sample_customer_info_body : M unit :=
  try_except
    (for_each customer_info_data add_CustomerInfo ;;;
     commit_inserts customer_info_data)
    (fun e => rollback).

(** [db = SessionLocal()] ... [finally: db.close()]: what remains is the
    store. *)
Definition insert_sample_customer_info (env : Env) (db : Database)
    : Result unit * Database :=
  let '(r, s) := insert_sample_customer_info_body env (open_session db) in
  (r, store s).

(** ** The connection string (database.py, lines 13-25) *)

(** What the import of [database.py] can raise before an engine exists. *)
Inductive startup_exn :=
| TypeError (msg : pystr)
| UnicodeEncodeError (position : nat).

(** The UTF-8 bytes of a code point; the codec refuses the surrogates, and
    a number above U+10FFFF is no code point of a [str]. *)
Definition utf8_char (c : N) : option (list N) :=
  if c <? 128 then Some [c]
  else if c <? 2048 then Some [192 + c / 64; 128 + c mod 64]
  else if ((55296 <=? c) && (c <=? 57343)) || (1114111 <? c) then None
  else if c <? 65536 then
    Some [224 + c / 4096; 128 + (c / 64) mod 64; 128 + c mod 64]
  else
    Some [240 + c / 262144; 128 + (c / 4096) mod 64;
          128 + (c / 64) mod 64; 128 + c mod 64].

(** [string.encode('utf-8', 'strict')], from the position [pos]. *)
Fixpoint encode_utf8 (pos : nat) (string : pystr) : startup_exn + list N :=
  match string with
  | [] => inr []
  | c :: rest =>
      match utf8_char c with
      | None => inl (UnicodeEncodeError pos)
      | Some bs =>
          match encode_utf8 (S pos) rest with
          | inl e => inl e
          | inr bs' => inr (bs ++ bs')
          end
      end
  end.

(** [urllib.parse._ALWAYS_SAFE]: the letters, the digits and [_.-~]. *)
Definition ALWAYS_SAFE (b : N) : bool :=
  ((65 <=? b) && (b <=? 90)) || ((97 <=? b) && (b <=? 122)) ||
  ((48 <=? b) && (b <=? 57)) ||
  (b =? 95) || (b =? 46) || (b =? 45) || (b =? 126).

(** A digit of the format [%02X]. *)
Definition hexdigit (n : N) : N := if n <? 10 then 48 + n else 55 + n.

(** [_Quoter.__missing__]: a byte of the safe set stands for itself, any
    other byte is written [%XX]. *)
Definition quoter (safe : list N) (b : N) : pystr :=
  if ALWAYS_SAFE b || existsb (N.eqb b) safe then [b]
  else [37; hexdigit (b / 16); hexdigit (b mod 16)].

(** [quote_from_bytes(bs, safe)]; the non-ASCII characters of [safe] are
    dropped. *)
Definition quote_from_bytes (bs : list N) (safe : pystr) : pystr :=
  flat_map (quoter (List.filter (fun c => c <? 128) safe)) bs.

(** [quote(string, safe)] of a [str]. *)
Definition quote (string safe : pystr) : startup_exn + pystr :=
  match encode_utf8 0 string with
  | inl e => inl e
  | inr bs => inr (quote_from_bytes bs safe)
  end.

(** [quote_plus(string)] of a [str], with the default [safe='']. *)
Definition quote_plus (string : pystr) : startup_exn + pystr :=
  if existsb (N.eqb 32) string then
    match quote string [32] with
    | inl e => inl e
    | inr q => inr (replace [32] [43] q)
    end
  else quote string [].

(** A value of [os.getenv] interpolated into an f-string. *)
Definition format_optional (o : option pystr) : pystr :=
  default (py "None") o.

(** Lines 13-25: the four variables and the URL, or the exception that
    [quote_plus] raises; [quote_plus(None)] is a [TypeError]. *)
Definition SQLALCHEMY_DATABASE_URL (environ : gmap pystr pystr)
    : startup_exn + pystr :=
  let DB_USER := environ !! py "DB_USER" in
  match environ !! py "DB_PASSWORD" with
  | None => inl (TypeError (py "quote_from_bytes() expected bytes"))
  | Some password =>
      match quote_plus password with
      | inl e => inl e
      | inr DB_PASSWORD =>
          let DB_SERVER := environ !! py "DB_SERVER" in
          let DB_NAME := environ !! py "DB_NAME" in
          inr (py "mssql+pyodbc://" ++ format_optional DB_USER ++ py ":" ++
               DB_PASSWORD ++ py "@" ++ format_optional DB_SERVER ++ py "/" ++
               format_optional DB_NAME ++ py "?" ++
               py "driver=ODBC+Driver+18+for+SQL+Server&" ++
               py "encrypt=yes&" ++
               py "trustservercertificate=no&" ++
               py "connection+timeout=30")
      end
  end.

(** * The vocabulary of the statements *)

(** ** The two sub-payloads as functions on tables *)

(** Lines 420-425 on a loaded row. *)
Definition merged_info (d : CustomerInfoUpdateRequest.t) (old : CustomerInfo.t)
    : CustomerInfo.t :=
  CustomerInfo.set_addons_with_amount
    (CustomerInfoUpdateRequest.addons_with_amount d)
    (match CustomerInfoUpdateRequest.final_premium_amount d with
     | Some v => CustomerInfo.set_final_premium_amount (Some (strip v)) old
     | None => old
     end).

(** Lines 428-432. *)
Definition created_info (d : CustomerInfoUpdateRequest.t) : CustomerInfo.t :=
  CustomerInfo.mk
    (CustomerInfoUpdateRequest.customer_name d)
    (if truthy (CustomerInfoUpdateRequest.final_premium_amount d)
     then strip <$> CustomerInfoUpdateRequest.final_premium_amount d
     else None)
    (CustomerInfoUpdateRequest.addons_with_amount d).

Definition upsert_info (d : CustomerInfoUpdateRequest.t)
    (t : gmap pystr CustomerInfo.t) : gmap pystr CustomerInfo.t :=
  <[CustomerInfoUpdateRequest.customer_name d :=
      match t !! CustomerInfoUpdateRequest.customer_name d with
      | Some old => merged_info d old
      | None => created_info d
      end]> t.

(** Lines 455-457 on a loaded row. *)
Definition apply_item (r : CustomerPolicies.t) (item : pystr * option pystr)
    : CustomerPolicies.t :=
  if negb (bool_decide (fst item = py "customer_name")) &&
     bool_decide (snd item <> None)
  then CustomerPolicies.setattr r (fst item) (snd item)
  else r.

Definition apply_items (items : list (pystr * option pystr))
    (r : CustomerPolicies.t) : CustomerPolicies.t :=
  foldl apply_item r items.

(** Lines 455-460 on a loaded row, [t] being the clock's reading. *)
Definition merged_policy (d : CustomerPolicyUpdateRequest.t) (t : datetime)
    (old : CustomerPolicies.t) : CustomerPolicies.t :=
  CustomerPolicies.set_updated_at (Some t)
    (apply_items (CustomerPolicyUpdateRequest.dict_exclude_unset d) old).

(** Lines 463-483 and the defaults of the flush, [t0], [t1] and [t2] being
    three successive readings of the clock. *)
Definition created_policy (d : CustomerPolicyUpdateRequest.t)
    (t0 t1 t2 : datetime) : CustomerPolicies.t :=
  CustomerPolicies.set_updated_at (Some t2)
    (CustomerPolicies.set_created_at (Some t1)
       (new_CustomerPolicies d (datetime_date t0))).

Definition upsert_policy (clock : nat -> datetime) (cr : nat)
    (d : CustomerPolicyUpdateRequest.t)
    (t : gmap pystr CustomerPolicies.t) : gmap pystr CustomerPolicies.t :=
  <[CustomerPolicyUpdateRequest.customer_name d :=
      match t !! CustomerPolicyUpdateRequest.customer_name d with
      | Some old => merged_policy d (clock cr) old
      | None => created_policy d (clock cr) (clock (S cr)) (clock (S (S cr)))
      end]> t.

(** A field an update request can set: it is a field of the request model
    and a column of the table under one name. *)
Definition updatable (field : pystr)
    (get_req : CustomerPolicyUpdateRequest.t -> supplied)
    (get_col : CustomerPolicies.t -> option pystr) : Prop :=
  In (field, get_req) CustomerPolicyUpdateRequest.optional_fields /\
  exists set_col, In (field, (get_col, set_col)) CustomerPolicies.text_columns.

(** What no assignment of the loop can change. *)
Definition kept (r r' : CustomerPolicies.t) : Prop :=
  CustomerPolicies.customer_since r' = CustomerPolicies.customer_since r /\
  CustomerPolicies.last_policy_renewal r' = CustomerPolicies.last_policy_renewal r /\
  CustomerPolicies.created_at r' = CustomerPolicies.created_at r.

(** The outcome of a request: the claims are never touched; each of the other
    two tables is as it was or holds the upsert of its sub-payload; a response
    means that every sub-payload present was committed, and echoes the
    committed rows. *)
Definition update_post (env : Env) (db : Database)
    (req : UpdateCustomerInfoRequest.t)
    (r : Result UpdateResponse.t) (db' : Database) : Prop :=
  insurance_claims db' = insurance_claims db /\
  (customer_info db' = customer_info db \/
   exists d, UpdateCustomerInfoRequest.customer_info req = Some d /\
             customer_info db' = upsert_info d (customer_info db)) /\
  (customer_policies db' = customer_policies db \/
   exists d, UpdateCustomerInfoRequest.customer_policy req = Some d /\
             customer_policies db' =
               upsert_policy (utcnow env) 0 d (customer_policies db)) /\
  forall resp, r = Ok resp ->
    match UpdateCustomerInfoRequest.customer_info req with
    | Some d =>
        customer_info db' = upsert_info d (customer_info db) /\
        exists row,
          customer_info db' !! CustomerInfoUpdateRequest.customer_name d = Some row /\
          UpdateResponse.updated_customer_info resp = Some row
    | None =>
        customer_info db' = customer_info db /\
        UpdateResponse.updated_customer_info resp = None
    end /\
    match UpdateCustomerInfoRequest.customer_policy req with
    | Some d =>
        customer_policies db' =
          upsert_policy (utcnow env) 0 d (customer_policies db) /\
        exists row u,
          customer_policies db' !! CustomerPolicyUpdateRequest.customer_name d
            = Some row /\
          CustomerPolicies.updated_at row = Some u /\
          UpdateResponse.updated_customer_policy resp =
            Some (UpdatedPolicy.mk (policy_response row) (datetime_isoformat u))
    | None =>
        customer_policies db' = customer_policies db /\
        UpdateResponse.updated_customer_policy resp = None
    end.

(** ** The lookup *)

(** The claims of a customer, as stored. *)
Definition claims_for (name : pystr) (db : Database) : list InsuranceClaims.t :=
  filter (fun c => InsuranceClaims.customer_name c = name)
         (rows (insurance_claims db)).

(** The claims of a customer whose status is exactly [label]. *)
Definition with_status (label : pystr) (claims : list InsuranceClaims.t)
    : list InsuranceClaims.t :=
  filter (fun c => InsuranceClaims.status c = label) claims.

Definition other_status (c : InsuranceClaims.t) : Prop :=
  InsuranceClaims.status c <> py "APPROVED" /\
  InsuranceClaims.status c <> py "REJECTED" /\
  InsuranceClaims.status c <> py "UNDER_REVIEW".

Definition is_zero_division (e : exn) : Prop :=
  match e with
  | ZeroDivisionError _ => True
  | _ => False
  end.

(** What one claim adds to a sum: the integer its residue denotes when
    [isdigit] accepts the residue, nothing otherwise. *)
Definition amount_value (pf : Platform) (claim : InsuranceClaims.t) : Z :=
  if isdigit pf (amount_str claim) then
    match int_literal pf (amount_str claim) with
    | Some n => n
    | None => 0
    end
  else 0.

Definition sum_Z (l : list Z) : Z := foldr Z.add 0%Z l.

(** The response of a lookup, from the policy row, the claims in the order
    of the query and the two sums. *)
Definition lookup_response (p : CustomerPolicies.t)
    (claims : list InsuranceClaims.t) (approved_sum rejected_sum : Z)
    (rate : pynum) (last : option pystr) : CustomerInfoResponse.t :=
  CustomerInfoResponse.mk
    (policy_response p)
    (claim_response <$> claims)
    (ClaimsSummary.mk
       (Z.of_nat (length claims))
       (Z.of_nat (length (with_status (py "APPROVED") claims)))
       (Z.of_nat (length (with_status (py "REJECTED") claims)))
       (Z.of_nat (length (with_status (py "UNDER_REVIEW") claims)))
       rate
       (format_comma approved_sum)
       (format_comma rejected_sum)
       last).

Definition lookup_post (env : Env) (db : Database) (name : pystr)
    (r : Result CustomerInfoResponse.t) : Prop :=
  match r with
  | Raise e => ~ is_zero_division e
  | Ok resp =>
      exists p approved_sum rejected_sum last,
        let claims := order_by_date_submitted_desc (claims_for name db) in
        customer_policies db !! name = Some p /\
        sum_amounts (platform env) (with_status (py "APPROVED") claims) 0
          = Ok approved_sum /\
        sum_amounts (platform env) (with_status (py "REJECTED") claims) 0
          = Ok rejected_sum /\
        approval_rate_of
          (Z.of_nat (length (with_status (py "APPROVED") claims)))
          (Z.of_nat (length claims)) =
        Ok (ClaimsSummary.approval_rate
              (CustomerInfoResponse.claims_summary resp)) /\
        resp = lookup_response p claims approved_sum rejected_sum
                 (ClaimsSummary.approval_rate
                    (CustomerInfoResponse.claims_summary resp)) last
  end.

(** No claim of the list was submitted before the one that follows it. *)
Definition most_recent_first (claims : list InsuranceClaims.t) : Prop :=
  Sorted (fun a b => submitted_before a b = false) claims.


(** ** The search *)

(** The rows a search selects: lines 275-281. *)
Definition selected (pf : Platform) (name : option pystr) (db : Database)
    : list CustomerPolicies.t :=
  if truthy name then
    List.filter
      (fun c => ilike pf (py "%" ++ default [] name ++ py "%")
                      (CustomerPolicies.customer_name c))
      (rows (customer_policies db))
  else rows (customer_policies db).

(** A string without [%], [_] and [[], the three characters that [LIKE]
    does not read as themselves. *)
Definition wildcard_free (p : pystr) : Prop :=
  Forall (fun c => c <> 37 /\ c <> 95 /\ c <> 91) p.

(** ** The failures of a lookup *)

(** A claim whose amount enters a total: lines 194-195 and 202-210. *)
Definition summed (c : InsuranceClaims.t) : Prop :=
  InsuranceClaims.status c = py "APPROVED" \/
  InsuranceClaims.status c = py "REJECTED".

(** A residue that [isdigit] accepts and [int] refuses. *)
Definition unreadable (pf : Platform) (c : InsuranceClaims.t) : Prop :=
  isdigit pf (amount_str c) = true /\ int_literal pf (amount_str c) = None.

(** What can go wrong in a lookup, in the order of the handler: the first
    query fails, the customer has no policy row, the second query fails, an
    amount is unreadable, the claims have no timestamp. *)
Definition lookup_failure (env : Env) (db : Database) (name : pystr)
    (cause : exn) : Prop :=
  (exists msg, db_fault env 0 = Some msg /\ cause = DBAPIError msg) \/
  (db_fault env 0 = None /\ customer_policies db !! name = None /\
   cause = HTTPException 404
             (py "Customer '" ++ name ++ py "' not found in customer policies")) \/
  (is_Some (customer_policies db !! name) /\
   exists msg, db_fault env 1 = Some msg /\ cause = DBAPIError msg) \/
  (is_Some (customer_policies db !! name) /\
   exists c, c ∈ claims_for name db /\ summed c /\ unreadable (platform env) c /\
             cause = ValueError
                       (py "invalid literal for int() with base 10: " ++
                        py_repr (platform env) (amount_str c))) \/
  (is_Some (customer_policies db !! name) /\
   claims_for name db <> [] /\
   Forall (fun c => InsuranceClaims.date_submitted c = None)
          (claims_for name db) /\
   cause = none_has_no_isoformat).

(** An ASCII decimal digit. *)
Definition is_decimal (c : N) : Prop := 48 <= c <= 57.

(** ** The sample rows *)

(** A table after the insertion of rows under their names. *)
Definition inserted (objs : list CustomerInfo.t) (t : gmap pystr CustomerInfo.t)
    : gmap pystr CustomerInfo.t :=
  foldl (fun t obj => <[CustomerInfo.customer_name obj := obj]> t) t objs.

(** No row of the table has the name of one of the objects. *)
Definition free_keys (objs : list CustomerInfo.t) (t : gmap pystr CustomerInfo.t)
    : bool :=
  forallb (fun obj => bool_decide (t !! CustomerInfo.customer_name obj = None))
          objs.

(** ** Quoting *)

(** What [quote_plus] writes for one byte. *)
Definition plus_quoted (b : N) : pystr :=
  if b =? 32 then [43]
  else if ALWAYS_SAFE b then [b]
  else [37; hexdigit (b / 16); hexdigit (b mod 16)].

(** A letter, a digit, one of [_.-~], or one of [%] and [+]. *)
Definition url_safe (c : N) : Prop :=
  ALWAYS_SAFE c = true \/ c = 37 \/ c = 43.

(** The characters [:/?#@&=] that delimit the parts of a URL, and the
    space. *)
Definition url_delimiters : pystr := [58; 47; 63; 35; 64; 38; 61; 32].

(** ** The keys of the customer tables *)

(** Every row of the two customer tables is filed under its own
    [customer_name]. *)
Definition filed_by_name (db : Database) : Prop :=
  (forall key row, customer_info db !! key = Some row ->
                   CustomerInfo.customer_name row = key) /\
  (forall key row, customer_policies db !! key = Some row ->
                   CustomerPolicies.customer_name row = key).

(** ** Weakest preconditions *)

(** [wp m env Q s]: run from the session [s], the computation [m] ends in a
    result and a session that satisfy [Q].  Computations are total functions,
    so this also says that [m] ends. *)
Definition wp {A} (m : M A) (env : Env) (Q : Result A -> Session -> Prop)
    (s : Session) : Prop :=
  Q (m env s).1 (m env s).2.

Abbreviation session st wk ad rt cr :=
  {| store := st; work := wk; added := ad; round_trips := rt; clock_reads := cr |}.

(** * Sample data *)

(** A platform that knows no digit above Latin-1, quotes a string for
    [repr], lowers no letter above ASCII, and orders the characters by code
    point. *)
Definition ascii_platform : Platform :=
  {| ucd_decimal := fun _ => None;
     ucd_digit := fun _ => false;
     py_repr := fun s => [39] ++ s ++ [39];
     sql_lower := fun c => c;
     sql_between := fun lo c hi => (lo <=? c) && (c <=? hi) |}.

(** A request during which the store never fails. *)
Definition calm : Env :=
  {| platform := ascii_platform;
     db_fault := fun _ => None;
     utcnow := fun n => mkdatetime 2026 11 3 12 0 0 (N.of_nat n);
     now := mkdatetime 2026 11 3 17 30 0 0 |}.

(** A store that fails at the commit of the [customer_policy] sub-payload:
    the fifth round trip of a request with both sub-payloads. *)
Definition policy_commit_fails : Env :=
  {| platform := ascii_platform;
     db_fault := fun n => if Nat.eqb n 4 then Some (py "connection lost") else None;
     utcnow := utcnow calm;
     now := now calm |}.

Definition empty_db : Database :=
  {| insurance_claims := ∅; customer_policies := ∅; customer_info := ∅ |}.


Definition asha : pystr := py "Asha".

Definition asha_policy : CustomerPolicies.t :=
  CustomerPolicies.mk asha
    (Some (py "Car")) None None None None
    (Some (py "DCAR00920600359/00")) None None None None
    (Some (mkdate 2025 6 1)) (mkdate 2021 4 12)
    (Some (py "25-30")) (Some (py "Pune"))
    None None None None None
    (Some (mkdatetime 2021 4 12 9 0 0 0)) (Some (mkdatetime 2025 6 1 9 0 0 0)).

Definition asha_info : CustomerInfo.t :=
  CustomerInfo.mk asha (Some (py "15,000")) (Some (py "Dental Coverage: 1,200")).

Definition sample_db : Database :=
  {| insurance_claims := ∅;
     customer_policies := {[ asha := asha_policy ]};
     customer_info := {[ asha := asha_info ]} |}.

Definition claim (id : string) (amount status : pystr) (day : N)
    : InsuranceClaims.t :=
  InsuranceClaims.mk (py id) (py "DCAR00920600359/00") asha (py "Vehicle")
    amount (Some (mkdatetime 2026 1 day 10 0 0 0)) (py "Windscreen")
    status None None None.

Definition claims_db : Database :=
  {| insurance_claims :=
       {[ py "CLM-1" := claim "CLM-1" (RUPEE ++ py "45,000") (py "APPROVED") 10;
          py "CLM-2" := claim "CLM-2" (RUPEE ++ py "12,500") (py "Under Review") 12;
          py "CLM-3" := claim "CLM-3" (py "?8,000") (py "REJECTED") 11 ]};
     customer_policies := {[ asha := asha_policy ]};
     customer_info := ∅ |}.

(** The store of the failing lookup: Asha's only claim is approved and its
    amount is the one character U+00B2. *)
Definition superscript_db : Database :=
  {| insurance_claims :=
       {[ py "CLM-9" := claim "CLM-9" [178] (py "APPROVED") 10 ]};
     customer_policies := {[ asha := asha_policy ]};
     customer_info := ∅ |}.

(** A [CustomerPolicyUpdateRequest] that sets [age] and [location], sets
    [vehicle_addons] to [null] and leaves the other fields unset. *)
Definition asha_policy_update : CustomerPolicyUpdateRequest.t :=
  CustomerPolicyUpdateRequest.mk asha
    Unset Unset Unset Unset Unset Unset Unset Unset Unset Unset
    (Given (Some (py "30-35"))) (Given (Some (py "Mumbai")))
    (Given None) Unset Unset Unset Unset.


(** A [CustomerInfoUpdateRequest] that supplies neither value. *)
Definition asha_info_clear : CustomerInfoUpdateRequest.t :=
  CustomerInfoUpdateRequest.mk asha None None.

Definition empty_premium (name : pystr) : CustomerInfoUpdateRequest.t :=
  CustomerInfoUpdateRequest.mk name (Some []) (Some (py "Roadside: 500")).

Definition both_for_asha : UpdateCustomerInfoRequest.t :=
  UpdateCustomerInfoRequest.mk (Some asha_info_clear) (Some asha_policy_update).

(** What [get_db] returns when the handler answers. *)
Definition response_of {A} (default : A) (out : Result A * Database) : A :=
  match out.1 with
  | Ok a => a
  | Raise _ => default
  end.

Definition no_update : UpdateResponse.t := UpdateResponse.mk [] None None [].

Definition no_lookup : CustomerInfoResponse.t :=
  lookup_response asha_policy [] 0 0 (PyInt 0) None.

(** A request during which the store is down: the first round trip fails. *)
Definition store_down : Env :=
  {| platform := ascii_platform;
     db_fault := fun n => if Nat.eqb n 0 then Some (py "connection lost") else None;
     utcnow := utcnow calm;
     now := now calm |}.

Definition asha_info_only : UpdateCustomerInfoRequest.t :=
  UpdateCustomerInfoRequest.mk (Some asha_info_clear) None.

Definition asha_policy_only : UpdateCustomerInfoRequest.t :=
  UpdateCustomerInfoRequest.mk None (Some asha_policy_update).

(** The store and the response of an update of the sample store. *)
Definition updated (req : UpdateCustomerInfoRequest.t) : Database :=
  (get_db (update_customer_info req) calm sample_db).2.

Definition update_response (req : UpdateCustomerInfoRequest.t)
    : UpdateResponse.t :=
  response_of no_update (get_db (update_customer_info req) calm sample_db).

Definition no_listing : SearchResponse.t := SearchResponse.mk None 0 [].

(** A password with a space and three delimiters of a URL. *)
Definition sample_password : pystr := py "p@ss w:rd/1".

(** A [CustomerInfoUpdateRequest] whose premium has white space around it. *)
Definition padded_premium : CustomerInfoUpdateRequest.t :=
  CustomerInfoUpdateRequest.mk asha (Some (py " 18,500 ")) None.

Definition padded_premium_only : UpdateCustomerInfoRequest.t :=
  UpdateCustomerInfoRequest.mk (Some padded_premium) None.

Definition no_health : HealthResponse.t :=
  HealthResponse.mk [] [] [] None None (HealthDetails.mk [] [] None).

(** * Reasoning about handler code *)

(** ** The rules of the monad *)

Lemma wp_run {A} (m : M A) env Q s r s' :
  wp m env Q s -> m env s = (r, s') -> Q r s'.
Proof. unfold wp. intros H E. now rewrite E in H. Qed.

Lemma wp_mono {A} (m : M A) env (Q Q' : Result A -> Session -> Prop) s :
  wp m env Q s -> (forall r s', Q r s' -> Q' r s') -> wp m env Q' s.
Proof. unfold wp. auto. Qed.

Lemma wp_ret {A} (a : A) env Q s : Q (Ok a) s -> wp (ret a) env Q s.
Proof. exact id. Qed.

Lemma wp_raise {A} e env (Q : Result A -> Session -> Prop) s :
  Q (Raise e) s -> wp (raise e) env Q s.
Proof. exact id. Qed.

Lemma wp_lift {A} (r : Result A) env Q s : Q r s -> wp (lift r) env Q s.
Proof. exact id. Qed.

Lemma wp_ask env Q s : Q (Ok env) s -> wp ask env Q s.
Proof. exact id. Qed.

Lemma wp_get env Q s : Q (Ok s) s -> wp get env Q s.
Proof. exact id. Qed.

Lemma wp_put s' env Q s : Q (Ok tt) s' -> wp (put s') env Q s.
Proof. exact id. Qed.

Lemma wp_bind {A B} (m : M A) (k : A -> M B) env Q s :
  wp m env
     (fun r s' =>
        match r with
        | Ok a => wp (k a) env Q s'
        | Raise e => Q (Raise e) s'
        end) s ->
  wp (bind m k) env Q s.
Proof. unfold wp, bind. now destruct (m env s) as [[a|e] s']. Qed.

Lemma wp_try_except {A} (m : M A) (h : exn -> M A) env Q s :
  wp m env
     (fun r s' =>
        match r with
        | Ok a => Q (Ok a) s'
        | Raise e => wp (h e) env Q s'
        end) s ->
  wp (try_except m h) env Q s.
Proof. unfold wp, try_except. now destruct (m env s) as [[a|e] s']. Qed.

(** One step of symbolic execution. *)
Ltac wp_step :=
  cbn [store work added round_trips clock_reads];
  lazymatch goal with
  | |- wp (bind _ _) _ _ _ => apply wp_bind
  | |- wp (ret _) _ _ _ => apply wp_ret
  | |- wp (raise _) _ _ _ => apply wp_raise
  | |- wp (lift _) _ _ _ => apply wp_lift
  | |- wp ask _ _ _ => apply wp_ask
  | |- wp get _ _ _ => apply wp_get
  | |- wp (put _) _ _ _ => apply wp_put
  | |- wp (try_except _ _) _ _ _ => apply wp_try_except
  end;
  cbn [store work added round_trips clock_reads].

Ltac wp_steps := repeat wp_step.

(** ** The operations of the session *)

Lemma wp_round_trip env Q st wk ad rt cr :
  match db_fault env rt with
  | Some msg => Q (Raise (DBAPIError msg)) (session st wk ad (S rt) cr)
  | None => Q (Ok tt) (session st wk ad (S rt) cr)
  end ->
  wp round_trip env Q (session st wk ad rt cr).
Proof.
  intros H. unfold round_trip. wp_steps.
  destruct (db_fault env rt); now wp_steps.
Qed.

Lemma wp_datetime_utcnow env Q st wk ad rt cr :
  Q (Ok (utcnow env cr)) (session st wk ad rt (S cr)) ->
  wp datetime_utcnow env Q (session st wk ad rt cr).
Proof. intros H. unfold datetime_utcnow. now wp_steps. Qed.

Lemma wp_modify_work f env Q st wk ad rt cr :
  Q (Ok tt) (session st (f wk) ad rt cr) ->
  wp (modify_work f) env Q (session st wk ad rt cr).
Proof. intros H. unfold modify_work. now wp_steps. Qed.

Lemma wp_rollback env Q st wk ad rt cr :
  Q (Ok tt) (session st st [] rt cr) ->
  wp rollback env Q (session st wk ad rt cr).
Proof. intros H. unfold rollback. now wp_steps. Qed.

(** A commit with nothing added: one round trip, then the work is the store. *)
Lemma wp_commit_nil env Q st wk rt cr :
  match db_fault env rt with
  | Some msg => Q (Raise (DBAPIError msg)) (session st wk [] (S rt) cr)
  | None => Q (Ok tt) (session wk wk [] (S rt) cr)
  end ->
  wp commit env Q (session st wk [] rt cr).
Proof.
  intros H. unfold commit. wp_steps. cbn [rev for_each]. wp_steps.
  apply wp_round_trip. destruct (db_fault env rt); [assumption|].
  now wp_steps.
Qed.

(** A commit that inserts one [CustomerPolicies] row: its two defaults are
    read from the clock first. *)
Lemma wp_commit_added env Q st wk name rt cr :
  let wk' :=
    with_customer_policies
      (alter (fun r => CustomerPolicies.set_updated_at (Some (utcnow env (S cr)))
                         (CustomerPolicies.set_created_at (Some (utcnow env cr)) r))
             name (customer_policies wk)) wk in
  match db_fault env rt with
  | Some msg => Q (Raise (DBAPIError msg)) (session st wk' [name] (S rt) (S (S cr)))
  | None => Q (Ok tt) (session wk' wk' [] (S rt) (S (S cr)))
  end ->
  wp commit env Q (session st wk [name] rt cr).
Proof.
  intros wk' H. unfold commit. wp_steps. cbn [rev app for_each]. wp_steps.
  unfold insert_defaults. wp_steps.
  apply wp_datetime_utcnow. wp_steps. apply wp_datetime_utcnow.
  unfold assign_CustomerPolicies. apply wp_modify_work. wp_steps.
  apply wp_round_trip. fold wk'. destruct (db_fault env rt); [assumption|].
  now wp_steps.
Qed.

(** Symbolic execution through the operations of the session. *)
Ltac wp_go :=
  repeat
    (cbn [store work added round_trips clock_reads];
     lazymatch goal with
     | |- wp round_trip _ _ _ => apply wp_round_trip
     | |- wp datetime_utcnow _ _ _ => apply wp_datetime_utcnow
     | |- wp (modify_work _) _ _ _ => apply wp_modify_work
     | |- wp rollback _ _ _ => apply wp_rollback
     | |- wp (assign_CustomerInfo _ _) _ _ _ => unfold assign_CustomerInfo
     | |- wp (assign_CustomerPolicies _ _) _ _ _ => unfold assign_CustomerPolicies
     | |- wp (add_CustomerInfo _) _ _ _ => unfold add_CustomerInfo
     | |- wp (add_CustomerPolicies _) _ _ _ => unfold add_CustomerPolicies
     | |- wp (first_CustomerInfo _) _ _ _ => unfold first_CustomerInfo
     | |- wp (first_CustomerPolicies _) _ _ _ => unfold first_CustomerPolicies
     | |- wp (refresh_CustomerInfo _) _ _ _ => unfold refresh_CustomerInfo
     | |- wp (refresh_CustomerPolicies _) _ _ _ => unfold refresh_CustomerPolicies
     | |- _ => wp_step
     end);
  cbn [store work added round_trips clock_reads].

(** ** The two sub-payloads *)

Lemma with_customer_info_id db : with_customer_info (customer_info db) db = db.
Proof. now destruct db. Qed.

Lemma with_customer_policies_id db :
  with_customer_policies (customer_policies db) db = db.
Proof. now destruct db. Qed.

(** The [customer_info] sub-payload, from a session without pending changes:
    it fails with the store as it was, or fails at the refresh after the
    commit, or returns the row it committed. *)
Lemma wp_update_customer_info_part env d (Q : Result CustomerInfo.t -> Session -> Prop)
    st rt cr :
  let st' := with_customer_info (upsert_info d (customer_info st)) st in
  (forall e wk n, n <= 2 + rt -> Q (Raise e) (session st wk [] n cr))%nat ->
  (forall e, Q (Raise e) (session st' st' [] (3 + rt) cr))%nat ->
  (forall row,
     customer_info st' !! CustomerInfoUpdateRequest.customer_name d = Some row ->
     Q (Ok row) (session st' st' [] (3 + rt)%nat cr)) ->
  wp (update_customer_info_part d) env Q (session st st [] rt cr).
Proof.
  intros st' Hpre Hpost Hok.
  unfold update_customer_info_part. wp_go.
  destruct (db_fault env rt) as [msg|]; [apply Hpre; lia|]. wp_go.
  assert (Hrow : customer_info st' !! CustomerInfoUpdateRequest.customer_name d
                 <> None).
  { unfold st', with_customer_info, upsert_info; cbn [customer_info].
    now rewrite lookup_insert_eq. }
  destruct (customer_info st !! CustomerInfoUpdateRequest.customer_name d)
    as [old|] eqn:Hold; wp_go;
    [destruct (CustomerInfoUpdateRequest.final_premium_amount d) as [v|] eqn:Hv;
     wp_go|];
    (match goal with
     | |- wp commit _ _ (session _ ?wk _ _ _) =>
         replace wk with st'
           by (unfold st', upsert_info, with_customer_info, merged_info;
               cbn [customer_info insurance_claims customer_policies];
               rewrite Hold, ?Hv, ?(alter_alt_Some _ _ _ _ Hold), ?alter_insert_eq;
               reflexivity)
     end);
    apply wp_commit_nil;
    (destruct (db_fault env (S rt)) as [msg|]; [apply Hpre; lia|]); wp_go;
    (destruct (db_fault env (S (S rt))) as [msg|]; [apply Hpost|]); wp_go;
    (destruct (customer_info st' !! _) as [row|] eqn:Erow; [|easy]); wp_go;
    now apply Hok.
Qed.

(** The loop of lines 455-457 assigns to the loaded object what
    [apply_items] computes. *)
Lemma wp_update_fields env name items (Q : Result unit -> Session -> Prop)
    st wk ad rt cr :
  Q (Ok tt)
    (session st
       (with_customer_policies
          (alter (apply_items items) name (customer_policies wk)) wk)
       ad rt cr) ->
  wp (for_each items (update_field name)) env Q (session st wk ad rt cr).
Proof.
  revert wk. induction items as [|item items IH]; intros wk H; cbn [for_each].
  - wp_go. unfold apply_items in H. cbn [foldl] in H.
    rewrite alter_id, with_customer_policies_id in H by reflexivity. exact H.
  - wp_go. unfold update_field.
    assert (Hnext : forall f,
      (forall r, f r = apply_item r item) ->
      wp (for_each items (update_field name)) env Q
         (session st
            (with_customer_policies (alter f name (customer_policies wk)) wk)
            ad rt cr)).
    { intros f Hf. apply IH.
      unfold with_customer_policies;
        cbn [customer_policies insurance_claims customer_info].
      rewrite alter_alter_eq.
      erewrite (alter_ext (apply_items items ∘ f)); [exact H|].
      intros r _. unfold apply_items; cbn [foldl compose]. now rewrite Hf. }
    destruct (negb (bool_decide (item.1 = py "customer_name")) &&
              bool_decide (item.2 <> None)) eqn:Hc; wp_go.
    + apply Hnext. intros r. unfold apply_item. now rewrite Hc.
    + rewrite <- (with_customer_policies_id wk) at 1.
      rewrite <- (alter_id (fun r => r) (customer_policies wk) name) at 1
        by reflexivity.
      apply Hnext. intros r. unfold apply_item. now rewrite Hc.
Qed.

(** The [customer_policy] sub-payload, from a session without pending
    changes: it fails with the store as it was, or fails at the refresh after
    the commit, or returns the echo of the row it committed. *)
Lemma wp_update_customer_policy_part env d
    (Q : Result UpdatedPolicy.t -> Session -> Prop) st rt cr :
  let st' :=
    with_customer_policies
      (upsert_policy (utcnow env) cr d (customer_policies st)) st in
  (forall e wk ad n c, Q (Raise e) (session st wk ad n c)) ->
  (forall e n c, Q (Raise e) (session st' st' [] n c)) ->
  (forall row u c,
     customer_policies st' !! CustomerPolicyUpdateRequest.customer_name d
       = Some row ->
     CustomerPolicies.updated_at row = Some u ->
     Q (Ok (UpdatedPolicy.mk (policy_response row) (datetime_isoformat u)))
       (session st' st' [] (3 + rt)%nat c)) ->
  wp (update_customer_policy_part d) env Q (session st st [] rt cr).
Proof.
  intros st' Hpre Hpost Hok.
  unfold update_customer_policy_part. wp_go.
  destruct (db_fault env rt) as [msg|]; [apply Hpre|]. wp_go.
  assert (Hrow : exists row u,
    customer_policies st' !! CustomerPolicyUpdateRequest.customer_name d = Some row
    /\ CustomerPolicies.updated_at row = Some u).
  { unfold st', with_customer_policies, upsert_policy; cbn [customer_policies].
    rewrite lookup_insert_eq.
    destruct (customer_policies st !! _); eexists _, _; split; reflexivity. }
  destruct Hrow as (row & u & Hrow & Hu).
  destruct (customer_policies st !! CustomerPolicyUpdateRequest.customer_name d)
    as [old|] eqn:Hold; wp_go.
  - apply wp_update_fields. wp_go.
    match goal with
    | |- wp commit _ _ (session _ ?wk _ _ _) =>
        replace wk with st'
          by (unfold st', upsert_policy, with_customer_policies, merged_policy;
              cbn [customer_info insurance_claims customer_policies];
              rewrite Hold, (alter_alt_Some _ _ _ _ Hold), alter_insert_eq;
              reflexivity)
    end.
    apply wp_commit_nil.
    destruct (db_fault env (S rt)) as [msg|]; [apply Hpre|]. wp_go.
    destruct (db_fault env (S (S rt))) as [msg|]; [apply Hpost|]. wp_go.
    rewrite Hrow. wp_go. rewrite Hu. wp_go. now apply Hok.
  - cbn [new_CustomerPolicies CustomerPolicies.customer_name].
    apply wp_commit_added.
    match goal with
    | |- match _ with
         | Some _ => Q _ (session _ ?wk _ _ _)
         | None => _
         end =>
        replace wk with st'
          by (unfold st', upsert_policy, with_customer_policies, created_policy;
              cbn [customer_info insurance_claims customer_policies];
              rewrite Hold, alter_insert_eq; reflexivity)
    end.
    destruct (db_fault env (S rt)) as [msg|]; [apply Hpre|]. wp_go.
    destruct (db_fault env (S (S rt))) as [msg|]; [apply Hpost|]. wp_go.
    rewrite Hrow. wp_go. rewrite Hu. wp_go. now apply Hok.
Qed.

(** ** What a request to [update_customer_info] leaves in the store *)

Lemma get_db_wp {A} (handler : M A) env db (Q : Result A -> Database -> Prop) :
  wp handler env (fun r s => Q r (store s)) (open_session db) ->
  forall r db', get_db handler env db = (r, db') -> Q r db'.
Proof.
  unfold get_db, wp. intros H r db' E.
  destruct (handler env (open_session db)) as [r0 s0].
  injection E as -> <-. exact H.
Qed.

Ltac table_simpl :=
  cbn [with_customer_info with_customer_policies
       customer_info customer_policies insurance_claims
       store work added round_trips clock_reads] in *.

(** A leaf of the symbolic execution: the outcome is read off the session. *)
Ltac post_leaf :=
  table_simpl;
  split; [reflexivity|];
  split; [eauto|];
  split; [eauto|];
  let resp := fresh "resp" in
  intros resp;
  first
    [ discriminate
    | intros [= <-];
      cbn [UpdateResponse.updated_customer_info
           UpdateResponse.updated_customer_policy];
      repeat split; eauto ].

Lemma update_customer_info_post env db req r db' :
  get_db (update_customer_info req) env db = (r, db') ->
  update_post env db req r db'.
Proof.
  revert r db'. apply get_db_wp.
  unfold update_customer_info, update_customer_info_body, open_session.
  destruct req as [[info|] [policy|]]; unfold update_post, if_present;
    cbn [UpdateCustomerInfoRequest.customer_info
         UpdateCustomerInfoRequest.customer_policy].
  - (* both sub-payloads *)
    wp_go. apply wp_update_customer_info_part.
    + intros e wk n _. wp_go. post_leaf.
    + intros e. wp_go. post_leaf.
    + intros row Hrow. wp_go. apply wp_update_customer_policy_part.
      * intros e wk ad n c. wp_go. post_leaf.
      * intros e n c. wp_go. post_leaf.
      * intros prow u c Hprow Hu. wp_go. post_leaf.
  - (* customer_info only *)
    wp_go. apply wp_update_customer_info_part.
    + intros e wk n _. wp_go. post_leaf.
    + intros e. wp_go. post_leaf.
    + intros row Hrow. wp_go. post_leaf.
  - (* customer_policy only *)
    wp_go. apply wp_update_customer_policy_part.
    + intros e wk ad n c. wp_go. post_leaf.
    + intros e n c. wp_go. post_leaf.
    + intros prow u c Hprow Hu. wp_go. post_leaf.
  - (* neither: 400 *)
    wp_go. post_leaf.
Qed.

(** ** Attribute assignment on a [CustomerPolicies] row *)

(** Case analysis on membership in a table written out in the source. *)
Ltac in_cases H :=
  repeat (destruct H as [H|H]; [injection H as <-; intros; subst | ]);
  try contradiction.

Lemma column_Some field gs :
  CustomerPolicies.column field = Some gs ->
  In (field, gs) CustomerPolicies.text_columns.
Proof.
  unfold CustomerPolicies.column. intros H.
  destruct (List.find _ _) as [[n gs']|] eqn:F; [|discriminate].
  injection H as <-. apply find_some in F as [Hin Hn].
  apply bool_decide_eq_true in Hn. cbn [fst] in Hn. now subst.
Qed.

Lemma column_of_text_column field gs :
  In (field, gs) CustomerPolicies.text_columns ->
  CustomerPolicies.column field = Some gs /\ field <> py "customer_name".
Proof.
  intros H. cbn [CustomerPolicies.text_columns In] in H.
  in_cases H; split; solve [vm_compute; reflexivity | vm_compute; discriminate].
Qed.

Lemma kept_refl r : kept r r.
Proof. now unfold kept. Qed.

Lemma kept_trans r1 r2 r3 : kept r1 r2 -> kept r2 r3 -> kept r1 r3.
Proof. unfold kept. intros (?&?&?) (?&?&?). repeat split; congruence. Qed.

Lemma setattr_kept r field value : kept r (CustomerPolicies.setattr r field value).
Proof.
  unfold CustomerPolicies.setattr.
  destruct (CustomerPolicies.column field) as [[g set]|] eqn:C.
  - apply column_Some in C. cbn [CustomerPolicies.text_columns In] in C.
    in_cases C; repeat split.
  - destruct value; [|apply kept_refl].
    destruct (bool_decide _); repeat split.
Qed.

Lemma apply_item_kept r item : kept r (apply_item r item).
Proof.
  unfold apply_item. destruct (_ && _); [apply setattr_kept | apply kept_refl].
Qed.

Lemma apply_items_kept items r : kept r (apply_items items r).
Proof.
  unfold apply_items. revert r.
  induction items as [|item items IH]; intros r; cbn [foldl].
  - apply kept_refl.
  - eapply kept_trans; [apply apply_item_kept | apply IH].
Qed.

(** The loop never assigns to [customer_name]. *)
Lemma apply_items_customer_name items r :
  CustomerPolicies.customer_name (apply_items items r) =
  CustomerPolicies.customer_name r.
Proof.
  unfold apply_items. revert r.
  induction items as [|[field value] items IH]; intros r; cbn [foldl];
    [reflexivity|].
  rewrite IH. unfold apply_item. cbn [fst snd].
  destruct (bool_decide (field = py "customer_name")) eqn:Hname;
    cbn [negb andb]; [reflexivity|].
  destruct (bool_decide (value <> None)); [|reflexivity].
  unfold CustomerPolicies.setattr.
  destruct (CustomerPolicies.column field) as [[g set]|] eqn:C.
  - apply column_Some in C. cbn [CustomerPolicies.text_columns In] in C.
    in_cases C; reflexivity.
  - rewrite Hname. now destruct value.
Qed.

(** Reading a column after an assignment to itself, and to another name. *)
Lemma setattr_same field get_col set_col r value :
  In (field, (get_col, set_col)) CustomerPolicies.text_columns ->
  get_col (CustomerPolicies.setattr r field value) = value.
Proof.
  intros H. unfold CustomerPolicies.setattr.
  destruct (column_of_text_column _ _ H) as [-> _].
  cbn [CustomerPolicies.text_columns In] in H. in_cases H; reflexivity.
Qed.

Lemma setattr_other field get_col set_col r other value :
  In (field, (get_col, set_col)) CustomerPolicies.text_columns ->
  other <> field ->
  get_col (CustomerPolicies.setattr r other value) = get_col r.
Proof.
  intros H Hne. unfold CustomerPolicies.setattr.
  destruct (CustomerPolicies.column other) as [[g set]|] eqn:C.
  - apply column_Some in C.
    cbn [CustomerPolicies.text_columns In] in H, C.
    in_cases H; in_cases C; solve [reflexivity | now contradiction Hne].
  - cbn [CustomerPolicies.text_columns In] in H.
    destruct value; [|reflexivity]. destruct (bool_decide _); [|reflexivity].
    in_cases H; reflexivity.
Qed.

Lemma updated_at_other field get_col set_col r t :
  In (field, (get_col, set_col)) CustomerPolicies.text_columns ->
  get_col (CustomerPolicies.set_updated_at t r) = get_col r.
Proof.
  intros H. cbn [CustomerPolicies.text_columns In] in H. in_cases H; reflexivity.
Qed.

Lemma created_at_other field get_col set_col r t :
  In (field, (get_col, set_col)) CustomerPolicies.text_columns ->
  get_col (CustomerPolicies.set_created_at t r) = get_col r.
Proof.
  intros H. cbn [CustomerPolicies.text_columns In] in H. in_cases H; reflexivity.
Qed.

Lemma apply_items_app l1 l2 r :
  apply_items (l1 ++ l2) r = apply_items l2 (apply_items l1 r).
Proof. unfold apply_items. apply foldl_app. Qed.

Lemma apply_items_other field get_col set_col items r :
  In (field, (get_col, set_col)) CustomerPolicies.text_columns ->
  Forall (fun item => item.1 <> field) items ->
  get_col (apply_items items r) = get_col r.
Proof.
  intros H Hall. unfold apply_items. revert r.
  induction Hall as [|item items Hne _ IH]; intros r; cbn [foldl]; [reflexivity|].
  rewrite IH. unfold apply_item.
  destruct (_ && _); [|reflexivity]. eapply setattr_other; eauto.
Qed.

Lemma entries_other d fields field :
  ~ In field fields.*1 ->
  Forall (fun item => item.1 <> field)
         (flat_map (CustomerPolicyUpdateRequest.entry d) fields).
Proof.
  induction fields as [|[n g] fields IH]; intros Hnot; cbn [flat_map].
  - constructor.
  - cbn [fmap list_fmap fst In] in Hnot. apply Forall_app. split.
    + unfold CustomerPolicyUpdateRequest.entry. cbn [fst snd].
      destruct (g d); repeat constructor. cbn [fst]. intros ->. tauto.
    + apply IH. tauto.
Qed.

Lemma optional_fields_NoDup :
  NoDup CustomerPolicyUpdateRequest.optional_fields.*1.
Proof. refine (bool_decide_unpack _ _). vm_compute. exact I. Qed.

(** Lines 455-457 field by field: a field given a value takes it, a field
    unset or given [None] keeps the stored value. *)
Lemma apply_items_dict d old field get_req get_col :
  updatable field get_req get_col ->
  get_col (apply_items (CustomerPolicyUpdateRequest.dict_exclude_unset d) old) =
  match get_req d with
  | Given (Some v) => Some v
  | _ => get_col old
  end.
Proof.
  intros [Hreq [set_col Hcol]].
  destruct (column_of_text_column _ _ Hcol) as [_ Hname].
  apply list_elem_of_In, list_elem_of_split in Hreq as (l1 & l2 & Hsplit).
  pose proof optional_fields_NoDup as Hnd.
  rewrite Hsplit, fmap_app, fmap_cons in Hnd. cbn [fst] in Hnd.
  apply NoDup_app in Hnd as (_ & H1 & Hnd). apply NoDup_cons in Hnd as [H2 _].
  assert (Hl1 : ~ In field l1.*1).
  { intros Hin. apply list_elem_of_In in Hin. apply (H1 _ Hin). left. }
  assert (Hl2 : ~ In field l2.*1) by now rewrite <- list_elem_of_In.
  unfold CustomerPolicyUpdateRequest.dict_exclude_unset.
  rewrite Hsplit, flat_map_app. cbn [flat_map].
  change (?x :: ?l) with ([x] ++ l) at 1.
  rewrite !apply_items_app.
  rewrite (apply_items_other _ _ _ _ _ Hcol (entries_other d l2 field Hl2)).
  assert (Hbase :
    get_col (apply_items (flat_map (CustomerPolicyUpdateRequest.entry d) l1)
               (apply_items [(py "customer_name",
                              Some (CustomerPolicyUpdateRequest.customer_name d))]
                  old)) = get_col old).
  { rewrite (apply_items_other _ _ _ _ _ Hcol (entries_other d l1 field Hl1)).
    apply (apply_items_other _ _ _ _ _ Hcol). repeat constructor.
    cbn [fst]. congruence. }
  assert (Hentry : forall r,
    get_col (apply_items (CustomerPolicyUpdateRequest.entry d (field, get_req)) r) =
    match get_req d with
    | Given (Some v) => Some v
    | _ => get_col r
    end).
  { intros r. unfold CustomerPolicyUpdateRequest.entry. cbn [fst snd].
    destruct (get_req d) as [|[v|]]; unfold apply_items; cbn [foldl];
      [reflexivity| |]; unfold apply_item; cbn [fst snd].
    - rewrite bool_decide_eq_false_2 by exact Hname.
      rewrite bool_decide_eq_true_2 by discriminate. cbn [negb andb].
      eapply setattr_same; eauto.
    - rewrite (bool_decide_eq_false_2 (None <> None)) by tauto.
      now rewrite andb_false_r. }
  rewrite Hentry, Hbase. reflexivity.
Qed.

(** * The update endpoint *)

(** ** C1 *)

(** C1. When an update request carries a [customer_policy] sub-payload for a
    customer whose [CustomerPolicies] row exists and the request is answered,
    every updatable field other than [customer_name] is stored as follows: a
    field the payload leaves unset or sets to [null] keeps its stored value,
    a field the payload sets to a non-null value holds that value; and
    [customer_name] is as it was. *)
Theorem update_existing_policy_field_by_field
    env db req d old resp db' field get_req get_col :
  UpdateCustomerInfoRequest.customer_policy req = Some d ->
  customer_policies db !! CustomerPolicyUpdateRequest.customer_name d = Some old ->
  get_db (update_customer_info req) env db = (Ok resp, db') ->
  updatable field get_req get_col ->
  exists new,
    customer_policies db' !! CustomerPolicyUpdateRequest.customer_name d = Some new /\
    CustomerPolicies.customer_name new = CustomerPolicies.customer_name old /\
    get_col new =
      match get_req d with
      | Given (Some v) => Some v
      | _ => get_col old
      end.
Proof.
  intros Hreq Hold Hrun Hf.
  apply update_customer_info_post in Hrun as (_ & _ & _ & Hresp).
  specialize (Hresp resp eq_refl) as [_ Hpol]. rewrite Hreq in Hpol.
  destruct Hpol as [-> _]. unfold upsert_policy. rewrite Hold, lookup_insert_eq.
  eexists. split; [reflexivity|].
  unfold merged_policy. split.
  - apply (apply_items_customer_name
             (CustomerPolicyUpdateRequest.dict_exclude_unset d) old).
  - destruct Hf as [Hr [set_col Hc]].
    rewrite (updated_at_other _ _ _ _ _ Hc).
    apply (apply_items_dict _ _ field). split; eauto.
Qed.

Lemma update_existing_policy_field_by_field_witness :
  exists new,
    customer_policies
      (get_db (update_customer_info
                 (UpdateCustomerInfoRequest.mk None (Some asha_policy_update)))
              calm sample_db).2 !! asha = Some new /\
    CustomerPolicies.customer_name new = asha /\
    CustomerPolicies.age new = Some (py "30-35").
Proof.
  apply (update_existing_policy_field_by_field calm sample_db
           (UpdateCustomerInfoRequest.mk None (Some asha_policy_update))
           asha_policy_update asha_policy
           (response_of no_update
              (get_db (update_customer_info
                         (UpdateCustomerInfoRequest.mk None (Some asha_policy_update)))
                      calm sample_db))
           _ (py "age") CustomerPolicyUpdateRequest.age CustomerPolicies.age).
  - reflexivity.
  - vm_compute. reflexivity.
  - vm_compute. reflexivity.
  - split; [|eexists]; cbn; tauto.
Defined.

(** ** C2 *)

(** [strip] removes white space from both ends and nothing else. *)
Lemma lstrip_spec s :
  exists l, s = l ++ lstrip s /\ forallb Py_UNICODE_ISSPACE l = true /\
            match lstrip s with
            | c :: _ => Py_UNICODE_ISSPACE c = false
            | [] => True
            end.
Proof.
  induction s as [|c s (l & Hs & Hl & Hhd)]; cbn [lstrip].
  - now exists [].
  - destruct (Py_UNICODE_ISSPACE c) eqn:Hc.
    + exists (c :: l). cbn [forallb app]. rewrite Hc, Hl. now rewrite <- Hs.
    + exists []. now rewrite Hc.
Qed.

Lemma strip_spec s :
  exists l r,
    s = l ++ strip s ++ r /\
    forallb Py_UNICODE_ISSPACE l = true /\
    forallb Py_UNICODE_ISSPACE r = true /\
    match strip s with
    | c :: _ => Py_UNICODE_ISSPACE c = false
    | [] => True
    end /\
    match rev (strip s) with
    | c :: _ => Py_UNICODE_ISSPACE c = false
    | [] => True
    end.
Proof.
  destruct (lstrip_spec s) as (l & Hs & Hl & Hhd).
  destruct (lstrip_spec (rev (lstrip s))) as (r & Hr & Hrs & Hlast).
  unfold strip, rstrip. exists l, (rev r). repeat split.
  - rewrite Hs at 1. f_equal. rewrite <- rev_app_distr, <- Hr.
    now rewrite rev_involutive.
  - exact Hl.
  - rewrite forallb_forall in *. intros x Hx. apply Hrs. now apply in_rev.
  - apply (f_equal (@rev N)) in Hr. rewrite rev_involutive, rev_app_distr in Hr.
    destruct (rev (lstrip (rev (lstrip s)))) as [|c t]; [exact I|].
    rewrite Hr in Hhd. exact Hhd.
  - rewrite rev_involutive. exact Hlast.
Qed.

(** C2. When an update request carries a [customer_info] sub-payload for a
    customer whose [CustomerInfo] row exists and the request is answered,
    the stored [addons_with_amount] is the supplied one, [null] included,
    whatever was stored; the stored [final_premium_amount] is the value
    stored before when the payload has [null], and when a value was supplied
    it is that value stripped of surrounding white space: the supplied text
    is white space, the stored text, white space, and the stored text
    neither starts nor ends with white space. *)
Theorem update_existing_info_overwrites env db req d old resp db' :
  UpdateCustomerInfoRequest.customer_info req = Some d ->
  customer_info db !! CustomerInfoUpdateRequest.customer_name d = Some old ->
  get_db (update_customer_info req) env db = (Ok resp, db') ->
  exists new,
    customer_info db' !! CustomerInfoUpdateRequest.customer_name d = Some new /\
    CustomerInfo.addons_with_amount new =
      CustomerInfoUpdateRequest.addons_with_amount d /\
    CustomerInfo.final_premium_amount new =
      match CustomerInfoUpdateRequest.final_premium_amount d with
      | Some v => Some (strip v)
      | None => CustomerInfo.final_premium_amount old
      end /\
    (forall v,
       CustomerInfoUpdateRequest.final_premium_amount d = Some v ->
       exists stored l r,
         CustomerInfo.final_premium_amount new = Some stored /\
         v = l ++ stored ++ r /\
         forallb Py_UNICODE_ISSPACE l = true /\
         forallb Py_UNICODE_ISSPACE r = true /\
         match stored with
         | c :: _ => Py_UNICODE_ISSPACE c = false
         | [] => True
         end /\
         match rev stored with
         | c :: _ => Py_UNICODE_ISSPACE c = false
         | [] => True
         end).
Proof.
  intros Hreq Hold Hrun.
  apply update_customer_info_post in Hrun as (_ & _ & _ & Hresp).
  specialize (Hresp resp eq_refl) as [Hinfo _]. rewrite Hreq in Hinfo.
  destruct Hinfo as [-> _]. unfold upsert_info. rewrite Hold, lookup_insert_eq.
  eexists. split; [reflexivity|]. unfold merged_info.
  destruct (CustomerInfoUpdateRequest.final_premium_amount d) as [v|];
    (split; [reflexivity|]); (split; [reflexivity|]); [|discriminate].
  intros v' [= <-].
  destruct (strip_spec v) as (l & r & Hsplit & Hl & Hr & Hhd & Hlast).
  exists (strip v), l, r. repeat split; assumption.
Qed.

(** On the sample store: a payload with [null] twice clears the add-ons and
    keeps the premium, and the premium " 18,500 " is stored as "18,500". *)
Lemma update_existing_info_overwrites_witness :
  (exists new,
     customer_info (updated asha_info_only) !! asha = Some new /\
     CustomerInfo.addons_with_amount new = None /\
     CustomerInfo.final_premium_amount new = Some (py "15,000") /\
     (forall v,
        None = Some v ->
        exists stored l r,
          CustomerInfo.final_premium_amount new = Some stored /\
          v = l ++ stored ++ r /\
          forallb Py_UNICODE_ISSPACE l = true /\
          forallb Py_UNICODE_ISSPACE r = true /\
          match stored with
          | c :: _ => Py_UNICODE_ISSPACE c = false
          | [] => True
          end /\
          match rev stored with
          | c :: _ => Py_UNICODE_ISSPACE c = false
          | [] => True
          end)) /\
  (exists new,
     customer_info (updated padded_premium_only) !! asha = Some new /\
     CustomerInfo.addons_with_amount new = None /\
     CustomerInfo.final_premium_amount new = Some (py "18,500") /\
     (forall v,
        Some (py " 18,500 ") = Some v ->
        exists stored l r,
          CustomerInfo.final_premium_amount new = Some stored /\
          v = l ++ stored ++ r /\
          forallb Py_UNICODE_ISSPACE l = true /\
          forallb Py_UNICODE_ISSPACE r = true /\
          match stored with
          | c :: _ => Py_UNICODE_ISSPACE c = false
          | [] => True
          end /\
          match rev stored with
          | c :: _ => Py_UNICODE_ISSPACE c = false
          | [] => True
          end)).
Proof.
  split.
  - apply (update_existing_info_overwrites calm sample_db asha_info_only
             asha_info_clear asha_info (update_response asha_info_only)
             (updated asha_info_only)).
    + reflexivity.
    + vm_compute. reflexivity.
    + vm_compute. reflexivity.
  - apply (update_existing_info_overwrites calm sample_db padded_premium_only
             padded_premium asha_info (update_response padded_premium_only)
             (updated padded_premium_only)).
    + reflexivity.
    + vm_compute. reflexivity.
    + vm_compute. reflexivity.
Defined.

(** ** C10 *)

(** C10. When the [customer_info] sub-payload of an answered request
    supplies the empty string as [final_premium_amount], a customer without
    a [CustomerInfo] row gets one whose [final_premium_amount] is [null],
    and a customer with a row has its [final_premium_amount] overwritten
    with the empty string. *)
Theorem empty_premium_on_create_and_on_update env db req d resp db' :
  UpdateCustomerInfoRequest.customer_info req = Some d ->
  CustomerInfoUpdateRequest.final_premium_amount d = Some [] ->
  get_db (update_customer_info req) env db = (Ok resp, db') ->
  exists new,
    customer_info db' !! CustomerInfoUpdateRequest.customer_name d = Some new /\
    CustomerInfo.final_premium_amount new =
      match customer_info db !! CustomerInfoUpdateRequest.customer_name d with
      | None => None
      | Some _ => Some []
      end.
Proof.
  intros Hreq Hempty Hrun.
  apply update_customer_info_post in Hrun as (_ & _ & _ & Hresp).
  specialize (Hresp resp eq_refl) as [Hinfo _]. rewrite Hreq in Hinfo.
  destruct Hinfo as [-> _]. unfold upsert_info. rewrite lookup_insert_eq.
  eexists. split; [reflexivity|].
  destruct (customer_info db !! _); unfold merged_info, created_info;
    now rewrite Hempty.
Qed.

Lemma empty_premium_on_create_and_on_update_witness :
  (exists new,
     customer_info
       (get_db (update_customer_info
                  (UpdateCustomerInfoRequest.mk (Some (empty_premium asha)) None))
               calm sample_db).2 !! asha = Some new /\
     CustomerInfo.final_premium_amount new = Some []) /\
  (exists new,
     customer_info
       (get_db (update_customer_info
                  (UpdateCustomerInfoRequest.mk (Some (empty_premium asha)) None))
               calm empty_db).2 !! asha = Some new /\
     CustomerInfo.final_premium_amount new = None).
Proof.
  split.
  - apply (empty_premium_on_create_and_on_update calm sample_db
             (UpdateCustomerInfoRequest.mk (Some (empty_premium asha)) None)
             (empty_premium asha)
             (response_of no_update
                (get_db (update_customer_info
                           (UpdateCustomerInfoRequest.mk
                              (Some (empty_premium asha)) None))
                        calm sample_db)));
      [reflexivity | reflexivity | vm_compute; reflexivity].
  - apply (empty_premium_on_create_and_on_update calm empty_db
             (UpdateCustomerInfoRequest.mk (Some (empty_premium asha)) None)
             (empty_premium asha)
             (response_of no_update
                (get_db (update_customer_info
                           (UpdateCustomerInfoRequest.mk
                              (Some (empty_premium asha)) None))
                        calm empty_db)));
      [reflexivity | reflexivity | vm_compute; reflexivity].
Defined.

(** ** C7 *)

(** The two tables of updatable fields list the same names in the same
    order. *)
Lemma updatable_zip field get_req get_col :
  updatable field get_req get_col ->
  exists set_col,
    In ((field, get_req), (field, (get_col, set_col)))
       (zip CustomerPolicyUpdateRequest.optional_fields
            CustomerPolicies.text_columns).
Proof.
  intros [Hr [set_col Hc]]. exists set_col.
  cbn [CustomerPolicyUpdateRequest.optional_fields In] in Hr.
  cbn [CustomerPolicies.text_columns In] in Hc.
  in_cases Hr;
    repeat (destruct Hc as [Hc|Hc];
            [ first [ pose proof (f_equal fst Hc) as Hn; cbn [fst] in Hn;
                      vm_compute in Hn; discriminate Hn
                    | injection Hc; intros; subst;
                      cbn [zip zip_with CustomerPolicyUpdateRequest.optional_fields
                           CustomerPolicies.text_columns In];
                      tauto ]
            | ]);
    contradiction.
Qed.

(** The updatable fields are the seventeen optional fields of the request
    model, each paired with the column of its name. *)
Lemma updatable_fields :
  length CustomerPolicyUpdateRequest.optional_fields = 17%nat /\
  Forall (fun p => updatable p.1.1 p.1.2 p.2.2.1)
         (zip CustomerPolicyUpdateRequest.optional_fields
              CustomerPolicies.text_columns).
Proof.
  split; [reflexivity|].
  cbn [zip zip_with CustomerPolicyUpdateRequest.optional_fields
       CustomerPolicies.text_columns].
  repeat (apply List.Forall_cons;
          [ cbn [fst snd]; split;
            [ cbn [CustomerPolicyUpdateRequest.optional_fields In]
            | eexists; cbn [CustomerPolicies.text_columns In] ];
            repeat first [ left; reflexivity | right ]
          | ]).
  apply List.Forall_nil.
Qed.

(** The constructor call of lines 463-483 stores each updatable field as the
    request model reads it: the supplied value, or [None]. *)
Lemma created_policy_fields d t0 t1 t2 field get_req get_col :
  updatable field get_req get_col ->
  get_col (created_policy d t0 t1 t2) = value_of (get_req d).
Proof.
  intros H. apply updatable_zip in H as [set_col H].
  cbn [zip zip_with CustomerPolicyUpdateRequest.optional_fields
       CustomerPolicies.text_columns In] in H.
  in_cases H; reflexivity.
Qed.



(** ** C9 *)

(** C9. Whatever an update request carries and however it ends, every
    [CustomerPolicies] row that existed keeps its [customer_since] and its
    [last_policy_renewal]; and a row of the store whose
    [last_policy_renewal] is not [null] after the request had that same value
    before the request. *)
Theorem update_keeps_since_and_renewal env db req r db' :
  get_db (update_customer_info req) env db = (r, db') ->
  (forall name old,
     customer_policies db !! name = Some old ->
     exists new,
       customer_policies db' !! name = Some new /\
       CustomerPolicies.customer_since new = CustomerPolicies.customer_since old /\
       CustomerPolicies.last_policy_renewal new =
         CustomerPolicies.last_policy_renewal old) /\
  (forall name new day,
     customer_policies db' !! name = Some new ->
     CustomerPolicies.last_policy_renewal new = Some day ->
     exists old,
       customer_policies db !! name = Some old /\
       CustomerPolicies.last_policy_renewal old = Some day).
Proof.
  intros Hrun.
  apply update_customer_info_post in Hrun as (_ & _ & [->|(d & _ & ->)] & _).
  { split; intros; eauto. }
  unfold upsert_policy. split.
  - intros name old Hold.
    destruct (decide (CustomerPolicyUpdateRequest.customer_name d = name)) as [<-|Hne].
    + rewrite Hold, lookup_insert_eq. eexists. split; [reflexivity|].
      unfold merged_policy.
      destruct (apply_items_kept
                  (CustomerPolicyUpdateRequest.dict_exclude_unset d) old)
        as (Hsince & Hrenewal & _).
      split; [exact Hsince | exact Hrenewal].
    + rewrite lookup_insert_ne by exact Hne. eauto.
  - intros name new day Hnew Hday.
    destruct (decide (CustomerPolicyUpdateRequest.customer_name d = name)) as [<-|Hne].
    + rewrite lookup_insert_eq in Hnew. injection Hnew as <-.
      destruct (customer_policies db !! _) as [old|]; [|discriminate].
      exists old. split; [reflexivity|].
      destruct (apply_items_kept
                  (CustomerPolicyUpdateRequest.dict_exclude_unset d) old)
        as (_ & Hrenewal & _).
      rewrite <- Hrenewal. exact Hday.
    + rewrite lookup_insert_ne in Hnew by exact Hne. eauto.
Qed.

Lemma update_keeps_since_and_renewal_witness :
  (forall name old,
     customer_policies sample_db !! name = Some old ->
     exists new,
       customer_policies
         (get_db (update_customer_info
                    (UpdateCustomerInfoRequest.mk None (Some asha_policy_update)))
                 calm sample_db).2 !! name = Some new /\
       CustomerPolicies.customer_since new = CustomerPolicies.customer_since old /\
       CustomerPolicies.last_policy_renewal new =
         CustomerPolicies.last_policy_renewal old) /\
  (forall name new day,
     customer_policies
       (get_db (update_customer_info
                  (UpdateCustomerInfoRequest.mk None (Some asha_policy_update)))
               calm sample_db).2 !! name = Some new ->
     CustomerPolicies.last_policy_renewal new = Some day ->
     exists old,
       customer_policies sample_db !! name = Some old /\
       CustomerPolicies.last_policy_renewal old = Some day).
Proof.
  apply (update_keeps_since_and_renewal calm sample_db
           (UpdateCustomerInfoRequest.mk None (Some asha_policy_update))
           (get_db (update_customer_info
                      (UpdateCustomerInfoRequest.mk None (Some asha_policy_update)))
                   calm sample_db).1).
  vm_compute. reflexivity.
Defined.

(** ** C8 *)

(** C8. When a request carries both sub-payloads, the [customer_info]
    sub-payload has been processed (its upsert committed) and the processing
    of the [customer_policy] sub-payload raises, the request fails, what the
    session had not committed is rolled back and nothing else: the store
    stays as the failing sub-payload left it, with the [customer_info]
    upsert in it. *)
Theorem info_commit_survives_policy_failure env db req info policy echo s1 e s2 :
  UpdateCustomerInfoRequest.customer_info req = Some info ->
  UpdateCustomerInfoRequest.customer_policy req = Some policy ->
  update_customer_info_part info env (open_session db) = (Ok echo, s1) ->
  update_customer_policy_part policy env s1 = (Raise e, s2) ->
  exists s3,
    update_customer_info req env (open_session db) = (Raise (reraise e), s3) /\
    customer_info (store s1) = upsert_info info (customer_info db) /\
    store s3 = store s2 /\
    customer_info (store s3) = customer_info (store s1) /\
    work s3 = store s3 /\
    added s3 = [] /\
    (customer_policies (store s3) = customer_policies db \/
     customer_policies (store s3) =
       upsert_policy (utcnow env) 0 policy (customer_policies db)).
Proof.
  intros Hinfo Hpolicy H1 H2.
  exists (session (store s2) (store s2) [] (round_trips s2) (clock_reads s2)).
  split.
  { destruct req as [i p]. cbn in Hinfo, Hpolicy. subst i p.
    unfold update_customer_info, update_customer_info_body, try_except,
      if_present.
    cbn [UpdateCustomerInfoRequest.customer_info
         UpdateCustomerInfoRequest.customer_policy].
    unfold bind. rewrite H1. unfold ret at 1. rewrite H2. reflexivity. }
  pose proof (wp_run _ _ _ _ _ _
    (wp_update_customer_info_part env info
       (fun r s =>
          match r with
          | Ok _ =>
              s = session
                    (with_customer_info (upsert_info info (customer_info db)) db)
                    (with_customer_info (upsert_info info (customer_info db)) db)
                    [] 3 0
          | Raise _ => True
          end) db 0 0 (fun _ _ _ _ => I) (fun _ => I) (fun _ _ => eq_refl)) H1) as Hs1.
  cbn beta iota in Hs1. subst s1.
  assert (Hs2 :
    customer_info (store s2) = upsert_info info (customer_info db) /\
    (customer_policies (store s2) = customer_policies db \/
     customer_policies (store s2) =
       upsert_policy (utcnow env) 0 policy (customer_policies db))).
  { refine (wp_run _ _
              (fun _ s =>
                 customer_info (store s) = upsert_info info (customer_info db) /\
                 (customer_policies (store s) = customer_policies db \/
                  customer_policies (store s) =
                    upsert_policy (utcnow env) 0 policy (customer_policies db)))
              _ _ _ _ H2).
    apply wp_update_customer_policy_part; intros; table_simpl; auto. }
  destruct Hs2 as [Hi Hp].
  cbn [store work added]. repeat split; auto.
Qed.

Lemma info_commit_survives_policy_failure_witness :
  exists s3,
    update_customer_info both_for_asha policy_commit_fails (open_session sample_db)
      = (Raise (HTTPException 500 (py "Internal server error: connection lost")), s3) /\
    customer_info
      (store (update_customer_info_part asha_info_clear policy_commit_fails
                (open_session sample_db)).2) =
      upsert_info asha_info_clear (customer_info sample_db) /\
    store s3 =
      store (update_customer_policy_part asha_policy_update policy_commit_fails
               (update_customer_info_part asha_info_clear policy_commit_fails
                  (open_session sample_db)).2).2 /\
    customer_info (store s3) =
      customer_info
        (store (update_customer_info_part asha_info_clear policy_commit_fails
                  (open_session sample_db)).2) /\
    work s3 = store s3 /\
    added s3 = [] /\
    (customer_policies (store s3) = customer_policies sample_db \/
     customer_policies (store s3) =
       upsert_policy (utcnow policy_commit_fails) 0 asha_policy_update
         (customer_policies sample_db)).
Proof.
  apply (info_commit_survives_policy_failure policy_commit_fails sample_db
           both_for_asha asha_info_clear asha_policy_update
           (CustomerInfo.mk asha (Some (py "15,000")) None)
           _ (DBAPIError (py "connection lost")) _).
  - reflexivity.
  - reflexivity.
  - vm_compute. reflexivity.
  - vm_compute. reflexivity.
Defined.

(** * The lookup endpoint *)

(** ** The order of the claims does not matter to the summary *)

Lemma insert_desc_perm c l : insert_desc c l ≡ₚ c :: l.
Proof.
  induction l as [|d l IH]; cbn [insert_desc]; [reflexivity|].
  destruct (submitted_before d c); [reflexivity|].
  rewrite IH. apply Permutation_swap.
Qed.

Lemma order_by_date_submitted_desc_perm l :
  order_by_date_submitted_desc l ≡ₚ l.
Proof.
  unfold order_by_date_submitted_desc.
  induction l as [|c l IH]; cbn [foldr]; [reflexivity|].
  now rewrite insert_desc_perm, IH.
Qed.

Lemma with_status_length_perm label l l' :
  l ≡ₚ l' -> length (with_status label l) = length (with_status label l').
Proof. unfold with_status. now intros ->. Qed.

(** ** Exceptions of the summary *)

Lemma int_not_zero_division pf s e : int pf s = Raise e -> ~ is_zero_division e.
Proof.
  unfold int. destruct (int_literal pf s); [discriminate|].
  intros [= <-]. exact id.
Qed.

Lemma sum_amounts_not_zero_division pf claims total e :
  sum_amounts pf claims total = Raise e -> ~ is_zero_division e.
Proof.
  revert total. induction claims as [|c claims IH]; intros total; cbn [sum_amounts].
  - discriminate.
  - destruct (isdigit pf (amount_str c)); [|apply IH].
    destruct (int pf (amount_str c)) as [n|e'] eqn:E; [apply IH|].
    intros [= <-]. eapply int_not_zero_division; eauto.
Qed.

(** Line 217 never divides by zero. *)
Lemma approval_rate_of_total approved total :
  approval_rate_of approved total =
  Ok (if (0 <? total)%Z
      then PyFloat (float_round
                      (float_mul_int
                         (SFdiv prec emax (int_to_SF approved) (int_to_SF total))
                         100) 2)
      else PyInt 0).
Proof.
  unfold approval_rate_of, long_true_divide.
  destruct (0 <? total)%Z eqn:Hpos; [|reflexivity].
  destruct (total =? 0)%Z eqn:Hz; [lia|reflexivity].
Qed.

(** ** What a lookup returns *)

Lemma wp_get_customer_info_body env db name :
  wp (get_customer_info_body name) env
     (fun r s => lookup_post env db name r /\ store s = db)
     (open_session db).
Proof.
  unfold get_customer_info_body, open_session. wp_go.
  destruct (db_fault env 0) as [msg|]; wp_go; [now split|].
  destruct (customer_policies db !! name) as [p|] eqn:Hp; wp_go; [|now split].
  unfold claims_of. wp_go.
  destruct (db_fault env 1) as [msg|]; wp_go; [now split|].
  fold (claims_for name db).
  set (claims := order_by_date_submitted_desc (claims_for name db)).
  fold (with_status (py "APPROVED") claims).
  fold (with_status (py "REJECTED") claims).
  fold (with_status (py "UNDER_REVIEW") claims).
  destruct (sum_amounts (platform env) (with_status (py "APPROVED") claims) 0)
    as [approved_sum|e] eqn:Ha; wp_go;
    [|split; [eapply sum_amounts_not_zero_division; eauto|reflexivity]].
  destruct (sum_amounts (platform env) (with_status (py "REJECTED") claims) 0)
    as [rejected_sum|e] eqn:Hr; wp_go;
    [|split; [eapply sum_amounts_not_zero_division; eauto|reflexivity]].
  rewrite approval_rate_of_total. wp_go.
  destruct claims as [|claim rest] eqn:Hclaims; wp_go.
  - split; [|reflexivity]. exists p, approved_sum, rejected_sum, None.
    cbn zeta. fold claims. rewrite Hclaims.
    repeat split; try assumption.
  - destruct (InsuranceClaims.date_submitted claim) as [d|]; wp_go;
      [|split; [exact id|reflexivity]].
    split; [|reflexivity].
    exists p, approved_sum, rejected_sum, (Some (datetime_isoformat d)).
    cbn zeta. fold claims. rewrite Hclaims.
    repeat split; try assumption.
Qed.

Lemma get_customer_info_post env db name r db' :
  get_db (get_customer_info name) env db = (r, db') ->
  db' = db /\
  match r with
  | Ok resp => lookup_post env db name (Ok resp)
  | Raise _ => True
  end.
Proof.
  revert r db'. apply get_db_wp. unfold get_customer_info. wp_go.
  eapply wp_mono; [apply wp_get_customer_info_body|].
  intros [resp|e] s [Hpost <-]; wp_go; now split.
Qed.


(** ** C3 *)

(** The integer nearest to a quotient is within half a unit of it. *)
Lemma round_half_even_div_nearest n d :
  (0 < d)%Z -> (2 * Z.abs (round_half_even_div n d * d - n) <= d)%Z.
Proof.
  intros Hd. unfold round_half_even_div.
  pose proof (Z.div_mod n d ltac:(lia)) as Hdiv.
  pose proof (Z.mod_pos_bound n d Hd) as Hmod.
  set (q := (n / d)%Z) in *. set (r := (n mod d)%Z) in *. clearbody q r.
  subst n.
  assert (Hdown : (q * d - (d * q + r) = - r)%Z) by ring.
  assert (Hup : ((q + 1) * d - (d * q + r) = d - r)%Z) by ring.
  destruct (Z.compare_spec (2 * r) d) as [Heq|Hlt|Hgt];
    [destruct (Z.even q)| |]; rewrite ?Hdown, ?Hup; lia.
Qed.



(** [round(x, ndigits)] of a float with a fractional part goes through the
    multiple of [10^-ndigits] nearest to the exact value of [x]. *)
Lemma float_round_nearest_decimal s m e ndigits :
  (e < 0)%Z ->
  exists k,
    (2 * Z.abs (k * 2 ^ (- e) - Zpos m * 10 ^ Z.of_N ndigits) <= 2 ^ (- e))%Z /\
    float_round (S754_finite s m e) ndigits =
      if (k =? 0)%Z then S754_zero s
      else SFdiv prec emax (int_to_SF (if s then (- k)%Z else k))
                           (int_to_SF (10 ^ Z.of_N ndigits)).
Proof.
  intros He.
  exists (round_half_even_div (Zpos m * 10 ^ Z.of_N ndigits) (2 ^ (- e))).
  split.
  - apply round_half_even_div_nearest. apply Z.pow_pos_nonneg; lia.
  - unfold float_round. destruct (0 <=? e)%Z eqn:Hle; [lia|reflexivity].
Qed.

(** ** C4 *)

(** Every claim is in exactly one of the three buckets or in none. *)
Lemma buckets_partition (claims : list InsuranceClaims.t) :
  length claims =
  (length (with_status (py "APPROVED") claims) +
   length (with_status (py "REJECTED") claims) +
   length (with_status (py "UNDER_REVIEW") claims) +
   length (filter other_status claims))%nat.
Proof.
  unfold with_status.
  induction claims as [|c claims IH]; [reflexivity|].
  rewrite !filter_cons.
  destruct (decide (InsuranceClaims.status c = py "APPROVED")) as [Ha|Ha];
  destruct (decide (InsuranceClaims.status c = py "REJECTED")) as [Hr|Hr];
  destruct (decide (InsuranceClaims.status c = py "UNDER_REVIEW")) as [Hu|Hu];
  destruct (decide (other_status c)) as [Ho|Ho];
    cbn [length];
    first
      [ lia
      | exfalso; unfold other_status in *;
        first
          [ tauto
          | rewrite Ha in Hr; vm_compute in Hr; discriminate Hr
          | rewrite Ha in Hu; vm_compute in Hu; discriminate Hu
          | rewrite Hr in Hu; vm_compute in Hu; discriminate Hu ] ].
Qed.

(** C4. When a lookup is answered, [total_claims] counts every claim of the
    customer, and [approved_claims], [rejected_claims] and
    [under_review_claims] count the claims whose status is the string
    APPROVED, REJECTED and UNDER_REVIEW respectively, compared code point by
    code point: a claim is in a bucket if and only if its status is that
    string, and a claim with any other status is in none of the three while
    it counts in the total. *)
Theorem status_buckets_are_exact env db name resp db' :
  get_db (get_customer_info name) env db = (Ok resp, db') ->
  let claims := claims_for name db in
  let summary := CustomerInfoResponse.claims_summary resp in
  ClaimsSummary.total_claims summary = Z.of_nat (length claims) /\
  ClaimsSummary.approved_claims summary =
    Z.of_nat (length (with_status (py "APPROVED") claims)) /\
  ClaimsSummary.rejected_claims summary =
    Z.of_nat (length (with_status (py "REJECTED") claims)) /\
  ClaimsSummary.under_review_claims summary =
    Z.of_nat (length (with_status (py "UNDER_REVIEW") claims)) /\
  (forall label c,
     c ∈ with_status label claims <->
     c ∈ claims /\ InsuranceClaims.status c = label) /\
  (forall c,
     c ∈ claims -> other_status c ->
     (c ∉ with_status (py "APPROVED") claims) /\
     (c ∉ with_status (py "REJECTED") claims) /\
     (c ∉ with_status (py "UNDER_REVIEW") claims)) /\
  ClaimsSummary.total_claims summary =
    (ClaimsSummary.approved_claims summary +
     ClaimsSummary.rejected_claims summary +
     ClaimsSummary.under_review_claims summary +
     Z.of_nat (length (filter other_status claims)))%Z.
Proof.
  intros E. apply get_customer_info_post in E as [_ Hpost].
  destruct Hpost as (p & sa & sr & last & _ & _ & _ & _ & Hresp).
  cbn zeta. rewrite Hresp.
  cbn [lookup_response CustomerInfoResponse.claims_summary
       ClaimsSummary.total_claims ClaimsSummary.approved_claims
       ClaimsSummary.rejected_claims ClaimsSummary.under_review_claims].
  pose proof (order_by_date_submitted_desc_perm (claims_for name db)) as Hperm.
  rewrite !(with_status_length_perm _ _ _ Hperm), (Permutation_length Hperm).
  split; [reflexivity|]. split; [reflexivity|]. split; [reflexivity|].
  split; [reflexivity|]. split; [|split].
  - intros label c. unfold with_status. rewrite list_elem_of_filter. tauto.
  - intros c _ (Ha & Hr & Hu). unfold with_status.
    rewrite !list_elem_of_filter. tauto.
  - rewrite (buckets_partition (claims_for name db)) at 1. lia.
Qed.

Lemma status_buckets_are_exact_witness :
  let claims := claims_for asha claims_db in
  let summary :=
    CustomerInfoResponse.claims_summary
      (response_of no_lookup (get_db (get_customer_info asha) calm claims_db)) in
  ClaimsSummary.total_claims summary = Z.of_nat (length claims) /\
  ClaimsSummary.approved_claims summary =
    Z.of_nat (length (with_status (py "APPROVED") claims)) /\
  ClaimsSummary.rejected_claims summary =
    Z.of_nat (length (with_status (py "REJECTED") claims)) /\
  ClaimsSummary.under_review_claims summary =
    Z.of_nat (length (with_status (py "UNDER_REVIEW") claims)) /\
  (forall label c,
     c ∈ with_status label claims <->
     c ∈ claims /\ InsuranceClaims.status c = label) /\
  (forall c,
     c ∈ claims -> other_status c ->
     (c ∉ with_status (py "APPROVED") claims) /\
     (c ∉ with_status (py "REJECTED") claims) /\
     (c ∉ with_status (py "UNDER_REVIEW") claims)) /\
  ClaimsSummary.total_claims summary =
    (ClaimsSummary.approved_claims summary +
     ClaimsSummary.rejected_claims summary +
     ClaimsSummary.under_review_claims summary +
     Z.of_nat (length (filter other_status claims)))%Z.
Proof.
  apply (status_buckets_are_exact calm claims_db asha
           (response_of no_lookup (get_db (get_customer_info asha) calm claims_db))
           claims_db).
  vm_compute. reflexivity.
Defined.

(** The sample lookup: three claims, one approved, one rejected, and the
    claim under the status "Under Review" in no bucket. *)
Example sample_lookup_counts :
  let summary :=
    CustomerInfoResponse.claims_summary
      (response_of no_lookup (get_db (get_customer_info asha) calm claims_db)) in
  ClaimsSummary.total_claims summary = 3%Z /\
  ClaimsSummary.approved_claims summary = 1%Z /\
  ClaimsSummary.rejected_claims summary = 1%Z /\
  ClaimsSummary.under_review_claims summary = 0%Z /\
  ClaimsSummary.total_approved_amount summary = py "45,000" /\
  ClaimsSummary.total_rejected_amount summary = py "8,000".
Proof. vm_compute. repeat split. Qed.

(** ** C5 *)

Lemma sum_amounts_Ok pf claims total v :
  sum_amounts pf claims total = Ok v ->
  v = (total + sum_Z (amount_value pf <$> claims))%Z.
Proof.
  revert total. induction claims as [|c claims IH]; intros total;
    cbn [sum_amounts fmap list_fmap sum_Z foldr].
  - intros [= <-]. lia.
  - unfold amount_value at 1. fold (sum_Z (amount_value pf <$> claims)).
    destruct (isdigit pf (amount_str c)).
    + unfold int. destruct (int_literal pf (amount_str c)) as [n|]; [|discriminate].
      intros H. apply IH in H. lia.
    + intros H. apply IH in H. lia.
Qed.

Lemma sum_Z_perm l l' : l ≡ₚ l' -> sum_Z l = sum_Z l'.
Proof.
  unfold sum_Z. induction 1; cbn [foldr]; lia.
Qed.

(** When a lookup is answered, the two totals are the sums of the values of
    the approved and of the rejected claims, written with thousands
    separators. *)
Lemma totals_of_lookup env db name resp db' :
  get_db (get_customer_info name) env db = (Ok resp, db') ->
  let summary := CustomerInfoResponse.claims_summary resp in
  ClaimsSummary.total_approved_amount summary =
    format_comma
      (sum_Z (amount_value (platform env) <$>
              with_status (py "APPROVED") (claims_for name db))) /\
  ClaimsSummary.total_rejected_amount summary =
    format_comma
      (sum_Z (amount_value (platform env) <$>
              with_status (py "REJECTED") (claims_for name db))).
Proof.
  intros E. apply get_customer_info_post in E as [_ Hpost].
  destruct Hpost as (p & sa & sr & last & _ & Ha & Hr & _ & Hresp).
  cbn zeta. rewrite Hresp.
  cbn [lookup_response CustomerInfoResponse.claims_summary
       ClaimsSummary.total_approved_amount ClaimsSummary.total_rejected_amount].
  apply sum_amounts_Ok in Ha, Hr.
  pose proof (order_by_date_submitted_desc_perm (claims_for name db)) as Hperm.
  assert (Hsum : forall label,
    sum_Z (amount_value (platform env) <$>
           with_status label (order_by_date_submitted_desc (claims_for name db))) =
    sum_Z (amount_value (platform env) <$> with_status label (claims_for name db))).
  { intros label. apply sum_Z_perm. unfold with_status. now rewrite Hperm. }
  rewrite Hsum in Ha, Hr. subst sa sr. split; f_equal; lia.
Qed.

(** The spec's example: the residue of the amount "₹45,000" is 45000, on any
    platform. *)
Example rupees_45000 pf :
  amount_value pf (claim "CLM-1" (RUPEE ++ py "45,000") (py "APPROVED") 10)
  = 45000%Z.
Proof. reflexivity. Qed.

(** A residue that is empty or holds a character that is no digit adds
    nothing and raises nothing. *)
Lemma not_isdigit_adds_nothing pf c claims total :
  isdigit pf (amount_str c) = false ->
  sum_amounts pf (c :: claims) total = sum_amounts pf claims total.
Proof. intros H. cbn [sum_amounts]. now rewrite H. Qed.

(** On every platform [isdigit] accepts SUPERSCRIPT TWO and [int] refuses
    it. *)
Lemma superscript_two_isdigit_not_int pf :
  isdigit pf [178] = true /\
  int pf [178] =
    Raise (ValueError
             (py "invalid literal for int() with base 10: " ++ py_repr pf [178])).
Proof. split; reflexivity. Qed.

(** C5 (at the failing input). The amount "²" leaves the residue "²", which
    [isdigit] accepts and [int] refuses: the lookup does not skip the claim,
    it fails with status 500. *)
Theorem superscript_amount_fails_lookup :
  get_db (get_customer_info asha) calm superscript_db =
  (Raise (HTTPException 500
            (py "Internal server error: invalid literal for int() with base 10: '"
             ++ [178] ++ py "'")),
   superscript_db).
Proof. vm_compute. reflexivity. Qed.

(** * The search endpoint *)

Lemma search_customers_run env db name :
  db_fault env 0 = None ->
  get_db (search_customers name) env db =
  (match selected (platform env) name db with
   | [] =>
       if truthy name then
         Raise (HTTPException 404
                  (py "No customers found with name containing '" ++
                   default [] name ++ py "'"))
       else Ok (SearchResponse.mk None 0 [])
   | customers =>
       Ok (SearchResponse.mk (Some name)
             (Z.of_nat (length (customer_summary <$> customers)))
             (customer_summary <$> customers))
   end, db).
Proof.
  intros H0.
  destruct (get_db (search_customers name) env db) as [r db'] eqn:E.
  revert r db' E. apply get_db_wp.
  unfold search_customers, search_customers_body, all_CustomerPolicies,
    open_session, selected.
  wp_go. rewrite H0. wp_go.
  destruct name as [[|c n]|]; cbn [truthy default from_option id];
    match goal with
    | |- context [match ?l with [] => _ | _ :: _ => _ end] => destruct l
    end; wp_go; reflexivity.
Qed.

(** ** [LIKE] with a pattern [%name%] *)

Lemma like_match_any pf tokens s :
  like_match pf (any_string :: tokens) s = true <->
  exists l t, s = l ++ t /\ like_match pf tokens t = true.
Proof.
  change (like_match pf (any_string :: tokens)) with
    (fix any (s : pystr) : bool :=
       like_match pf tokens s || match s with [] => false | _ :: s' => any s' end).
  induction s as [|c s IH].
  - rewrite orb_false_r. split.
    + intros H. now exists [], [].
    + intros (l & t & Hs & Ht). symmetry in Hs.
      apply app_eq_nil in Hs as [-> ->]. exact Ht.
  - rewrite orb_true_iff, IH. split.
    + intros [H|(l & t & Hs & Ht)].
      * now exists [], (c :: s).
      * exists (c :: l), t. now rewrite Hs.
    + intros ([|c' l] & t & Hs & Ht).
      * left. cbn [app] in Hs. now rewrite Hs.
      * right. injection Hs as -> ->. now exists l, t.
Qed.

Lemma like_percent_all pf s : like pf [37] s = true.
Proof.
  unfold like. cbn [like_tokens N.eqb Pos.eqb fmap option_fmap option_map].
  apply like_match_any. exists s, []. now rewrite app_nil_r.
Qed.

(** A leading [%] lets the rest of the pattern match any suffix. *)
Lemma like_percent pf p s :
  like pf (37 :: p) s = true <-> exists l t, s = l ++ t /\ like pf p t = true.
Proof.
  unfold like. cbn [like_tokens N.eqb Pos.eqb].
  destruct (like_tokens p None) as [tokens|]; cbn [fmap option_fmap option_map].
  - apply like_match_any.
  - split; [discriminate|]. now intros (l & t & _ & H).
Qed.

(** A pattern without wildcards stands for its own characters. *)
Lemma like_tokens_literal p q :
  wildcard_free p ->
  like_tokens (p ++ q) None = app (literal <$> p) <$> like_tokens q None.
Proof.
  induction 1 as [|c p (H37 & H95 & H91) _ IH]; cbn [app like_tokens].
  - now destruct (like_tokens q None).
  - rewrite (proj2 (N.eqb_neq c 91) H91), (proj2 (N.eqb_neq c 37) H37),
      (proj2 (N.eqb_neq c 95) H95), IH.
    now destruct (like_tokens q None).
Qed.

Lemma like_match_literal pf p tokens s :
  like_match pf ((literal <$> p) ++ tokens) s = true <->
  exists r, s = p ++ r /\ like_match pf tokens r = true.
Proof.
  revert s. induction p as [|c p IH]; intros s; cbn [fmap list_fmap app].
  - split; [intros H; now exists s|now intros (r & -> & H)].
  - cbn [like_match]. destruct s as [|d s].
    + split; [discriminate|]. intros (r & Hr & _). discriminate.
    + rewrite andb_true_iff, N.eqb_eq, IH. split.
      * intros [-> (r & -> & H)]. now exists r.
      * intros (r & [= -> ->] & H). split; [reflexivity|now exists r].
Qed.

(** A pattern without wildcards followed by [%] matches the strings it is a
    prefix of. *)
Lemma like_prefix pf p s :
  wildcard_free p ->
  like pf (p ++ [37]) s = true <-> exists r, s = p ++ r.
Proof.
  intros Hp. unfold like. rewrite (like_tokens_literal _ _ Hp).
  cbn [like_tokens N.eqb Pos.eqb fmap option_fmap option_map].
  rewrite like_match_literal. split.
  - intros (r & -> & _). now exists r.
  - intros (r & ->). exists r. split; [reflexivity|].
    apply like_match_any. exists r, []. now rewrite app_nil_r.
Qed.

(** For a name without wildcards, [ilike] with [%name%] is containment up to
    the store's case folding. *)
Lemma ilike_contains pf name s :
  wildcard_free (LOWER pf <$> name) ->
  ilike pf (py "%" ++ name ++ py "%") s = true <->
  exists l r, LOWER pf <$> s = l ++ (LOWER pf <$> name) ++ r.
Proof.
  intros Hfree. unfold ilike.
  rewrite !fmap_app.
  change (LOWER pf <$> py "%") with [37].
  change ([37] ++ ?q) with (37 :: q).
  rewrite like_percent. split.
  - intros (l & t & Hs & Ht). apply like_prefix in Ht as [r ->]; [|exact Hfree].
    now exists l, r.
  - intros (l & r & Hs). exists l, ((LOWER pf <$> name) ++ r). split; [exact Hs|].
    apply like_prefix; [exact Hfree|]. now exists r.
Qed.

(** ** C6 *)

Lemma filter_all_false {A} (f : A -> bool) l :
  (forall x, In x l -> f x = false) -> List.filter f l = [].
Proof.
  induction l as [|x l IH]; intros H; cbn [List.filter]; [reflexivity|].
  rewrite (H x (or_introl eq_refl)). apply IH. intros y Hy. apply H. now right.
Qed.

(** A row whose name contains the filter, up to the case folding of the
    store: the case-insensitive substring match of the spec. *)
Lemma no_row_selected pf name db :
  truthy name = true ->
  wildcard_free (LOWER pf <$> default [] name) ->
  (forall c, In c (rows (customer_policies db)) ->
     ~ exists l r,
         LOWER pf <$> CustomerPolicies.customer_name c =
         l ++ (LOWER pf <$> default [] name) ++ r) ->
  selected pf name db = [].
Proof.
  intros Ht Hfree Hnone. unfold selected. rewrite Ht.
  apply filter_all_false. intros c Hc. apply not_true_is_false. intros Hm.
  apply (Hnone c Hc). now apply ilike_contains.
Qed.

(** C6, as the code has it.  While the store answers the query: a search
    with a non-empty name filter that holds none of [%], [_] and [[] fails
    with 404 when no [CustomerPolicies] row has a name that contains the
    filter, up to the store's case folding; a search without a filter, or
    with the empty string as filter, on an empty table succeeds with an
    empty list and total 0. *)
Theorem search_not_found_and_empty_listing env db name :
  db_fault env 0 = None ->
  (truthy name = true ->
   wildcard_free (LOWER (platform env) <$> default [] name) ->
   (forall c, In c (rows (customer_policies db)) ->
      ~ exists l r,
          LOWER (platform env) <$> CustomerPolicies.customer_name c =
          l ++ (LOWER (platform env) <$> default [] name) ++ r) ->
   get_db (search_customers name) env db =
   (Raise (HTTPException 404
             (py "No customers found with name containing '" ++
              default [] name ++ py "'")), db)) /\
  (truthy name = false ->
   customer_policies db = ∅ ->
   get_db (search_customers name) env db =
   (Ok (SearchResponse.mk None 0 []), db)).
Proof.
  intros H0. rewrite (search_customers_run env db name H0).
  split.
  - intros Ht Hfree Hnone.
    rewrite (no_row_selected _ _ _ Ht Hfree Hnone), Ht. reflexivity.
  - intros Hf Hempty. unfold selected. rewrite Hf, Hempty. unfold rows.
    rewrite map_to_list_empty. reflexivity.
Qed.

Lemma sample_db_rows : rows (customer_policies sample_db) = [asha_policy].
Proof. vm_compute. reflexivity. Qed.

(** The name of the sample store's customer, lowered, holds no [c]. *)
Ltac not_in_asha pf c :=
  let H := fresh "H" in
  let Hin := fresh "Hin" in
  intros (? & ? & H);
  assert (Hin : In c (LOWER pf <$> CustomerPolicies.customer_name asha_policy))
    by (rewrite H; apply in_or_app; right; apply in_or_app; left;
        vm_compute; tauto);
  vm_compute in Hin;
  repeat (destruct Hin as [Hin|Hin]; [discriminate Hin|]); exact Hin.

Lemma search_not_found_and_empty_listing_witness :
  get_db (search_customers (Some (py "zz"))) calm sample_db =
    (Raise (HTTPException 404
              (py "No customers found with name containing '" ++ py "zz" ++ py "'")),
     sample_db) /\
  get_db (search_customers None) calm empty_db =
    (Ok (SearchResponse.mk None 0 []), empty_db).
Proof.
  pose proof (search_not_found_and_empty_listing calm sample_db
                (Some (py "zz")) eq_refl) as (Hnot_found & _).
  pose proof (search_not_found_and_empty_listing calm empty_db None eq_refl)
    as (_ & Hempty).
  split.
  - apply Hnot_found; [reflexivity| |].
    + repeat (apply List.Forall_cons; [repeat split; discriminate|]).
      apply List.Forall_nil.
    + intros c Hc. rewrite sample_db_rows in Hc. destruct Hc as [<-|[]].
      not_in_asha (platform calm) 122.
  - apply Hempty; reflexivity.
Defined.

(** C6 fails as stated on the empty string.  It is a filter that was
    supplied, the table is empty, so that no row matches it, and the search
    answers with the empty listing, not with 404: the handler tests the
    filter with [if name:], and the empty string is falsy. *)
Lemma search_with_empty_string_filter :
  rows (customer_policies empty_db) = [] /\
  get_db (search_customers (Some [])) calm empty_db =
    (Ok (SearchResponse.mk None 0 []), empty_db).
Proof. split; vm_compute; reflexivity. Qed.

(** The handler passes the filter to [LIKE] as it is (line 279), so that a
    filter with [_], with a set in brackets or with [%] is read as a pattern
    and not as the text to look for, against the docstring of the handler
    and the detail of its 404.  On the sample store the filters "a_h", "[a]"
    and "%" each list Asha, whose name contains none of them, and the filter
    "a[", an open set, finds nobody whatever the names are. *)
Lemma search_filter_is_read_as_a_pattern :
  Forall
    (fun filter =>
       get_db (search_customers (Some filter)) calm sample_db =
         (Ok (SearchResponse.mk (Some (Some filter)) 1
                [customer_summary asha_policy]), sample_db) /\
       ~ exists l r,
           LOWER ascii_platform <$> CustomerPolicies.customer_name asha_policy =
           l ++ (LOWER ascii_platform <$> filter) ++ r)
    [py "a_h"; py "[a]"; py "%"] /\
  forall pf s, ilike pf (py "%" ++ py "a[" ++ py "%") s = false.
Proof.
  split.
  - apply List.Forall_cons; [split; [vm_compute; reflexivity|not_in_asha ascii_platform 95]|].
    apply List.Forall_cons; [split; [vm_compute; reflexivity|not_in_asha ascii_platform 91]|].
    apply List.Forall_cons; [split; [vm_compute; reflexivity|not_in_asha ascii_platform 37]|].
    apply List.Forall_nil.
  - reflexivity.
Qed.

(** * Further properties of the endpoints *)

(** A lookup of a name without a [CustomerPolicies] row fails with 404 as
    soon as the store answers the query. *)
Theorem lookup_of_unknown_customer env db name :
  db_fault env 0 = None ->
  customer_policies db !! name = None ->
  get_db (get_customer_info name) env db =
  (Raise (HTTPException 404
            (py "Customer '" ++ name ++ py "' not found in customer policies")),
   db).
Proof.
  intros H0 Hnone.
  destruct (get_db (get_customer_info name) env db) as [r db'] eqn:E.
  revert r db' E. apply get_db_wp.
  unfold get_customer_info, get_customer_info_body, open_session. wp_go.
  rewrite H0. wp_go. rewrite Hnone. wp_go. reflexivity.
Qed.

Lemma lookup_of_unknown_customer_witness :
  get_db (get_customer_info (py "Ravi")) calm sample_db =
  (Raise (HTTPException 404
            (py "Customer '" ++ py "Ravi" ++ py "' not found in customer policies")),
   sample_db).
Proof.
  apply (lookup_of_unknown_customer calm sample_db (py "Ravi")).
  - reflexivity.
  - vm_compute. reflexivity.
Defined.

(** The lookup and the search never change the store, whatever they
    return. *)
Theorem lookups_leave_the_store env db :
  (forall name, (get_db (get_customer_info name) env db).2 = db) /\
  (forall name, (get_db (search_customers name) env db).2 = db).
Proof.
  split; intros name.
  - destruct (get_db (get_customer_info name) env db) as [r db'] eqn:E.
    now apply get_customer_info_post in E as [-> _].
  - destruct (get_db (search_customers name) env db) as [r db'] eqn:E.
    revert r db' E. apply get_db_wp.
    unfold search_customers, search_customers_body, all_CustomerPolicies,
      open_session.
    wp_go. destruct (db_fault env 0); wp_go; [reflexivity|].
    match goal with
    | |- context [match ?l with [] => _ | _ :: _ => _ end] => destruct l
    end; wp_go; [destruct (truthy name); wp_go|]; reflexivity.
Qed.

(** A request without any sub-payload fails with 400 and changes nothing. *)
Theorem update_without_payload env db :
  get_db (update_customer_info (UpdateCustomerInfoRequest.mk None None)) env db =
  (Raise (HTTPException 400
            (py "No update data provided. Please provide either customer_info or customer_policy data.")),
   db).
Proof. reflexivity. Qed.

(** ** The claims of a lookup are the most recent first *)

Lemma lex_ltb_asym a b : lex_ltb a b = true -> lex_ltb b a = false.
Proof.
  revert b. induction a as [|x a IH]; intros [|y b]; cbn [lex_ltb];
    try easy.
  rewrite !orb_true_iff, !andb_true_iff, N.ltb_lt, N.eqb_eq.
  intros [Hlt|[-> Hrec]].
  - rewrite (proj2 (N.ltb_ge y x)) by lia.
    rewrite (proj2 (N.eqb_neq y x)) by lia. reflexivity.
  - rewrite N.ltb_irrefl, N.eqb_refl. cbn [orb andb]. now apply IH.
Qed.

Lemma submitted_before_asym a b :
  submitted_before a b = true -> submitted_before b a = false.
Proof.
  unfold submitted_before.
  destruct (InsuranceClaims.date_submitted a), (InsuranceClaims.date_submitted b);
    try easy.
  apply lex_ltb_asym.
Qed.

Lemma insert_desc_sorted c l :
  most_recent_first l -> most_recent_first (insert_desc c l).
Proof.
  unfold most_recent_first.
  induction l as [|d l IH]; intros Hs; cbn [insert_desc].
  - repeat constructor.
  - destruct (submitted_before d c) eqn:Hdc.
    + constructor; [exact Hs|]. constructor. now apply submitted_before_asym.
    + apply Sorted_inv in Hs as [Hs Hhd]. constructor; [now apply IH|].
      destruct l as [|d' l]; cbn [insert_desc].
      * now constructor.
      * destruct (submitted_before d' c); constructor; [exact Hdc|].
        now apply HdRel_inv in Hhd.
Qed.

Lemma order_by_date_submitted_desc_sorted l :
  most_recent_first (order_by_date_submitted_desc l).
Proof.
  unfold order_by_date_submitted_desc.
  induction l as [|c l IH]; cbn [foldr].
  - constructor.
  - now apply insert_desc_sorted.
Qed.

(** When a lookup is answered, its claims are the customer's claims, each
    once, the most recent first. *)
Theorem lookup_lists_claims_most_recent_first env db name resp db' :
  get_db (get_customer_info name) env db = (Ok resp, db') ->
  exists claims,
    CustomerInfoResponse.claims resp = claim_response <$> claims /\
    claims ≡ₚ claims_for name db /\
    most_recent_first claims.
Proof.
  intros E. apply get_customer_info_post in E as [_ Hpost].
  destruct Hpost as (p & sa & sr & last & _ & _ & _ & _ & ->).
  exists (order_by_date_submitted_desc (claims_for name db)).
  split; [reflexivity|]. split.
  - apply order_by_date_submitted_desc_perm.
  - apply order_by_date_submitted_desc_sorted.
Qed.

Lemma lookup_lists_claims_most_recent_first_witness :
  exists claims,
    CustomerInfoResponse.claims
      (response_of no_lookup (get_db (get_customer_info asha) calm claims_db))
      = claim_response <$> claims /\
    claims ≡ₚ claims_for asha claims_db /\
    most_recent_first claims.
Proof.
  apply (lookup_lists_claims_most_recent_first calm claims_db asha
           (response_of no_lookup (get_db (get_customer_info asha) calm claims_db))
           claims_db).
  vm_compute. reflexivity.
Defined.

Lemma totals_of_lookup_witness :
  ClaimsSummary.total_approved_amount
    (CustomerInfoResponse.claims_summary
       (response_of no_lookup (get_db (get_customer_info asha) calm claims_db))) =
    format_comma
      (sum_Z (amount_value (platform calm) <$>
              with_status (py "APPROVED") (claims_for asha claims_db))) /\
  ClaimsSummary.total_rejected_amount
    (CustomerInfoResponse.claims_summary
       (response_of no_lookup (get_db (get_customer_info asha) calm claims_db))) =
    format_comma
      (sum_Z (amount_value (platform calm) <$>
              with_status (py "REJECTED") (claims_for asha claims_db))).
Proof.
  apply (totals_of_lookup calm claims_db asha
           (response_of no_lookup (get_db (get_customer_info asha) calm claims_db))
           claims_db).
  vm_compute. reflexivity.
Defined.

(** * The simple lookup and the health check *)

Lemma get_simple_customer_info_run env db name :
  get_db (get_simple_customer_info name) env db =
  (match db_fault env 0 with
   | Some msg => Raise (HTTPException 500 (py "Internal server error: " ++ msg))
   | None =>
       match customer_info db !! name with
       | Some row => Ok (simple_response row)
       | None =>
           Raise (HTTPException 404
                    (py "Customer '" ++ name ++ py "' not found in customer info"))
       end
   end, db).
Proof.
  destruct (get_db (get_simple_customer_info name) env db) as [r db'] eqn:E.
  revert r db' E. apply get_db_wp.
  unfold get_simple_customer_info, get_simple_customer_info_body, open_session.
  wp_go. destruct (db_fault env 0) as [msg|]; wp_go; [reflexivity|].
  destruct (customer_info db !! name); wp_go; reflexivity.
Qed.

(** The simple lookup never changes the store.  When the store fails on the
    query the answer is 500 with the driver's message; when it answers, the
    answer is the three columns of the [CustomerInfo] row under the name, or
    404 when there is no such row. *)
Theorem simple_lookup_outcomes env db name :
  let out := get_db (get_simple_customer_info name) env db in
  out.2 = db /\
  (forall msg, db_fault env 0 = Some msg ->
     out.1 = Raise (HTTPException 500 (py "Internal server error: " ++ msg))) /\
  (db_fault env 0 = None ->
   match customer_info db !! name with
   | Some row =>
       out.1 = Ok (SimpleCustomerInfoResponse.mk
                     (CustomerInfo.customer_name row)
                     (CustomerInfo.final_premium_amount row)
                     (CustomerInfo.addons_with_amount row))
   | None =>
       out.1 = Raise (HTTPException 404
                        (py "Customer '" ++ name ++
                         py "' not found in customer info"))
   end).
Proof.
  cbn zeta. rewrite get_simple_customer_info_run. cbn [fst snd].
  split; [reflexivity|]. split.
  - now intros msg ->.
  - intros ->. now destruct (customer_info db !! name).
Qed.

Lemma health_check_run env db environ :
  get_db (health_check environ) env db =
  (Ok (match db_fault env 0, db_fault env 1, db_fault env 2 with
       | None, None, None =>
           HealthResponse.mk (py "healthy") (datetime_isoformat (now env))
             (py "connected")
             (Some (HealthStats.mk
                      (Z.of_nat (size (customer_policies db)))
                      (Z.of_nat (size (insurance_claims db)))))
             None
             (HealthDetails.mk (py "1.0.0")
                (os_getenv environ (py "ENVIRONMENT") (py "development"))
                (Some (os_getenv environ (py "PORT") (py "8000"))))
       | Some msg, _, _ | None, Some msg, _ | None, None, Some msg =>
           HealthResponse.mk (py "unhealthy") (datetime_isoformat (now env))
             (py "disconnected") None (Some msg)
             (HealthDetails.mk (py "1.0.0")
                (os_getenv environ (py "ENVIRONMENT") (py "development"))
                None)
       end), db).
Proof.
  destruct (get_db (health_check environ) env db) as [r db'] eqn:E.
  revert r db' E. apply get_db_wp.
  unfold health_check, execute_select_1, count_CustomerPolicies,
    count_InsuranceClaims, logger_error, open_session.
  wp_go. destruct (db_fault env 0) as [msg|]; wp_go; [reflexivity|].
  destruct (db_fault env 1) as [msg|]; wp_go; [reflexivity|].
  destruct (db_fault env 2) as [msg|]; wp_go; reflexivity.
Qed.

(** The health check always answers and never changes the store.  It reports
    healthy, with the numbers of [CustomerPolicies] and [InsuranceClaims]
    rows, when the store answers its three round trips; when one of them
    fails it reports unhealthy, without numbers and with the message of the
    first failure. *)
Theorem health_check_reports_the_store env db environ :
  exists resp,
    get_db (health_check environ) env db = (Ok resp, db) /\
    HealthResponse.timestamp resp = datetime_isoformat (now env) /\
    (db_fault env 0 = None -> db_fault env 1 = None -> db_fault env 2 = None ->
     HealthResponse.status resp = py "healthy" /\
     HealthResponse.database resp = py "connected" /\
     HealthResponse.stats resp =
       Some (HealthStats.mk (Z.of_nat (size (customer_policies db)))
                            (Z.of_nat (size (insurance_claims db)))) /\
     HealthResponse.error resp = None) /\
    (forall n msg,
       (n < 3)%nat -> db_fault env n = Some msg ->
       (forall k, (k < n)%nat -> db_fault env k = None) ->
       HealthResponse.status resp = py "unhealthy" /\
       HealthResponse.database resp = py "disconnected" /\
       HealthResponse.stats resp = None /\
       HealthResponse.error resp = Some msg).
Proof.
  rewrite health_check_run. eexists. split; [reflexivity|].
  split; [now destruct (db_fault env 0), (db_fault env 1), (db_fault env 2)|].
  split.
  - now intros -> -> ->.
  - intros n msg Hn Hmsg Hbefore.
    destruct n as [|[|[|n]]]; [| | |lia].
    + now rewrite Hmsg.
    + rewrite (Hbefore 0%nat) by lia. now rewrite Hmsg.
    + rewrite (Hbefore 0%nat), (Hbefore 1%nat) by lia. now rewrite Hmsg.
Qed.

(** * When the store is down *)

Lemma get_customer_info_fault env db name msg :
  db_fault env 0 = Some msg ->
  get_db (get_customer_info name) env db =
  (Raise (HTTPException 500 (py "Internal server error: " ++ msg)), db).
Proof.
  intros H0.
  destruct (get_db (get_customer_info name) env db) as [r db'] eqn:E.
  revert r db' E. apply get_db_wp.
  unfold get_customer_info, get_customer_info_body, open_session. wp_go.
  rewrite H0. wp_go. reflexivity.
Qed.

Lemma search_customers_fault env db name msg :
  db_fault env 0 = Some msg ->
  get_db (search_customers name) env db =
  (Raise (HTTPException 500 (py "Internal server error: " ++ msg)), db).
Proof.
  intros H0.
  destruct (get_db (search_customers name) env db) as [r db'] eqn:E.
  revert r db' E. apply get_db_wp.
  unfold search_customers, search_customers_body, all_CustomerPolicies,
    open_session. wp_go.
  rewrite H0. wp_go. reflexivity.
Qed.

Lemma update_customer_info_fault env db req msg :
  db_fault env 0 = Some msg ->
  req <> UpdateCustomerInfoRequest.mk None None ->
  get_db (update_customer_info req) env db =
  (Raise (HTTPException 500 (py "Internal server error: " ++ msg)), db).
Proof.
  intros H0 Hreq.
  destruct (get_db (update_customer_info req) env db) as [r db'] eqn:E.
  revert r db' E. apply get_db_wp.
  unfold update_customer_info, update_customer_info_body, open_session.
  destruct req as [[info|] [policy|]]; [| | |contradiction]; unfold if_present;
    cbn [UpdateCustomerInfoRequest.customer_info
         UpdateCustomerInfoRequest.customer_policy];
    wp_go;
    [unfold update_customer_info_part|unfold update_customer_info_part
    |unfold update_customer_policy_part];
    wp_go; rewrite H0; wp_go; reflexivity.
Qed.

(** When the store fails on the first query of a request, the lookup, the
    search, the simple lookup and an update with a sub-payload all answer
    500 with the driver's message after [Internal server error: ], and the
    store is as it was. *)
Theorem store_failure_answers_500 env db msg :
  db_fault env 0 = Some msg ->
  let failed :=
    HTTPException 500 (py "Internal server error: " ++ msg) in
  (forall name, get_db (get_customer_info name) env db = (Raise failed, db)) /\
  (forall name, get_db (search_customers name) env db = (Raise failed, db)) /\
  (forall name,
     get_db (get_simple_customer_info name) env db = (Raise failed, db)) /\
  (forall req,
     req <> UpdateCustomerInfoRequest.mk None None ->
     get_db (update_customer_info req) env db = (Raise failed, db)).
Proof.
  intros H0 failed. repeat split; intros.
  - now apply get_customer_info_fault.
  - now apply search_customers_fault.
  - now rewrite get_simple_customer_info_run, H0.
  - now apply update_customer_info_fault.
Qed.

Lemma store_failure_answers_500_witness :
  let failed :=
    HTTPException 500 (py "Internal server error: " ++ py "connection lost") in
  (forall name,
     get_db (get_customer_info name) store_down sample_db = (Raise failed, sample_db)) /\
  (forall name,
     get_db (search_customers name) store_down sample_db = (Raise failed, sample_db)) /\
  (forall name,
     get_db (get_simple_customer_info name) store_down sample_db =
     (Raise failed, sample_db)) /\
  (forall req,
     req <> UpdateCustomerInfoRequest.mk None None ->
     get_db (update_customer_info req) store_down sample_db =
     (Raise failed, sample_db)).
Proof.
  apply (store_failure_answers_500 store_down sample_db (py "connection lost")).
  reflexivity.
Defined.

(** * Further properties of the update endpoint *)

(** An update, however it ends, leaves the claims alone, leaves every
    [CustomerInfo] and [CustomerPolicies] row alone but the ones its
    sub-payloads name, and removes no row. *)
Theorem update_touches_only_named_rows env db req :
  let db' := (get_db (update_customer_info req) env db).2 in
  insurance_claims db' = insurance_claims db /\
  (forall name,
     (forall d, UpdateCustomerInfoRequest.customer_info req = Some d ->
                CustomerInfoUpdateRequest.customer_name d <> name) ->
     customer_info db' !! name = customer_info db !! name) /\
  (forall name,
     (forall d, UpdateCustomerInfoRequest.customer_policy req = Some d ->
                CustomerPolicyUpdateRequest.customer_name d <> name) ->
     customer_policies db' !! name = customer_policies db !! name) /\
  (forall name, is_Some (customer_info db !! name) ->
                is_Some (customer_info db' !! name)) /\
  (forall name, is_Some (customer_policies db !! name) ->
                is_Some (customer_policies db' !! name)).
Proof.
  destruct (get_db (update_customer_info req) env db) as [r db'] eqn:E.
  cbn [snd]. apply update_customer_info_post in E as (Hc & Hi & Hp & _).
  split; [exact Hc|]. repeat split.
  - intros name Hne. destruct Hi as [->|(d & Hd & ->)]; [reflexivity|].
    unfold upsert_info. apply lookup_insert_ne. now apply Hne.
  - intros name Hne. destruct Hp as [->|(d & Hd & ->)]; [reflexivity|].
    unfold upsert_policy. apply lookup_insert_ne. now apply Hne.
  - intros name Hsome. destruct Hi as [->|(d & Hd & ->)]; [exact Hsome|].
    unfold upsert_info.
    destruct (decide (CustomerInfoUpdateRequest.customer_name d = name)) as [<-|Hne].
    + rewrite lookup_insert_eq. eauto.
    + now rewrite lookup_insert_ne.
  - intros name Hsome. destruct Hp as [->|(d & Hd & ->)]; [exact Hsome|].
    unfold upsert_policy.
    destruct (decide (CustomerPolicyUpdateRequest.customer_name d = name)) as [<-|Hne].
    + rewrite lookup_insert_eq. eauto.
    + now rewrite lookup_insert_ne.
Qed.

(** ** Replaying a request *)

Lemma upsert_info_idem d t :
  CustomerInfoUpdateRequest.final_premium_amount d <> Some [] ->
  upsert_info d (upsert_info d t) = upsert_info d t.
Proof.
  intros Hne. unfold upsert_info at 1. unfold upsert_info at 1.
  rewrite lookup_insert_eq. unfold upsert_info. rewrite insert_insert_eq.
  f_equal.
  destruct (t !! CustomerInfoUpdateRequest.customer_name d) as [old|];
    unfold merged_info, created_info;
    destruct (CustomerInfoUpdateRequest.final_premium_amount d) as [[|c v]|];
    try reflexivity; now contradiction Hne.
Qed.

Lemma Database_eq db db' :
  insurance_claims db' = insurance_claims db ->
  customer_policies db' = customer_policies db ->
  customer_info db' = customer_info db ->
  db' = db.
Proof. destruct db, db'; cbn; now intros -> -> ->. Qed.

(** After an answered request that carries a [customer_info] sub-payload
    only, whose [final_premium_amount] is not the empty string, the same
    request sent again leaves the store as it is, however it ends. *)
Theorem info_update_replay env env' db d resp db1 :
  CustomerInfoUpdateRequest.final_premium_amount d <> Some [] ->
  get_db (update_customer_info (UpdateCustomerInfoRequest.mk (Some d) None))
         env db = (Ok resp, db1) ->
  (get_db (update_customer_info (UpdateCustomerInfoRequest.mk (Some d) None))
          env' db1).2 = db1.
Proof.
  intros Hne H1.
  apply update_customer_info_post in H1 as (_ & _ & _ & H1).
  specialize (H1 resp eq_refl) as [[Hi1 _] _].
  cbn [UpdateCustomerInfoRequest.customer_info] in Hi1.
  destruct (get_db _ env' db1) as [r2 db2] eqn:E2. cbn [snd].
  apply update_customer_info_post in E2 as (Hc & Hi & Hp & _).
  apply Database_eq; [exact Hc| |].
  - destruct Hp as [Hp|(d' & Hd' & _)]; [exact Hp|discriminate Hd'].
  - destruct Hi as [Hi|(d' & [= <-] & Hi)]; [exact Hi|].
    rewrite Hi, Hi1. now apply upsert_info_idem.
Qed.

Lemma info_update_replay_witness :
  (get_db (update_customer_info asha_info_only) calm (updated asha_info_only)).2 =
  updated asha_info_only.
Proof.
  apply (info_update_replay calm calm sample_db asha_info_clear
           (update_response asha_info_only)).
  - discriminate.
  - vm_compute. reflexivity.
Defined.

(** Assigning to a column the value it holds leaves the row as it is. *)
Lemma setattr_noop field get_col set_col r value :
  In (field, (get_col, set_col)) CustomerPolicies.text_columns ->
  get_col r = value ->
  CustomerPolicies.setattr r field value = r.
Proof.
  intros H Hv. unfold CustomerPolicies.setattr.
  destruct (column_of_text_column _ _ H) as [-> _].
  cbn [CustomerPolicies.text_columns In] in H.
  in_cases H; destruct r; cbn in *; now subst.
Qed.

(** Every optional field of the request model is a column of the table. *)
Lemma optional_field_updatable field get_req :
  In (field, get_req) CustomerPolicyUpdateRequest.optional_fields ->
  exists get_col, updatable field get_req get_col.
Proof.
  intros H. cbn [CustomerPolicyUpdateRequest.optional_fields In] in H.
  in_cases H; eexists;
    (split;
     [ cbn [CustomerPolicyUpdateRequest.optional_fields In]
     | eexists; cbn [CustomerPolicies.text_columns In] ];
     repeat first [ left; reflexivity | right ]).
Qed.

(** The loop of lines 455-457 leaves a row as it is when the row holds every
    value the payload gives. *)
Lemma apply_items_noop d r :
  (forall field get_req get_col v,
     updatable field get_req get_col ->
     get_req d = Given (Some v) -> get_col r = Some v) ->
  apply_items (CustomerPolicyUpdateRequest.dict_exclude_unset d) r = r.
Proof.
  intros Hholds. unfold CustomerPolicyUpdateRequest.dict_exclude_unset.
  change (?x :: ?l) with ([x] ++ l). rewrite apply_items_app.
  assert (Hname : apply_items
            [(py "customer_name", Some (CustomerPolicyUpdateRequest.customer_name d))]
            r = r) by reflexivity.
  rewrite Hname.
  assert (Hgen : forall fields,
    (forall f, In f fields -> In f CustomerPolicyUpdateRequest.optional_fields) ->
    apply_items (flat_map (CustomerPolicyUpdateRequest.entry d) fields) r = r).
  { induction fields as [|[field get_req] fields IH]; intros Hsub;
      cbn [flat_map]; [reflexivity|].
    rewrite apply_items_app.
    assert (Hin : In (field, get_req) CustomerPolicyUpdateRequest.optional_fields)
      by (apply Hsub; now left).
    destruct (optional_field_updatable _ _ Hin) as [get_col Hup].
    assert (Hentry :
      apply_items (CustomerPolicyUpdateRequest.entry d (field, get_req)) r = r).
    { unfold CustomerPolicyUpdateRequest.entry. cbn [fst snd].
      destruct (get_req d) as [|[v|]] eqn:Hd; unfold apply_items; cbn [foldl];
        [reflexivity| |]; unfold apply_item; cbn [fst snd].
      - destruct (negb _ && _); [|reflexivity].
        destruct Hup as [Hr [set_col Hc]].
        eapply setattr_noop; [exact Hc|].
        eapply Hholds; [split; eauto|exact Hd].
      - rewrite (bool_decide_eq_false_2 (None <> None)) by tauto.
        now rewrite andb_false_r. }
    rewrite Hentry. apply IH. intros f Hf. apply Hsub. now right. }
  apply Hgen. auto.
Qed.

(** The row an upsert leaves holds every value the payload gives. *)
Lemma upserted_policy_holds clock cr d t row :
  upsert_policy clock cr d t !! CustomerPolicyUpdateRequest.customer_name d
    = Some row ->
  forall field get_req get_col v,
    updatable field get_req get_col ->
    get_req d = Given (Some v) -> get_col row = Some v.
Proof.
  unfold upsert_policy. rewrite lookup_insert_eq. intros [= <-].
  intros field get_req get_col v Hup Hd.
  destruct (t !! CustomerPolicyUpdateRequest.customer_name d) as [old|].
  - unfold merged_policy. destruct Hup as [Hr [set_col Hc]].
    rewrite (updated_at_other _ _ _ _ _ Hc).
    rewrite (apply_items_dict d old field get_req get_col) by (split; eauto).
    now rewrite Hd.
  - rewrite (created_policy_fields d _ _ _ field get_req get_col Hup).
    now rewrite Hd.
Qed.

(** When a request that carries a [customer_policy] sub-payload only is
    answered twice in a row, the second answer changes one thing in the
    store: the [updated_at] of the customer's row, which becomes the clock
    reading of the second request. *)
Theorem policy_update_replay env env' db d resp db1 resp' db2 :
  let req := UpdateCustomerInfoRequest.mk None (Some d) in
  get_db (update_customer_info req) env db = (Ok resp, db1) ->
  get_db (update_customer_info req) env' db1 = (Ok resp', db2) ->
  exists row,
    customer_policies db1 !! CustomerPolicyUpdateRequest.customer_name d = Some row /\
    customer_policies db2 =
      <[CustomerPolicyUpdateRequest.customer_name d :=
          CustomerPolicies.set_updated_at (Some (utcnow env' 0)) row]>
        (customer_policies db1) /\
    customer_info db2 = customer_info db1 /\
    insurance_claims db2 = insurance_claims db1.
Proof.
  intros req H1 H2.
  apply update_customer_info_post in H1 as (_ & _ & _ & H1).
  specialize (H1 resp eq_refl) as [_ (Hp1 & row & u & Hrow & _)].
  apply update_customer_info_post in H2 as (Hc & _ & _ & H2).
  specialize (H2 resp' eq_refl) as [[Hi2 _] [Hp2 _]].
  cbn [req UpdateCustomerInfoRequest.customer_info
       UpdateCustomerInfoRequest.customer_policy] in *.
  exists row. split; [exact Hrow|]. split; [|split; assumption].
  rewrite Hp2. unfold upsert_policy at 1. rewrite Hrow. f_equal.
  unfold merged_policy. f_equal. apply apply_items_noop.
  rewrite Hp1 in Hrow. now apply (upserted_policy_holds _ _ _ _ _ Hrow).
Qed.

Lemma policy_update_replay_witness :
  exists row,
    customer_policies (updated asha_policy_only) !! asha = Some row /\
    customer_policies
      (get_db (update_customer_info asha_policy_only) calm
              (updated asha_policy_only)).2 =
      <[asha := CustomerPolicies.set_updated_at (Some (utcnow calm 0)) row]>
        (customer_policies (updated asha_policy_only)) /\
    customer_info
      (get_db (update_customer_info asha_policy_only) calm
              (updated asha_policy_only)).2 =
      customer_info (updated asha_policy_only) /\
    insurance_claims
      (get_db (update_customer_info asha_policy_only) calm
              (updated asha_policy_only)).2 =
      insurance_claims (updated asha_policy_only).
Proof.
  apply (policy_update_replay calm calm sample_db asha_policy_update
           (update_response asha_policy_only) (updated asha_policy_only)
           (response_of no_update
              (get_db (update_customer_info asha_policy_only) calm
                      (updated asha_policy_only)))).
  - vm_compute. reflexivity.
  - vm_compute. reflexivity.
Defined.

(** * When a lookup is answered *)

Lemma sum_amounts_Raise pf claims total e :
  sum_amounts pf claims total = Raise e ->
  exists c, c ∈ claims /\ unreadable pf c /\
            e = ValueError (py "invalid literal for int() with base 10: " ++
                            py_repr pf (amount_str c)).
Proof.
  revert total. induction claims as [|c claims IH]; intros total;
    cbn [sum_amounts]; [discriminate|].
  destruct (isdigit pf (amount_str c)) eqn:Hd.
  - unfold int. destruct (int_literal pf (amount_str c)) as [n|] eqn:Hi.
    + intros H. apply IH in H as (c' & Hin & Hc'). exists c'.
      split; [now right|exact Hc'].
    + intros [= <-]. exists c. split; [left|]. now split.
  - intros H. apply IH in H as (c' & Hin & Hc'). exists c'.
    split; [now right|exact Hc'].
Qed.

Lemma sum_amounts_Ok_readable pf claims total v :
  sum_amounts pf claims total = Ok v ->
  forall c, c ∈ claims -> ~ unreadable pf c.
Proof.
  revert total. induction claims as [|c claims IH]; intros total;
    cbn [sum_amounts]; intros H c' Hin.
  - inversion Hin.
  - unfold unreadable. apply elem_of_cons in Hin as [->|Hin].
    + destruct (isdigit pf (amount_str c)); [|intros [? _]; discriminate].
      unfold int in H. destruct (int_literal pf (amount_str c)); [|discriminate].
      intros [_ ?]; discriminate.
    + destruct (isdigit pf (amount_str c)).
      * destruct (int pf (amount_str c)); [|discriminate]. eapply IH; eauto.
      * eapply IH; eauto.
Qed.

(** When the first claim of the sorted list has no timestamp, none has. *)
Lemma newest_without_timestamp c l :
  most_recent_first (c :: l) ->
  InsuranceClaims.date_submitted c = None ->
  Forall (fun c => InsuranceClaims.date_submitted c = None) (c :: l).
Proof.
  unfold most_recent_first. revert c.
  induction l as [|d l IH]; intros c Hs Hc.
  - repeat constructor. exact Hc.
  - apply Sorted_inv in Hs as [Hs Hhd]. apply HdRel_inv in Hhd.
    constructor; [exact Hc|]. apply IH; [exact Hs|].
    unfold submitted_before in Hhd. rewrite Hc in Hhd.
    now destruct (InsuranceClaims.date_submitted d).
Qed.

Lemma elem_of_with_status_sorted label name db c :
  c ∈ with_status label (order_by_date_submitted_desc (claims_for name db)) ->
  c ∈ claims_for name db /\ InsuranceClaims.status c = label.
Proof.
  unfold with_status. rewrite list_elem_of_filter.
  rewrite (order_by_date_submitted_desc_perm (claims_for name db)). tauto.
Qed.

(** The body of the lookup, case by case: how [last_claim_date] is read off
    the first claim, and why an exception is raised. *)
Lemma wp_get_customer_info_cases env db name :
  wp (get_customer_info_body name) env
     (fun r s =>
        match r with
        | Ok resp =>
            match order_by_date_submitted_desc (claims_for name db) with
            | [] =>
                ClaimsSummary.last_claim_date
                  (CustomerInfoResponse.claims_summary resp) = None
            | c :: _ =>
                exists d,
                  InsuranceClaims.date_submitted c = Some d /\
                  ClaimsSummary.last_claim_date
                    (CustomerInfoResponse.claims_summary resp) =
                  Some (datetime_isoformat d)
            end
        | Raise e => lookup_failure env db name e
        end)
     (open_session db).
Proof.
  unfold get_customer_info_body, open_session, lookup_failure. wp_go.
  destruct (db_fault env 0) as [msg|] eqn:H0; wp_go; [left; eauto|].
  destruct (customer_policies db !! name) as [p|] eqn:Hp; wp_go;
    [|right; left; auto].
  assert (Hsome : is_Some (Some p)) by eauto.
  unfold claims_of. wp_go.
  destruct (db_fault env 1) as [msg|] eqn:H1; wp_go;
    [right; right; left; eauto|].
  fold (claims_for name db).
  pose proof (order_by_date_submitted_desc_perm (claims_for name db)) as Hperm.
  pose proof (order_by_date_submitted_desc_sorted (claims_for name db)) as Hsorted.
  set (claims := order_by_date_submitted_desc (claims_for name db)) in *.
  fold (with_status (py "APPROVED") claims).
  fold (with_status (py "REJECTED") claims).
  fold (with_status (py "UNDER_REVIEW") claims).
  destruct (sum_amounts (platform env) (with_status (py "APPROVED") claims) 0)
    as [approved_sum|e] eqn:Ha; wp_go.
  2:{ apply sum_amounts_Raise in Ha as (c & Hin & Hun & ->).
      apply elem_of_with_status_sorted in Hin as [Hin Hst].
      right; right; right; left. split; [exact Hsome|].
      exists c. unfold summed. auto. }
  destruct (sum_amounts (platform env) (with_status (py "REJECTED") claims) 0)
    as [rejected_sum|e] eqn:Hr; wp_go.
  2:{ apply sum_amounts_Raise in Hr as (c & Hin & Hun & ->).
      apply elem_of_with_status_sorted in Hin as [Hin Hst].
      right; right; right; left. split; [exact Hsome|].
      exists c. unfold summed. auto. }
  rewrite approval_rate_of_total. wp_go.
  destruct claims as [|claim rest] eqn:Hclaims; wp_go; [reflexivity|].
  destruct (InsuranceClaims.date_submitted claim) as [d|] eqn:Hd; wp_go;
    [eauto|].
  right; right; right; right. split; [exact Hsome|].
  split.
  - intros Hnil. rewrite Hnil in Hperm. now apply Permutation_nil_r in Hperm.
  - pose proof (newest_without_timestamp _ _ Hsorted Hd) as Hall.
    now rewrite Hperm in Hall.
Qed.

Lemma get_customer_info_cases env db name r db' :
  get_db (get_customer_info name) env db = (r, db') ->
  match r with
  | Ok resp =>
      match order_by_date_submitted_desc (claims_for name db) with
      | [] =>
          ClaimsSummary.last_claim_date
            (CustomerInfoResponse.claims_summary resp) = None
      | c :: _ =>
          exists d,
            InsuranceClaims.date_submitted c = Some d /\
            ClaimsSummary.last_claim_date
              (CustomerInfoResponse.claims_summary resp) =
            Some (datetime_isoformat d)
      end
  | Raise e => exists cause, lookup_failure env db name cause /\ e = reraise cause
  end.
Proof.
  revert r db'. apply get_db_wp. unfold get_customer_info. wp_go.
  eapply wp_mono; [apply wp_get_customer_info_cases|].
  intros [resp|e] s H; wp_go; eauto.
Qed.

(** While the store answers the two queries, a lookup is answered exactly
    when the customer has a [CustomerPolicies] row, no approved or rejected
    claim of the customer has an amount whose residue [isdigit] accepts and
    [int] refuses, and the customer has no claim or has a claim with a
    submission timestamp. *)
Theorem lookup_is_answered_iff env db name :
  db_fault env 0 = None -> db_fault env 1 = None ->
  (exists resp, get_db (get_customer_info name) env db = (Ok resp, db)) <->
  is_Some (customer_policies db !! name) /\
  (forall c, c ∈ claims_for name db -> summed c -> ~ unreadable (platform env) c) /\
  (claims_for name db = [] \/
   exists c, c ∈ claims_for name db /\ InsuranceClaims.date_submitted c <> None).
Proof.
  intros H0 H1. split.
  - intros [resp E].
    pose proof (get_customer_info_cases _ _ _ _ _ E) as Hlast.
    apply get_customer_info_post in E as [_ Hpost].
    destruct Hpost as (p & sa & sr & last & Hp & Ha & Hr & _ & _).
    cbn zeta in *.
    pose proof (order_by_date_submitted_desc_perm (claims_for name db)) as Hperm.
    split; [eauto|]. split.
    + intros c Hin [Hst|Hst].
      * eapply (sum_amounts_Ok_readable _ _ _ _ Ha). unfold with_status.
        rewrite list_elem_of_filter, Hperm. auto.
      * eapply (sum_amounts_Ok_readable _ _ _ _ Hr). unfold with_status.
        rewrite list_elem_of_filter, Hperm. auto.
    + destruct (order_by_date_submitted_desc (claims_for name db)) as [|c l].
      * left. now apply Permutation_nil in Hperm.
      * right. destruct Hlast as (d & Hd & _). exists c. split.
        -- rewrite <- Hperm. left.
        -- congruence.
  - intros ([p Hp] & Hread & Hdate).
    destruct (get_db (get_customer_info name) env db) as [r db'] eqn:E.
    pose proof (get_customer_info_cases _ _ _ _ _ E) as Hcase.
    apply get_customer_info_post in E as Hpost. destruct Hpost as [-> _].
    destruct r as [resp|e]; [eauto|]. exfalso.
    destruct Hcase as (cause & Hcause & _).
    destruct Hcause as [(msg & Hf & _)|[(_ & Hnone & _)|[(_ & msg & Hf & _)|
      [(_ & c & Hin & Hs & Hun & _)|(_ & Hne & Hall & _)]]]]; try congruence.
    + exact (Hread c Hin Hs Hun).
    + destruct Hdate as [Hnil|(c & Hin & Hc)]; [contradiction|].
      rewrite Forall_forall in Hall. exact (Hc (Hall c Hin)).
Qed.

Lemma lookup_is_answered_iff_witness :
  (exists resp,
     get_db (get_customer_info asha) calm claims_db = (Ok resp, claims_db)) <->
  is_Some (customer_policies claims_db !! asha) /\
  (forall c, c ∈ claims_for asha claims_db -> summed c ->
             ~ unreadable (platform calm) c) /\
  (claims_for asha claims_db = [] \/
   exists c, c ∈ claims_for asha claims_db /\
             InsuranceClaims.date_submitted c <> None).
Proof.
  apply (lookup_is_answered_iff calm claims_db asha); reflexivity.
Defined.

(** A lookup that fails has one of five causes, and its answer is the cause
    as the handler re-raises it: the first query failed (500), the customer
    has no [CustomerPolicies] row (404), the second query failed (500), an
    approved or rejected claim has an amount whose residue [isdigit] accepts
    and [int] refuses (500), or the customer has claims and none of them has
    a submission timestamp (500). *)
Theorem lookup_failure_reasons env db name e db' :
  get_db (get_customer_info name) env db = (Raise e, db') ->
  exists cause, lookup_failure env db name cause /\ e = reraise cause.
Proof. intros E. exact (get_customer_info_cases _ _ _ _ _ E). Qed.

Lemma lookup_failure_reasons_witness :
  exists cause,
    lookup_failure calm superscript_db asha cause /\
    HTTPException 500
      (py "Internal server error: invalid literal for int() with base 10: '"
       ++ [178] ++ py "'") = reraise cause.
Proof.
  apply (lookup_failure_reasons calm superscript_db asha _ superscript_db).
  vm_compute. reflexivity.
Defined.

(** ** The date of the last claim *)

Lemma lex_ltb_ge_trans a b c :
  lex_ltb a b = false -> lex_ltb b c = false -> lex_ltb a c = false.
Proof.
  revert b c. induction a as [|x a IH]; intros [|y b] [|z c]; cbn [lex_ltb];
    try easy.
  rewrite !orb_false_iff, !andb_false_iff, !N.ltb_ge, !N.eqb_neq.
  intros [Hxy Hab] [Hyz Hbc]. split; [lia|].
  destruct (N.eq_dec x z) as [->|Hne]; [|now left]. right.
  assert (y = z) by lia. subst y.
  destruct Hab as [?|Hab]; [congruence|]. destruct Hbc as [?|Hbc]; [congruence|].
  eapply IH; eauto.
Qed.

Lemma not_submitted_before_trans a b c :
  submitted_before a b = false -> submitted_before b c = false ->
  submitted_before a c = false.
Proof.
  unfold submitted_before, datetime_ltb.
  destruct (InsuranceClaims.date_submitted a), (InsuranceClaims.date_submitted b),
    (InsuranceClaims.date_submitted c); try easy.
  apply lex_ltb_ge_trans.
Qed.

Lemma lex_ltb_irrefl a : lex_ltb a a = false.
Proof.
  induction a as [|x a IH]; cbn [lex_ltb]; [reflexivity|].
  now rewrite N.ltb_irrefl, N.eqb_refl, IH.
Qed.

Lemma submitted_before_irrefl a : submitted_before a a = false.
Proof.
  unfold submitted_before, datetime_ltb.
  destruct (InsuranceClaims.date_submitted a); [apply lex_ltb_irrefl|reflexivity].
Qed.

(** No claim of a sorted list was submitted after the first. *)
Lemma newest_first c l :
  most_recent_first (c :: l) ->
  Forall (fun c' => submitted_before c c' = false) (c :: l).
Proof.
  unfold most_recent_first. revert c.
  induction l as [|d l IH]; intros c Hs.
  - repeat constructor. apply submitted_before_irrefl.
  - apply Sorted_inv in Hs as [Hs Hhd]. apply HdRel_inv in Hhd.
    specialize (IH d Hs).
    constructor; [apply submitted_before_irrefl|].
    eapply Forall_impl; [exact IH|].
    intros c' Hc'. cbn beta in *. eapply not_submitted_before_trans; eauto.
Qed.

(** When a lookup is answered, [last_claim_date] is [null] if the customer
    has no claim, and otherwise the ISO text of the submission timestamp of
    a claim of the customer after which none was submitted. *)
Theorem last_claim_date_is_newest env db name resp db' :
  get_db (get_customer_info name) env db = (Ok resp, db') ->
  let last :=
    ClaimsSummary.last_claim_date (CustomerInfoResponse.claims_summary resp) in
  (claims_for name db = [] /\ last = None) \/
  (exists c d,
     c ∈ claims_for name db /\
     InsuranceClaims.date_submitted c = Some d /\
     last = Some (datetime_isoformat d) /\
     forall c', c' ∈ claims_for name db -> submitted_before c c' = false).
Proof.
  intros E last. subst last.
  pose proof (get_customer_info_cases _ _ _ _ _ E) as Hlast.
  pose proof (order_by_date_submitted_desc_perm (claims_for name db)) as Hperm.
  pose proof (order_by_date_submitted_desc_sorted (claims_for name db)) as Hsorted.
  destruct (order_by_date_submitted_desc (claims_for name db)) as [|c l].
  - left. split; [|exact Hlast]. now apply Permutation_nil in Hperm.
  - right. destruct Hlast as (d & Hd & Hl). exists c, d.
    split; [rewrite <- Hperm; left|]. split; [exact Hd|]. split; [exact Hl|].
    intros c' Hin. rewrite <- Hperm in Hin.
    pose proof (newest_first _ _ Hsorted) as Hall.
    rewrite Forall_forall in Hall. now apply Hall.
Qed.

Lemma last_claim_date_is_newest_witness :
  let last :=
    ClaimsSummary.last_claim_date
      (CustomerInfoResponse.claims_summary
         (response_of no_lookup (get_db (get_customer_info asha) calm claims_db))) in
  (claims_for asha claims_db = [] /\ last = None) \/
  (exists c d,
     c ∈ claims_for asha claims_db /\
     InsuranceClaims.date_submitted c = Some d /\
     last = Some (datetime_isoformat d) /\
     forall c', c' ∈ claims_for asha claims_db -> submitted_before c c' = false).
Proof.
  apply (last_claim_date_is_newest calm claims_db asha
           (response_of no_lookup (get_db (get_customer_info asha) calm claims_db))
           claims_db).
  vm_compute. reflexivity.
Defined.

(** * An update, then a read *)

(** After an answered update with a [customer_info] sub-payload, the simple
    lookup of the payload's customer returns the three columns of the row
    that the update echoed, as soon as the store answers. *)
Theorem update_then_simple_lookup env env' db req d resp db' :
  UpdateCustomerInfoRequest.customer_info req = Some d ->
  get_db (update_customer_info req) env db = (Ok resp, db') ->
  db_fault env' 0 = None ->
  exists row,
    UpdateResponse.updated_customer_info resp = Some row /\
    get_db (get_simple_customer_info (CustomerInfoUpdateRequest.customer_name d))
           env' db' = (Ok (simple_response row), db').
Proof.
  intros Hreq Hrun H0.
  apply update_customer_info_post in Hrun as (_ & _ & _ & Hresp).
  specialize (Hresp resp eq_refl) as [Hinfo _]. rewrite Hreq in Hinfo.
  destruct Hinfo as (_ & row & Hrow & Hecho).
  exists row. split; [exact Hecho|].
  now rewrite get_simple_customer_info_run, H0, Hrow.
Qed.

Lemma update_then_simple_lookup_witness :
  exists row,
    UpdateResponse.updated_customer_info (update_response asha_info_only) =
      Some row /\
    get_db (get_simple_customer_info asha) calm (updated asha_info_only) =
      (Ok (simple_response row), updated asha_info_only).
Proof.
  apply (update_then_simple_lookup calm calm sample_db asha_info_only
           asha_info_clear (update_response asha_info_only)
           (updated asha_info_only)).
  - reflexivity.
  - vm_compute. reflexivity.
  - reflexivity.
Defined.

(** After an answered update with a [customer_policy] sub-payload, a lookup
    of the payload's customer never answers 404: it returns the policy
    fields that the update echoed, or it fails with 500. *)
Theorem update_then_lookup env env' db req d resp db' :
  UpdateCustomerInfoRequest.customer_policy req = Some d ->
  get_db (update_customer_info req) env db = (Ok resp, db') ->
  exists echo,
    UpdateResponse.updated_customer_policy resp = Some echo /\
    match (get_db (get_customer_info (CustomerPolicyUpdateRequest.customer_name d))
                  env' db').1 with
    | Ok info => CustomerInfoResponse.customer_policy info = UpdatedPolicy.fields echo
    | Raise e => exists detail, e = HTTPException 500 detail
    end.
Proof.
  intros Hreq Hrun.
  apply update_customer_info_post in Hrun as (_ & _ & _ & Hresp).
  specialize (Hresp resp eq_refl) as [_ Hpol]. rewrite Hreq in Hpol.
  destruct Hpol as (_ & row & u & Hrow & Hu & Hecho).
  eexists. split; [exact Hecho|]. cbn [UpdatedPolicy.fields].
  destruct (get_db _ env' db') as [r db''] eqn:E. cbn [fst].
  pose proof (get_customer_info_cases _ _ _ _ _ E) as Hcase.
  apply get_customer_info_post in E as [_ Hpost].
  destruct r as [info|e].
  - destruct Hpost as (p & sa & sr & last & Hp & _ & _ & _ & ->).
    cbn [lookup_response CustomerInfoResponse.customer_policy]. congruence.
  - destruct Hcase as (cause & Hcause & ->).
    destruct Hcause as [(msg & _ & ->)|[(_ & Hnone & _)|[(_ & msg & _ & ->)|
      [(_ & c & _ & _ & _ & ->)|(_ & _ & _ & ->)]]]];
      try (eexists; reflexivity).
    congruence.
Qed.

Lemma update_then_lookup_witness :
  exists echo,
    UpdateResponse.updated_customer_policy (update_response asha_policy_only) =
      Some echo /\
    match (get_db (get_customer_info asha) calm (updated asha_policy_only)).1 with
    | Ok info => CustomerInfoResponse.customer_policy info = UpdatedPolicy.fields echo
    | Raise e => exists detail, e = HTTPException 500 detail
    end.
Proof.
  apply (update_then_lookup calm calm sample_db asha_policy_only
           asha_policy_update (update_response asha_policy_only)
           (updated asha_policy_only)).
  - reflexivity.
  - vm_compute. reflexivity.
Defined.

(** * What a search lists *)

Lemma elem_of_rows {A} (t : gmap pystr A) (x : A) :
  x ∈ rows t <-> exists k, t !! k = Some x.
Proof.
  unfold rows. rewrite list_elem_of_fmap. split.
  - intros ([k y] & -> & Hin). exists k. now apply elem_of_map_to_list in Hin.
  - intros [k Hk]. exists (k, x). split; [reflexivity|].
    now apply elem_of_map_to_list.
Qed.

Lemma rows_length {A} (t : gmap pystr A) : length (rows t) = size t.
Proof. unfold rows. now rewrite length_fmap, length_map_to_list. Qed.

Lemma filter_all_true {A} (f : A -> bool) l :
  (forall x, f x = true) -> List.filter f l = l.
Proof.
  intros H. induction l as [|x l IH]; cbn [List.filter]; [reflexivity|].
  now rewrite H, IH.
Qed.

(** When a search is answered, its list holds the summaries of the
    [CustomerPolicies] rows it selected, each row once for each key it is
    stored under, and [total] is their number: with a non-empty filter the
    rows whose name matches [ILIKE '%name%'], without one (or with the empty
    string) every row of the table, [total] being the size of the table; a
    non-empty list comes with [search_term], the parameter as it was sent. *)
Theorem search_lists_the_selected_rows env db name resp db' :
  get_db (search_customers name) env db = (Ok resp, db') ->
  exists customers,
    SearchResponse.customers resp = customer_summary <$> customers /\
    SearchResponse.total resp = Z.of_nat (length customers) /\
    customers ≡ₚ
      List.filter
        (fun c =>
           negb (truthy name) ||
           ilike (platform env) (py "%" ++ default [] name ++ py "%")
                 (CustomerPolicies.customer_name c))
        (rows (customer_policies db)) /\
    (forall c,
       c ∈ customers <->
       (exists key, customer_policies db !! key = Some c) /\
       (truthy name = true ->
        ilike (platform env) (py "%" ++ default [] name ++ py "%")
              (CustomerPolicies.customer_name c) = true)) /\
    (truthy name = false ->
     SearchResponse.total resp = Z.of_nat (size (customer_policies db))) /\
    (customers <> [] -> SearchResponse.search_term resp = Some name).
Proof.
  intros E.
  destruct (db_fault env 0) as [msg|] eqn:H0.
  { rewrite (search_customers_fault _ _ _ _ H0) in E. discriminate. }
  rewrite (search_customers_run _ _ _ H0) in E.
  exists (selected (platform env) name db).
  assert (Hperm :
    selected (platform env) name db ≡ₚ
    List.filter
      (fun c =>
         negb (truthy name) ||
         ilike (platform env) (py "%" ++ default [] name ++ py "%")
               (CustomerPolicies.customer_name c))
      (rows (customer_policies db))).
  { unfold selected. destruct (truthy name); cbn [negb orb]; [reflexivity|].
    now rewrite filter_all_true. }
  assert (Hsel : forall c,
    c ∈ selected (platform env) name db <->
    (exists key, customer_policies db !! key = Some c) /\
    (truthy name = true ->
     ilike (platform env) (py "%" ++ default [] name ++ py "%")
           (CustomerPolicies.customer_name c) = true)).
  { intros c. unfold selected. destruct (truthy name).
    - rewrite list_elem_of_In, filter_In, <- list_elem_of_In, elem_of_rows.
      tauto.
    - rewrite elem_of_rows.
      split; [intros H; split; [exact H|discriminate]|tauto]. }
  assert (Hlen : truthy name = false ->
    length (selected (platform env) name db) = size (customer_policies db)).
  { intros Ht. unfold selected. rewrite Ht. apply rows_length. }
  destruct (selected (platform env) name db) as [|c l] eqn:Hs.
  - destruct (truthy name) eqn:Ht; [discriminate|].
    injection E as <- <-. cbn [SearchResponse.customers SearchResponse.total
                               SearchResponse.search_term].
    split; [reflexivity|]. split; [reflexivity|]. split; [exact Hperm|].
    split; [exact Hsel|]. split; [|tauto].
    intros _. now rewrite <- Hlen.
  - injection E as <- <-. cbn [SearchResponse.customers SearchResponse.total
                               SearchResponse.search_term].
    split; [reflexivity|]. split; [now rewrite length_fmap|].
    split; [exact Hperm|].
    split; [exact Hsel|]. split; [|reflexivity].
    intros Ht. rewrite <- (Hlen Ht). cbn [length]. now rewrite length_fmap.
Qed.

Lemma search_lists_the_selected_rows_witness :
  exists customers,
    SearchResponse.customers
      (response_of no_listing
         (get_db (search_customers (Some (py "ASH"))) calm sample_db)) =
      customer_summary <$> customers /\
    SearchResponse.total
      (response_of no_listing
         (get_db (search_customers (Some (py "ASH"))) calm sample_db)) =
      Z.of_nat (length customers) /\
    customers ≡ₚ
      List.filter
        (fun c =>
           negb (truthy (Some (py "ASH"))) ||
           ilike (platform calm) (py "%" ++ default [] (Some (py "ASH")) ++ py "%")
                 (CustomerPolicies.customer_name c))
        (rows (customer_policies sample_db)) /\
    (forall c,
       c ∈ customers <->
       (exists key, customer_policies sample_db !! key = Some c) /\
       (truthy (Some (py "ASH")) = true ->
        ilike (platform calm) (py "%" ++ default [] (Some (py "ASH")) ++ py "%")
              (CustomerPolicies.customer_name c) = true)) /\
    (truthy (Some (py "ASH")) = false ->
     SearchResponse.total
       (response_of no_listing
          (get_db (search_customers (Some (py "ASH"))) calm sample_db)) =
     Z.of_nat (size (customer_policies sample_db))) /\
    (customers <> [] ->
     SearchResponse.search_term
       (response_of no_listing
          (get_db (search_customers (Some (py "ASH"))) calm sample_db)) =
     Some (Some (py "ASH"))).
Proof.
  apply (search_lists_the_selected_rows calm sample_db (Some (py "ASH"))
           (response_of no_listing
              (get_db (search_customers (Some (py "ASH"))) calm sample_db))
           sample_db).
  vm_compute. reflexivity.
Defined.

(** After an answered update with a [customer_policy] sub-payload, a search
    without filter lists the summary of the payload's customer, as soon as
    the store answers. *)
Theorem update_then_search env env' db req d resp db' :
  UpdateCustomerInfoRequest.customer_policy req = Some d ->
  get_db (update_customer_info req) env db = (Ok resp, db') ->
  db_fault env' 0 = None ->
  exists row listing,
    customer_policies db' !! CustomerPolicyUpdateRequest.customer_name d = Some row /\
    get_db (search_customers None) env' db' = (Ok listing, db') /\
    customer_summary row ∈ SearchResponse.customers listing.
Proof.
  intros Hreq Hrun H0.
  apply update_customer_info_post in Hrun as (_ & _ & _ & Hresp).
  specialize (Hresp resp eq_refl) as [_ Hpol]. rewrite Hreq in Hpol.
  destruct Hpol as (_ & row & u & Hrow & _ & _).
  rewrite (search_customers_run _ _ _ H0). unfold selected. cbn [truthy].
  assert (Hin : row ∈ rows (customer_policies db')) by (apply elem_of_rows; eauto).
  destruct (rows (customer_policies db')) as [|c l] eqn:Hrows; [inversion Hin|].
  exists row. eexists. split; [exact Hrow|]. split; [reflexivity|].
  cbn [SearchResponse.customers]. now apply list_elem_of_fmap_2.
Qed.

Lemma update_then_search_witness :
  exists row listing,
    customer_policies (updated asha_policy_only) !! asha = Some row /\
    get_db (search_customers None) calm (updated asha_policy_only) =
      (Ok listing, updated asha_policy_only) /\
    customer_summary row ∈ SearchResponse.customers listing.
Proof.
  apply (update_then_search calm calm sample_db asha_policy_only
           asha_policy_update (update_response asha_policy_only)
           (updated asha_policy_only)).
  - reflexivity.
  - vm_compute. reflexivity.
  - reflexivity.
Defined.

(** * The sample rows of [database.py] *)

Lemma wp_add_all env objs (Q : Result unit -> Session -> Prop) st wk ad rt cr :
  Q (Ok tt)
    (session st (with_customer_info (inserted objs (customer_info wk)) wk) ad rt cr) ->
  wp (for_each objs add_CustomerInfo) env Q (session st wk ad rt cr).
Proof.
  revert wk. induction objs as [|obj objs IH]; intros wk H; cbn [for_each].
  - wp_go. unfold inserted in H. cbn [foldl] in H.
    now rewrite with_customer_info_id in H.
  - wp_go. apply IH. unfold inserted in *. cbn [foldl] in H.
    unfold with_customer_info in *.
    cbn [customer_info insurance_claims customer_policies] in *. exact H.
Qed.

Lemma insert_sample_customer_info_run env db :
  insert_sample_customer_info env db =
  (Ok tt,
   if free_keys customer_info_data (customer_info db) then
     match db_fault env 0 with
     | None => with_customer_info (inserted customer_info_data (customer_info db)) db
     | Some _ => db
     end
   else db).
Proof.
  unfold insert_sample_customer_info.
  destruct (insert_sample_customer_info_body env (open_session db)) as [r s] eqn:E.
  revert E.
  refine (wp_run _ env (fun r s => (r, store s) = _) _ r s _).
  unfold insert_sample_customer_info_body, open_session. wp_go.
  apply wp_add_all. wp_go. unfold commit_inserts. wp_go.
  fold (free_keys customer_info_data (customer_info db)).
  destruct (free_keys customer_info_data (customer_info db)).
  - apply wp_commit_nil. destruct (db_fault env 0); wp_go; reflexivity.
  - wp_go. destruct (db_fault env 0); wp_go; reflexivity.
Qed.

(** The insertion of the sample rows raises nothing and touches neither the
    claims nor the policies.  It inserts both rows when the [customer_info]
    table holds neither name and the store accepts the commit; when the
    table holds one of the names, or the store fails, it inserts nothing. *)
Theorem insert_sample_customer_info_all_or_nothing env db :
  let out := insert_sample_customer_info env db in
  out.1 = Ok tt /\
  insurance_claims out.2 = insurance_claims db /\
  customer_policies out.2 = customer_policies db /\
  ((forall obj, obj ∈ customer_info_data ->
      customer_info db !! CustomerInfo.customer_name obj = None) ->
   db_fault env 0 = None ->
   customer_info out.2 = inserted customer_info_data (customer_info db)) /\
  ((exists obj, obj ∈ customer_info_data /\
      customer_info db !! CustomerInfo.customer_name obj <> None) \/
   db_fault env 0 <> None ->
   out.2 = db).
Proof.
  cbn zeta. rewrite insert_sample_customer_info_run. cbn [fst snd].
  split; [reflexivity|].
  assert (Hfree : free_keys customer_info_data (customer_info db) = true <->
                  forall obj, obj ∈ customer_info_data ->
                    customer_info db !! CustomerInfo.customer_name obj = None).
  { unfold free_keys. rewrite forallb_forall. split.
    - intros H obj Hin. apply list_elem_of_In, H in Hin.
      now apply bool_decide_eq_true in Hin.
    - intros H obj Hin. apply bool_decide_eq_true, H. now apply list_elem_of_In. }
  destruct (free_keys customer_info_data (customer_info db)) eqn:Hf.
  - destruct (db_fault env 0) as [msg|] eqn:H0.
    + repeat split; try easy.
    + repeat split; try easy.
      intros [(obj & Hin & Hne)|Hne]; [|contradiction].
      contradiction Hne. now apply Hfree.
  - repeat split; try easy. intros Hall. apply Hfree in Hall. discriminate.
Qed.

(** Inserting the sample rows a second time changes nothing: the second run
    ends as the first and leaves the store of the first. *)
Theorem insert_sample_customer_info_twice env db :
  insert_sample_customer_info env (insert_sample_customer_info env db).2 =
  insert_sample_customer_info env db.
Proof.
  rewrite (insert_sample_customer_info_run env db). cbn [snd].
  destruct (free_keys customer_info_data (customer_info db)) eqn:Hf;
    [destruct (db_fault env 0) as [msg|] eqn:H0|];
    rewrite insert_sample_customer_info_run; rewrite ?Hf, ?H0; try reflexivity.
  cbn [customer_info with_customer_info].
  replace (free_keys customer_info_data
             (inserted customer_info_data (customer_info db))) with false;
    [reflexivity|].
  symmetry. unfold free_keys, customer_info_data, inserted.
  cbn [forallb foldl CustomerInfo.customer_name].
  rewrite (bool_decide_eq_false_2 (_ !! py "Diya" = None)); [reflexivity|].
  rewrite lookup_insert_ne by (vm_compute; discriminate).
  now rewrite lookup_insert_eq.
Qed.

(** * Amounts that are read at their value *)

(** [s.replace(a, new)] for a one-character [a] works character by character. *)
Lemma replace_one_char a new s :
  replace [a] new s = flat_map (fun c => if a =? c then new else [c]) s.
Proof.
  unfold replace.
  induction s as [|c s IH]; cbn [replace_from flat_map startswith length];
    [reflexivity|].
  rewrite andb_true_r. destruct (a =? c); cbn [Nat.sub]; now rewrite IH.
Qed.

Lemma remove_one_char a s :
  replace [a] [] s = List.filter (fun c => negb (a =? c)) s.
Proof.
  rewrite replace_one_char.
  induction s as [|c s IH]; cbn [flat_map List.filter]; [reflexivity|].
  destruct (a =? c); cbn [negb app]; now rewrite IH.
Qed.

Lemma uint_chars_decimal d : Forall is_decimal (uint_chars d).
Proof.
  induction d; cbn [uint_chars]; constructor; try assumption;
    unfold is_decimal; lia.
Qed.

Lemma filter_id {A} (f : A -> bool) l :
  Forall (fun x => f x = true) l -> List.filter f l = l.
Proof.
  induction 1 as [|x l Hx _ IH]; cbn [List.filter]; [reflexivity|].
  now rewrite Hx, IH.
Qed.

Lemma filter_none {A} (f : A -> bool) l :
  Forall (fun x => f x = false) l -> List.filter f l = [].
Proof.
  induction 1 as [|x l Hx _ IH]; cbn [List.filter]; [reflexivity|].
  now rewrite Hx, IH.
Qed.

(** The commas of [commas_rev] are the only characters it adds. *)
Lemma commas_rev_without_commas r n :
  Forall is_decimal r ->
  List.filter (fun c => negb (44 =? c)) (commas_rev r n) = r.
Proof.
  intros H. revert n. induction H as [|c r Hc _ IH]; intros n;
    cbn [commas_rev]; [reflexivity|].
  assert (Hne : negb (44 =? c) = true).
  { unfold is_decimal in Hc. apply negb_true_iff, N.eqb_neq. lia. }
  destruct r as [|c' r'].
  - cbn [List.filter commas_rev]. now rewrite Hne.
  - destruct n as [|[|[|n]]]; cbn [List.filter]; rewrite Hne; now rewrite IH.
Qed.

Lemma commas_rev_chars r n :
  Forall is_decimal r ->
  Forall (fun c => is_decimal c \/ c = 44) (commas_rev r n).
Proof.
  intros H. revert n. induction H as [|c r Hc _ IH]; intros n;
    cbn [commas_rev]; [constructor|].
  destruct r as [|c' r'].
  - apply List.Forall_cons; [now left|apply List.Forall_nil].
  - destruct n as [|[|[|n]]];
      repeat (apply List.Forall_cons; [first [now left|now right]|]);
      apply IH.
Qed.

Lemma lstrip_id c s : Py_UNICODE_ISSPACE c = false -> lstrip (c :: s) = c :: s.
Proof. intros H. cbn [lstrip]. now rewrite H. Qed.

Lemma is_decimal_not_space c : is_decimal c -> Py_UNICODE_ISSPACE c = false.
Proof.
  unfold is_decimal, Py_UNICODE_ISSPACE. intros H.
  repeat (apply orb_false_iff; split);
    rewrite ?andb_false_iff, ?N.leb_gt, ?N.eqb_neq; lia.
Qed.

Lemma strip_decimal s : Forall is_decimal s -> strip s = s.
Proof.
  intros H. unfold strip, rstrip.
  assert (Hl : forall t, Forall is_decimal t -> lstrip t = t).
  { intros [|c t] Ht; [reflexivity|]. apply lstrip_id, is_decimal_not_space.
    now apply Forall_inv in Ht. }
  rewrite (Hl s H). rewrite Hl by now apply Forall_rev.
  apply rev_involutive.
Qed.

Lemma decimal_value pf c :
  is_decimal c -> Py_UNICODE_TODECIMAL pf c = Some (Z.of_N (c - 48)).
Proof.
  unfold is_decimal, Py_UNICODE_TODECIMAL. intros H.
  rewrite (proj2 (N.ltb_lt c 256)) by lia.
  rewrite (proj2 (N.leb_le 48 c)), (proj2 (N.leb_le c 57)) by lia. reflexivity.
Qed.

Lemma isdigit_decimal pf s : s <> [] -> Forall is_decimal s -> isdigit pf s = true.
Proof.
  intros Hne H. unfold isdigit. destruct s as [|c s]; [contradiction|].
  apply forallb_forall. intros x Hx. rewrite Forall_forall in H.
  unfold Py_UNICODE_ISDIGIT. rewrite decimal_value; [reflexivity|].
  apply H. now apply list_elem_of_In.
Qed.

Lemma int_digits_acc pf d acc :
  int_digits pf (Zpos acc) true (uint_chars d) =
  Some (Zpos (Pos.of_uint_acc d acc)).
Proof.
  revert acc. induction d; intros acc; cbn [uint_chars int_digits Pos.of_uint_acc];
    [reflexivity| | | | | | | | | |];
    match goal with
    | |- context [Py_UNICODE_TODECIMAL pf ?c] =>
        change (c =? 95) with false; cbn iota;
        rewrite (decimal_value pf c) by (unfold is_decimal; lia)
    end;
    cbn [N.sub Pos.sub Pos.sub_mask Z.of_N]; 
    match goal with
    | |- int_digits pf ?z true _ = Some (Zpos (Pos.of_uint_acc _ ?p)) =>
        replace z with (Zpos p) by lia
    end; apply IHd.
Qed.

Lemma int_digits_uint pf d b :
  d <> Decimal.Nil \/ b = true ->
  int_digits pf 0 b (uint_chars d) = Some (Z.of_N (Pos.of_uint d)).
Proof.
  revert b. induction d; intros b Hb; cbn [uint_chars int_digits Pos.of_uint];
    [destruct Hb as [? | ->]; [contradiction|reflexivity]| | | | | | | | | |];
    match goal with
    | |- context [Py_UNICODE_TODECIMAL pf ?c] =>
        change (c =? 95) with false; cbn iota;
        rewrite (decimal_value pf c) by (unfold is_decimal; lia)
    end;
    cbn [N.sub Pos.sub Pos.sub_mask Z.of_N Z.mul Z.add];
    first [ apply IHd; now right | apply int_digits_acc ].
Qed.

Lemma to_uint_nonnil n : N.to_uint n <> Decimal.Nil.
Proof.
  destruct n as [|p]; [discriminate|]. cbn [N.to_uint].
  apply DecimalPos.Unsigned.to_uint_nonnil.
Qed.

Lemma str_N_nonempty n : str_N n <> [].
Proof.
  unfold str_N. pose proof (to_uint_nonnil n) as H.
  destruct (N.to_uint n); [contradiction| | | | | | | | | |]; discriminate.
Qed.

Lemma int_digits_str_N pf n :
  int_digits pf 0 false (str_N n) = Some (Z.of_N n).
Proof.
  unfold str_N. rewrite int_digits_uint by (left; apply to_uint_nonnil).
  change (Pos.of_uint (N.to_uint n)) with (N.of_uint (N.to_uint n)).
  now rewrite DecimalN.Unsigned.of_to.
Qed.

Lemma int_literal_decimal pf s :
  s <> [] -> Forall is_decimal s ->
  int_literal pf s = int_digits pf 0 false s.
Proof.
  intros Hne H. unfold int_literal. rewrite (strip_decimal s H).
  destruct s as [|c t]; [contradiction|].
  apply Forall_inv in H. unfold is_decimal in H.
  destruct c as [|p]; [lia|].
  do 6 (destruct p as [p|p|]; try reflexivity); lia.
Qed.

(** An amount written as a non-negative number with thousands separators,
    as [total_approved_amount] is written, with or without rupee signs and
    question marks before it, leaves the decimal digits of the number as
    residue and is counted at the number, on every platform. *)
Theorem formatted_amount_is_read pf c n prefix :
  (0 <= n)%Z ->
  Forall (fun ch => ch = 8377 \/ ch = 63) prefix ->
  InsuranceClaims.amount c = prefix ++ format_comma n ->
  amount_str c = str_N (Z.to_N n) /\
  amount_value pf c = n.
Proof.
  intros Hn Hprefix Hamount.
  set (ds := str_N (Z.to_N n)).
  assert (Hds : Forall is_decimal ds) by apply uint_chars_decimal.
  assert (Hstr : amount_str c = ds).
  { unfold amount_str. rewrite Hamount.
    change (py ",") with [44]. change (py "?") with [63]. unfold RUPEE.
    rewrite !remove_one_char, !List.filter_app.
    assert (Hp : List.filter (fun c0 => negb (44 =? c0))
                   (List.filter (fun c0 => negb (63 =? c0))
                      (List.filter (fun c0 => negb (8377 =? c0)) prefix)) = []).
    { clear -Hprefix. induction Hprefix as [|ch l [->| ->] _ IH];
        cbn [List.filter]; [reflexivity| |]; cbn; exact IH. }
    rewrite Hp. cbn [app].
    unfold format_comma. rewrite (proj2 (Z.ltb_ge n 0)) by lia. cbn [app].
    replace (Z.abs_N n) with (Z.to_N n) by lia. fold ds.
    assert (Hfc : Forall (fun ch => is_decimal ch \/ ch = 44)
                    (rev (commas_rev (rev ds) 0))).
    { apply Forall_rev, commas_rev_chars. now apply Forall_rev. }
    rewrite (filter_id (fun c0 => negb (8377 =? c0))).
    2:{ eapply Forall_impl; [exact Hfc|]. unfold is_decimal. intros ch Hch.
        cbn beta. apply negb_true_iff, N.eqb_neq. lia. }
    rewrite (filter_id (fun c0 => negb (63 =? c0))).
    2:{ eapply Forall_impl; [exact Hfc|]. unfold is_decimal. intros ch Hch.
        cbn beta. apply negb_true_iff, N.eqb_neq. lia. }
    rewrite List.filter_rev, commas_rev_without_commas by now apply Forall_rev.
    rewrite rev_involutive. now apply strip_decimal. }
  split; [exact Hstr|].
  unfold amount_value. rewrite Hstr.
  rewrite isdigit_decimal by (try apply str_N_nonempty; exact Hds).
  rewrite int_literal_decimal by (try apply str_N_nonempty; exact Hds).
  unfold ds. rewrite int_digits_str_N. lia.
Qed.

Lemma formatted_amount_is_read_witness :
  amount_str (claim "CLM-1" (RUPEE ++ py "45,000") (py "APPROVED") 10) =
    str_N (Z.to_N 45000) /\
  amount_value ascii_platform
    (claim "CLM-1" (RUPEE ++ py "45,000") (py "APPROVED") 10) = 45000%Z.
Proof.
  apply (formatted_amount_is_read ascii_platform
           (claim "CLM-1" (RUPEE ++ py "45,000") (py "APPROVED") 10)
           45000 RUPEE).
  - lia.
  - apply List.Forall_cons; [now left|apply List.Forall_nil].
  - reflexivity.
Defined.


(** * The connection string *)

(** Arithmetic with quotients and remainders by constants. *)
Ltac euclid := zify; Z.to_euclidean_division_equations; lia.

Lemma utf8_char_ascii c bs :
  utf8_char c = Some bs ->
  (c < 128 /\ bs = [c]) \/ (128 <= c /\ Forall (fun b => 128 <= b < 256) bs).
Proof.
  unfold utf8_char.
  destruct (c <? 128) eqn:H1; [intros [= <-]; left; split; [now apply N.ltb_lt|reflexivity]|].
  apply N.ltb_ge in H1. right. split; [exact H1|].
  destruct (c <? 2048) eqn:H2.
  { apply N.ltb_lt in H2. injection H as <-. repeat constructor; euclid. }
  apply N.ltb_ge in H2.
  destruct ((55296 <=? c) && (c <=? 57343) || (1114111 <? c)) eqn:H3;
    [discriminate|].
  apply orb_false_iff in H3 as [_ H3]. apply N.ltb_ge in H3.
  destruct (c <? 65536) eqn:H4.
  { apply N.ltb_lt in H4. injection H as <-. repeat constructor; euclid. }
  injection H as <-. repeat constructor; euclid.
Qed.

Lemma encode_utf8_bytes pos s bs :
  encode_utf8 pos s = inr bs -> Forall (fun b => b < 256) bs.
Proof.
  revert pos bs. induction s as [|c s IH]; intros pos bs; cbn [encode_utf8].
  - intros [= <-]. constructor.
  - destruct (utf8_char c) as [cs|] eqn:Hc; [|discriminate].
    destruct (encode_utf8 (S pos) s) as [e|bs'] eqn:Hs; [discriminate|].
    intros [= <-]. apply Forall_app. split; [|eauto].
    apply utf8_char_ascii in Hc as [[Hlt ->]|[_ Hall]].
    + repeat constructor. lia.
    + eapply Forall_impl; [exact Hall|]. cbn beta. lia.
Qed.

(** A space of the bytes is a space of the string. *)
Lemma encode_utf8_space pos s bs :
  encode_utf8 pos s = inr bs -> existsb (N.eqb 32) bs = existsb (N.eqb 32) s.
Proof.
  revert pos bs. induction s as [|c s IH]; intros pos bs; cbn [encode_utf8].
  - now intros [= <-].
  - destruct (utf8_char c) as [cs|] eqn:Hc; [|discriminate].
    destruct (encode_utf8 (S pos) s) as [e|bs'] eqn:Hs; [discriminate|].
    intros [= <-]. rewrite existsb_app. cbn [existsb]. rewrite (IH _ _ Hs).
    f_equal. apply utf8_char_ascii in Hc as [[Hlt ->]|[Hge Hall]].
    + cbn [existsb]. now rewrite orb_false_r.
    + rewrite (proj2 (N.eqb_neq 32 c)) by lia.
      apply not_true_is_false. intros Hex. apply existsb_exists in Hex as (b & Hb & Heq).
      apply N.eqb_eq in Heq. subst b. rewrite Forall_forall in Hall.
      apply list_elem_of_In, Hall in Hb. lia.
Qed.

Lemma hexdigit_safe n : n < 16 -> ALWAYS_SAFE (hexdigit n) = true.
Proof.
  intros H. destruct n as [|p]; [reflexivity|].
  do 4 (destruct p as [p|p|]; try reflexivity); lia.
Qed.

Lemma hexdigit_inj m n : m < 16 -> n < 16 -> hexdigit m = hexdigit n -> m = n.
Proof.
  unfold hexdigit. intros Hm Hn.
  destruct (m <? 10) eqn:H1, (n <? 10) eqn:H2;
    rewrite ?N.ltb_lt, ?N.ltb_ge in *; lia.
Qed.

(** [quote_plus] works byte by byte. *)
Lemma quote_plus_bytes s :
  quote_plus s =
  match encode_utf8 0 s with
  | inl e => inl e
  | inr bs => inr (flat_map plus_quoted bs)
  end.
Proof.
  unfold quote_plus, quote, quote_from_bytes.
  destruct (encode_utf8 0 s) as [e|bs] eqn:Hbs;
    [now destruct (existsb (N.eqb 32) s)|].
  pose proof (encode_utf8_space _ _ _ Hbs) as Hsp.
  destruct (existsb (N.eqb 32) s); f_equal.
  - rewrite replace_one_char. clear. cbn [List.filter N.ltb N.compare Pos.compare Pos.compare_cont].
    induction bs as [|b bs IH]; cbn [flat_map]; [reflexivity|].
    rewrite flat_map_app, IH. f_equal.
    unfold quoter, plus_quoted. cbn [existsb]. rewrite orb_false_r.
    destruct (b =? 32) eqn:Hb.
    + apply N.eqb_eq in Hb. now subst b.
    + destruct (ALWAYS_SAFE b) eqn:Hs; cbn [orb flat_map app].
      * rewrite N.eqb_sym, Hb. reflexivity.
      * unfold hexdigit.
        assert (Hne : forall x, 37 <= x -> (32 =? x) = false)
          by (intros x Hx; apply N.eqb_neq; lia).
        rewrite !Hne; [reflexivity|..];
          repeat match goal with |- context [if ?c then _ else _] => destruct c end;
          euclid.
  - cbn [List.filter]. clear Hbs.
    induction bs as [|b bs IH]; cbn [flat_map existsb] in *; [reflexivity|].
    apply orb_false_iff in Hsp as [Hb Hsp]. rewrite (IH Hsp). f_equal.
    unfold quoter, plus_quoted. cbn [existsb]. rewrite orb_false_r.
    rewrite N.eqb_sym, Hb. reflexivity.
Qed.

Lemma plus_quoted_safe b : b < 256 -> Forall url_safe (plus_quoted b).
Proof.
  intros Hb. unfold plus_quoted, url_safe.
  destruct (b =? 32);
    [apply List.Forall_cons; [auto|apply List.Forall_nil]|].
  destruct (ALWAYS_SAFE b) eqn:Hs;
    [apply List.Forall_cons; [auto|apply List.Forall_nil]|].
  repeat (apply List.Forall_cons); try apply List.Forall_nil.
  - auto.
  - left. apply hexdigit_safe. euclid.
  - left. apply hexdigit_safe. euclid.
Qed.

Lemma flat_map_plus_quoted_safe bs :
  Forall (fun b => b < 256) bs -> Forall url_safe (flat_map plus_quoted bs).
Proof.
  induction 1 as [|b bs Hb _ IH]; cbn [flat_map]; [constructor|].
  apply Forall_app. split; [now apply plus_quoted_safe|exact IH].
Qed.

Lemma url_safe_not_delimiter c : url_safe c -> ~ In c url_delimiters.
Proof.
  intros Hc Hin. unfold url_delimiters in Hin. cbn [In] in Hin.
  repeat (destruct Hin as [<-|Hin];
          [destruct Hc as [Hc|[Hc|Hc]]; vm_compute in Hc; discriminate Hc|]).
  exact Hin.
Qed.

(** What [quote_plus] returns holds letters, digits and the characters
    [_.-~%+] only: none of the characters that delimit the parts of a URL,
    and no space. *)
Theorem quote_plus_is_url_safe s q :
  quote_plus s = inr q ->
  Forall url_safe q /\
  Forall (fun c => ~ In c url_delimiters) q.
Proof.
  rewrite quote_plus_bytes.
  destruct (encode_utf8 0 s) as [e|bs] eqn:Hbs; [discriminate|]. intros [= <-].
  apply encode_utf8_bytes, flat_map_plus_quoted_safe in Hbs.
  split; [exact Hbs|].
  eapply Forall_impl; [exact Hbs|]. apply url_safe_not_delimiter.
Qed.

Lemma quote_plus_is_url_safe_witness :
  Forall url_safe (py "p%40ss+w%3Ard%2F1") /\
  Forall (fun c => ~ In c url_delimiters) (py "p%40ss+w%3Ard%2F1").
Proof.
  apply (quote_plus_is_url_safe sample_password). vm_compute. reflexivity.
Defined.

Lemma plus_quoted_inj b1 b2 r1 r2 :
  b1 < 256 -> b2 < 256 ->
  plus_quoted b1 ++ r1 = plus_quoted b2 ++ r2 -> b1 = b2 /\ r1 = r2.
Proof.
  intros H1 H2. unfold plus_quoted.
  destruct (b1 =? 32) eqn:E1; destruct (b2 =? 32) eqn:E2;
    rewrite ?N.eqb_eq, ?N.eqb_neq in *.
  - intros [= <-]. split; congruence.
  - destruct (ALWAYS_SAFE b2) eqn:S2; intros [= <-]; try discriminate.
  - destruct (ALWAYS_SAFE b1) eqn:S1; intros [= ->]; try discriminate.
  - destruct (ALWAYS_SAFE b1) eqn:S1; destruct (ALWAYS_SAFE b2) eqn:S2.
    + intros [= -> ->]. now split.
    + intros [= -> _]. discriminate.
    + intros [= <- _]. discriminate.
    + intros [= Hh Hl ->]. split; [|reflexivity].
      apply hexdigit_inj in Hh, Hl; euclid.
Qed.

Lemma flat_map_plus_quoted_inj bs1 bs2 :
  Forall (fun b => b < 256) bs1 -> Forall (fun b => b < 256) bs2 ->
  flat_map plus_quoted bs1 = flat_map plus_quoted bs2 -> bs1 = bs2.
Proof.
  intros H1. revert bs2. induction H1 as [|b1 bs1 Hb1 _ IH]; intros bs2 H2;
    destruct H2 as [|b2 bs2 Hb2 H2]; cbn [flat_map].
  - reflexivity.
  - unfold plus_quoted. destruct (b2 =? 32); [discriminate|].
    destruct (ALWAYS_SAFE b2); discriminate.
  - unfold plus_quoted. destruct (b1 =? 32); [discriminate|].
    destruct (ALWAYS_SAFE b1); discriminate.
  - intros H. apply plus_quoted_inj in H as [-> H]; try assumption.
    f_equal. now apply IH.
Qed.

(** The bytes of a code point, by length: the lead byte tells the length. *)
Lemma utf8_char_cases c bs :
  utf8_char c = Some bs ->
  (c < 128 /\ bs = [c]) \/
  (exists q r,
     c = 64 * q + r /\ r < 64 /\ 2 <= q < 32 /\ bs = [192 + q; 128 + r]) \/
  (exists q r1 r0,
     c = 4096 * q + 64 * r1 + r0 /\ r1 < 64 /\ r0 < 64 /\ q < 16 /\
     bs = [224 + q; 128 + r1; 128 + r0]) \/
  (exists q r2 r1 r0,
     c = 262144 * q + 4096 * r2 + 64 * r1 + r0 /\ r2 < 64 /\ r1 < 64 /\ r0 < 64 /\
     bs = [240 + q; 128 + r2; 128 + r1; 128 + r0]).
Proof.
  unfold utf8_char. intros H.
  destruct (c <? 128) eqn:H1.
  { injection H as <-. left. split; [now apply N.ltb_lt|reflexivity]. }
  apply N.ltb_ge in H1. right.
  destruct (c <? 2048) eqn:H2.
  { apply N.ltb_lt in H2. injection H as <-. left.
    exists (c / 64), (c mod 64). repeat split; euclid. }
  right.
  destruct ((55296 <=? c) && (c <=? 57343) || (1114111 <? c)); [discriminate|].
  destruct (c <? 65536) eqn:H4.
  { apply N.ltb_lt in H4. injection H as <-. left.
    exists (c / 4096), ((c / 64) mod 64), (c mod 64). repeat split; euclid. }
  injection H as <-. right.
  exists (c / 262144), ((c / 4096) mod 64), ((c / 64) mod 64), (c mod 64).
  repeat split; euclid.
Qed.

Lemma utf8_char_inj c1 c2 bs1 bs2 r1 r2 :
  utf8_char c1 = Some bs1 -> utf8_char c2 = Some bs2 ->
  bs1 ++ r1 = bs2 ++ r2 -> c1 = c2 /\ r1 = r2.
Proof.
  intros H1 H2.
  apply utf8_char_cases in H1, H2.
  destruct H1 as [[? ->]|[(?&?&?&?&?& ->)|[(?&?&?&?&?&?&?& ->)|
                   (?&?&?&?&?&?&?&?& ->)]]];
  destruct H2 as [[? ->]|[(?&?&?&?&?& ->)|[(?&?&?&?&?&?&?& ->)|
                   (?&?&?&?&?&?&?&?& ->)]]];
  cbn [app]; intros Heq; injection Heq; clear Heq; intros;
    (split; [lia|first [assumption|congruence|exfalso; lia]]).
Qed.

Lemma utf8_char_nonempty c bs : utf8_char c = Some bs -> bs <> [].
Proof.
  unfold utf8_char. intros H.
  repeat match type of H with (if ?c then _ else _) = _ => destruct c end;
    try discriminate; injection H as <-; discriminate.
Qed.

Lemma encode_utf8_inj s1 : forall s2 p1 p2 bs,
  encode_utf8 p1 s1 = inr bs -> encode_utf8 p2 s2 = inr bs -> s1 = s2.
Proof.
  induction s1 as [|c1 s1 IH]; intros [|c2 s2] p1 p2 bs; cbn [encode_utf8].
  - reflexivity.
  - intros [= <-]. destruct (utf8_char c2) as [cs|] eqn:Hc; [|discriminate].
    destruct (encode_utf8 (S p2) s2); [discriminate|]. intros [= H].
    apply utf8_char_nonempty in Hc. destruct cs; [contradiction|discriminate].
  - destruct (utf8_char c1) as [cs|] eqn:Hc; [|discriminate].
    destruct (encode_utf8 (S p1) s1); [discriminate|]. intros [= <-] [= H].
    apply utf8_char_nonempty in Hc. destruct cs; [contradiction|discriminate].
  - destruct (utf8_char c1) as [cs1|] eqn:Hc1; [|discriminate].
    destruct (encode_utf8 (S p1) s1) as [|r1] eqn:H1; [discriminate|].
    destruct (utf8_char c2) as [cs2|] eqn:Hc2; [|discriminate].
    destruct (encode_utf8 (S p2) s2) as [|r2] eqn:H2; [discriminate|].
    intros [= <-] [= H].
    symmetry in H.
    destruct (utf8_char_inj _ _ _ _ _ _ Hc1 Hc2 H) as [-> ->].
    f_equal. eapply IH; eauto.
Qed.

(** Two strings that [quote_plus] writes the same way are the same
    string. *)
Theorem quote_plus_is_injective s1 s2 q :
  quote_plus s1 = inr q -> quote_plus s2 = inr q -> s1 = s2.
Proof.
  rewrite !quote_plus_bytes.
  destruct (encode_utf8 0 s1) as [|bs1] eqn:H1; [discriminate|].
  destruct (encode_utf8 0 s2) as [|bs2] eqn:H2; [discriminate|].
  intros [= <-] [= Hq].
  apply flat_map_plus_quoted_inj in Hq; try (eapply encode_utf8_bytes; eauto).
  subst bs2. eapply encode_utf8_inj; eauto.
Qed.

Lemma quote_plus_is_injective_witness :
  py "p@ss w:rd/1" = sample_password.
Proof.
  apply (quote_plus_is_injective (py "p@ss w:rd/1") sample_password
           (py "p%40ss+w%3Ard%2F1"));
    vm_compute; reflexivity.
Defined.

Lemma encode_utf8_refused pos s e :
  encode_utf8 pos s = inl e ->
  (exists p, e = UnicodeEncodeError p) /\ exists c, c ∈ s /\ utf8_char c = None.
Proof.
  revert pos. induction s as [|c s IH]; intros pos; cbn [encode_utf8];
    [discriminate|].
  destruct (utf8_char c) as [bs|] eqn:Hc.
  - destruct (encode_utf8 (S pos) s) as [e'|bs'] eqn:Hs; [|discriminate].
    intros [= <-]. destruct (IH _ Hs) as [He (c' & Hin & Hc')].
    split; [exact He|]. exists c'. split; [now right|exact Hc'].
  - intros [= <-]. split; [eauto|]. exists c. split; [left|exact Hc].
Qed.

(** The module builds its URL exactly when [DB_PASSWORD] is set and is a
    string that UTF-8 can encode.  The URL then holds the password as
    [quote_plus] writes it, free of the delimiters of a URL, between the
    colon after the user and the at sign before the server, and the text
    [None] for each of the other three variables that is not set.  When
    [DB_PASSWORD] is not set the import fails with a [TypeError], and when
    it holds a surrogate with a [UnicodeEncodeError]. *)
Theorem database_url_needs_password environ :
  match SQLALCHEMY_DATABASE_URL environ with
  | inr url =>
      exists password q,
        environ !! py "DB_PASSWORD" = Some password /\
        quote_plus password = inr q /\
        Forall (fun c => ~ In c url_delimiters) q /\
        url =
          py "mssql+pyodbc://" ++ format_optional (environ !! py "DB_USER") ++
          py ":" ++ q ++ py "@" ++
          format_optional (environ !! py "DB_SERVER") ++ py "/" ++
          format_optional (environ !! py "DB_NAME") ++ py "?" ++
          py "driver=ODBC+Driver+18+for+SQL+Server&" ++
          py "encrypt=yes&" ++
          py "trustservercertificate=no&" ++
          py "connection+timeout=30"
  | inl (TypeError _) => environ !! py "DB_PASSWORD" = None
  | inl (UnicodeEncodeError _) =>
      exists password c,
        environ !! py "DB_PASSWORD" = Some password /\
        c ∈ password /\ utf8_char c = None
  end.
Proof.
  unfold SQLALCHEMY_DATABASE_URL.
  destruct (environ !! py "DB_PASSWORD") as [password|]; [|reflexivity].
  destruct (quote_plus password) as [e|q] eqn:Hq.
  - rewrite quote_plus_bytes in Hq.
    destruct (encode_utf8 0 password) as [e'|bs] eqn:Hbs; [|discriminate].
    injection Hq as <-.
    destruct (encode_utf8_refused _ _ _ Hbs) as [[p ->] (c & Hin & Hc)].
    eauto.
  - exists password, q. split; [reflexivity|]. split; [exact Hq|].
    split; [|reflexivity].
    rewrite quote_plus_bytes in Hq.
    destruct (encode_utf8 0 password) as [e'|bs] eqn:Hbs; [discriminate|].
    injection Hq as <-.
    apply encode_utf8_bytes, flat_map_plus_quoted_safe in Hbs.
    eapply Forall_impl; [exact Hbs|]. apply url_safe_not_delimiter.
Qed.

(** * Stored values *)

(** When an answered update carries a [customer_info] sub-payload whose
    [final_premium_amount] is supplied and not empty, the premium is stored
    stripped, for a new customer and for a known one: the supplied text is
    white space, the stored text, white space, and the stored text neither
    starts nor ends with white space. *)
Theorem stored_premium_is_stripped env db req d v resp db' :
  UpdateCustomerInfoRequest.customer_info req = Some d ->
  CustomerInfoUpdateRequest.final_premium_amount d = Some v ->
  v <> [] ->
  get_db (update_customer_info req) env db = (Ok resp, db') ->
  exists row stored l r,
    customer_info db' !! CustomerInfoUpdateRequest.customer_name d = Some row /\
    CustomerInfo.final_premium_amount row = Some stored /\
    v = l ++ stored ++ r /\
    forallb Py_UNICODE_ISSPACE l = true /\
    forallb Py_UNICODE_ISSPACE r = true /\
    match stored with
    | c :: _ => Py_UNICODE_ISSPACE c = false
    | [] => True
    end /\
    match rev stored with
    | c :: _ => Py_UNICODE_ISSPACE c = false
    | [] => True
    end.
Proof.
  intros Hreq Hv Hne Hrun.
  apply update_customer_info_post in Hrun as (_ & _ & _ & Hresp).
  specialize (Hresp resp eq_refl) as [Hinfo _]. rewrite Hreq in Hinfo.
  destruct Hinfo as [-> _]. unfold upsert_info. rewrite lookup_insert_eq.
  destruct (strip_spec v) as (l & r & Hsplit & Hl & Hr & Hhd & Hlast).
  eexists _, (strip v), l, r. split; [reflexivity|].
  split; [|repeat split; assumption].
  destruct (customer_info db !! _); unfold merged_info, created_info;
    rewrite Hv; [reflexivity|].
  destruct v; [contradiction|reflexivity].
Qed.

Lemma stored_premium_is_stripped_witness :
  exists row stored l r,
    customer_info (updated padded_premium_only) !! asha = Some row /\
    CustomerInfo.final_premium_amount row = Some stored /\
    py " 18,500 " = l ++ stored ++ r /\
    forallb Py_UNICODE_ISSPACE l = true /\
    forallb Py_UNICODE_ISSPACE r = true /\
    match stored with
    | c :: _ => Py_UNICODE_ISSPACE c = false
    | [] => True
    end /\
    match rev stored with
    | c :: _ => Py_UNICODE_ISSPACE c = false
    | [] => True
    end.
Proof.
  apply (stored_premium_is_stripped calm sample_db padded_premium_only
           padded_premium (py " 18,500 ") (update_response padded_premium_only)
           (updated padded_premium_only)).
  - reflexivity.
  - reflexivity.
  - discriminate.
  - vm_compute. reflexivity.
Defined.

(** After an answered update with a [customer_policy] sub-payload, the row
    of a customer that was known keeps its [created_at] and has the clock
    reading of the handler as [updated_at]; the row of a new customer has
    the two readings taken when it is flushed, after the reading that gives
    [customer_since], as [created_at] and [updated_at]; the response carries
    the ISO text of the stored [updated_at]. *)
Theorem policy_timestamps_after_update env db req d resp db' :
  UpdateCustomerInfoRequest.customer_policy req = Some d ->
  get_db (update_customer_info req) env db = (Ok resp, db') ->
  exists row echo,
    customer_policies db' !! CustomerPolicyUpdateRequest.customer_name d = Some row /\
    UpdateResponse.updated_customer_policy resp = Some echo /\
    match customer_policies db !! CustomerPolicyUpdateRequest.customer_name d with
    | Some old =>
        CustomerPolicies.created_at row = CustomerPolicies.created_at old /\
        CustomerPolicies.updated_at row = Some (utcnow env 0) /\
        UpdatedPolicy.updated_at echo = datetime_isoformat (utcnow env 0)
    | None =>
        CustomerPolicies.created_at row = Some (utcnow env 1) /\
        CustomerPolicies.updated_at row = Some (utcnow env 2) /\
        UpdatedPolicy.updated_at echo = datetime_isoformat (utcnow env 2)
    end.
Proof.
  intros Hreq Hrun.
  apply update_customer_info_post in Hrun as (_ & _ & _ & Hresp).
  specialize (Hresp resp eq_refl) as [_ Hpol]. rewrite Hreq in Hpol.
  destruct Hpol as (-> & row & u & Hrow & Hu & ->).
  exists row. eexists. split; [exact Hrow|]. split; [reflexivity|].
  cbn [UpdatedPolicy.updated_at].
  unfold upsert_policy in Hrow. rewrite lookup_insert_eq in Hrow.
  injection Hrow as <-.
  destruct (customer_policies db !! _) as [old|].
  - unfold merged_policy in *.
    destruct (apply_items_kept
                (CustomerPolicyUpdateRequest.dict_exclude_unset d) old)
      as (_ & _ & Hcreated).
    cbn in Hu. injection Hu as <-. repeat split. exact Hcreated.
  - cbn in Hu. injection Hu as <-. repeat split.
Qed.

Lemma policy_timestamps_after_update_witness :
  exists row echo,
    customer_policies (updated asha_policy_only) !! asha = Some row /\
    UpdateResponse.updated_customer_policy (update_response asha_policy_only)
      = Some echo /\
    match customer_policies sample_db !! asha with
    | Some old =>
        CustomerPolicies.created_at row = CustomerPolicies.created_at old /\
        CustomerPolicies.updated_at row = Some (utcnow calm 0) /\
        UpdatedPolicy.updated_at echo = datetime_isoformat (utcnow calm 0)
    | None =>
        CustomerPolicies.created_at row = Some (utcnow calm 1) /\
        CustomerPolicies.updated_at row = Some (utcnow calm 2) /\
        UpdatedPolicy.updated_at echo = datetime_isoformat (utcnow calm 2)
    end.
Proof.
  apply (policy_timestamps_after_update calm sample_db asha_policy_only
           asha_policy_update (update_response asha_policy_only)
           (updated asha_policy_only)).
  - reflexivity.
  - vm_compute. reflexivity.
Defined.

(** If every row of the two customer tables is filed under its own
    [customer_name] before an update request, so it is after the request,
    however the request ends. *)
Theorem update_keeps_rows_filed_by_name env db req :
  filed_by_name db ->
  filed_by_name (get_db (update_customer_info req) env db).2.
Proof.
  intros [Hinfo Hpol].
  destruct (get_db (update_customer_info req) env db) as [r db'] eqn:E.
  cbn [snd]. apply update_customer_info_post in E as (_ & Hi & Hp & _).
  split.
  - intros key row. destruct Hi as [->|(d & _ & ->)]; [apply Hinfo|].
    unfold upsert_info.
    destruct (decide (CustomerInfoUpdateRequest.customer_name d = key)) as [<-|Hne].
    + rewrite lookup_insert_eq. intros [= <-].
      destruct (customer_info db !! _) as [old|] eqn:Hold; [|reflexivity].
      unfold merged_info. apply Hinfo in Hold.
      destruct (CustomerInfoUpdateRequest.final_premium_amount d); exact Hold.
    + rewrite lookup_insert_ne by exact Hne. apply Hinfo.
  - intros key row. destruct Hp as [->|(d & _ & ->)]; [apply Hpol|].
    unfold upsert_policy.
    destruct (decide (CustomerPolicyUpdateRequest.customer_name d = key)) as [<-|Hne].
    + rewrite lookup_insert_eq. intros [= <-].
      destruct (customer_policies db !! _) as [old|] eqn:Hold; [|reflexivity].
      unfold merged_policy. apply Hpol in Hold.
      change (CustomerPolicies.customer_name
                (CustomerPolicies.set_updated_at ?t ?r))
        with (CustomerPolicies.customer_name r).
      now rewrite apply_items_customer_name.
    + rewrite lookup_insert_ne by exact Hne. apply Hpol.
Qed.

Lemma update_keeps_rows_filed_by_name_witness :
  filed_by_name (get_db (update_customer_info both_for_asha) calm sample_db).2.
Proof.
  apply (update_keeps_rows_filed_by_name calm sample_db both_for_asha).
  split; intros key row Hrow;
    cbn [sample_db customer_info customer_policies] in Hrow;
    apply lookup_singleton_Some in Hrow as [<- <-]; reflexivity.
Defined.



(** * The health check and the search agree *)

(** The number of customers that a healthy health check reports is the
    [total] of a search without filter on the same store. *)
Theorem health_count_is_search_total env env' db environ health listing :
  get_db (health_check environ) env db = (Ok health, db) ->
  HealthResponse.status health = py "healthy" ->
  get_db (search_customers None) env' db = (Ok listing, db) ->
  HealthStats.total_customers <$> HealthResponse.stats health =
  Some (SearchResponse.total listing).
Proof.
  intros Hhealth Hstatus Hsearch.
  rewrite health_check_run in Hhealth. injection Hhealth as <-.
  destruct (db_fault env' 0) as [msg|] eqn:H0.
  { rewrite (search_customers_fault _ _ _ _ H0) in Hsearch. discriminate. }
  rewrite (search_customers_run _ _ _ H0) in Hsearch.
  unfold selected in Hsearch. cbn [truthy] in Hsearch.
  assert (Htotal : SearchResponse.total listing =
                   Z.of_nat (size (customer_policies db))).
  { rewrite <- rows_length.
    destruct (rows (customer_policies db)) as [|c l];
      injection Hsearch as <-; cbn [SearchResponse.total length];
      [reflexivity|]. now rewrite length_fmap. }
  rewrite Htotal.
  destruct (db_fault env 0), (db_fault env 1), (db_fault env 2);
    cbn [HealthResponse.status HealthResponse.stats] in *;
    first [reflexivity | vm_compute in Hstatus; discriminate Hstatus].
Qed.

Lemma health_count_is_search_total_witness :
  HealthStats.total_customers <$>
    HealthResponse.stats
      (response_of no_health (get_db (health_check ∅) calm sample_db)) =
  Some (SearchResponse.total
          (response_of no_listing (get_db (search_customers None) calm sample_db))).
Proof.
  apply (health_count_is_search_total calm calm sample_db ∅);
    vm_compute; reflexivity.
Defined.
